(** * recline: terminal command execution (TerminalProcess, TerminalManager)

    A shallow embedding of the terminal integration of the extension:
    the text sanitizers, the per-command [TerminalProcess] (an event
    emitter fed by the chunks a terminal writes) and the [TerminalManager]
    pool that creates one process per submitted command.

    JavaScript strings are sequences of UTF-16 code units; they are
    modelled as lists of [N], and the regular expressions of the source
    (none of which has the [u] flag) as predicates on code units. Every
    reading of [Date.now()] is an argument. Methods of [TerminalProcess]
    are state transformers that also return the [emit] calls they made;
    the listeners [runCommand] registers are then run on the registry and
    on the promise of the execution. [strip-ansi] and [toLowerCase] are
    parameters. [getOrCreateTerminal] talks to the registry and the path
    utilities, which are not part of these files: they are its
    parameters, and what it does to the manager is [addTerminalId]. The
    two sanitizers of [utils/sanitize.ts] are in the module [Sanitize]. *)

From Stdlib Require Import NArith ZArith List Bool Lia String Ascii DecimalString.
From stdpp Require Import base gmap list.

Local Open Scope N_scope.

(** ** JavaScript strings *)

Abbreviation jsstring := (list N).

Module JS.

(** A string literal of the source, as code units (ASCII literals only). *)
Definition lit (s : string) : jsstring :=
  List.map N_of_ascii (list_ascii_of_string s).

(** [String(n)] for an integer: the decimal digits, with a sign. *)
Definition of_Z (z : Z) : jsstring :=
  lit (NilEmpty.string_of_int (Z.to_int z)).

(** A well-formed string holds 16-bit code units. *)
Definition wf (s : jsstring) : Prop := Forall (fun c => c < 65536) s.

(** White space in the sense of [String.prototype.trim] and of the
    regular-expression class [\s]: TAB, LF, VT, FF, CR, SP, NBSP,
    U+1680, U+2000-U+200A, LS, PS, U+202F, U+205F, U+3000, U+FEFF. *)
Definition isSpace (c : N) : bool :=
  ((9 <=? c) && (c <=? 13)) || (c =? 32) || (c =? 160) || (c =? 5760)
  || ((8192 <=? c) && (c <=? 8202)) || (c =? 8232) || (c =? 8233)
  || (c =? 8239) || (c =? 8287) || (c =? 12288) || (c =? 65279).

Fixpoint trimStart (s : jsstring) : jsstring :=
  match s with
  | [] => []
  | c :: r => if isSpace c then trimStart r else s
  end.

Fixpoint trimEnd (s : jsstring) : jsstring :=
  match s with
  | [] => []
  | c :: r =>
      match trimEnd r with
      | [] => if isSpace c then [] else [c]
      | r' => c :: r'
      end
  end.

Definition trim (s : jsstring) : jsstring := trimEnd (trimStart s).

(** [s.split("\n")]: always at least one piece. *)
Fixpoint split_nl (s : jsstring) : list jsstring :=
  match s with
  | [] => [[]]
  | c :: r =>
      if c =? 10 then [] :: split_nl r
      else match split_nl r with
           | h :: t => (c :: h) :: t
           | [] => [[c]]
           end
  end.

(** [l.join("\n")]. *)
Fixpoint join_nl (l : list jsstring) : jsstring :=
  match l with
  | [] => []
  | x :: r =>
      match r with
      | [] => x
      | _ :: _ => x ++ 10 :: join_nl r
      end
  end.

Fixpoint startsWith (s p : jsstring) : bool :=
  match p, s with
  | [], _ => true
  | _ :: _, [] => false
  | a :: p', b :: s' => (a =? b) && startsWith s' p'
  end.

(** [s.includes(p)]. *)
Fixpoint includes (s p : jsstring) : bool :=
  startsWith s p
  || match s with
     | [] => false
     | _ :: r => includes r p
     end.

(** [s.slice(i)] for an index [0 <= i]. *)
Definition slice_from (s : jsstring) (i : nat) : jsstring := drop i s.

(** Truthiness of a string: non-empty. *)
Definition truthy (s : jsstring) : bool :=
  match s with [] => false | _ :: _ => true end.

End JS.

(** ** The regular expressions of [regexes] *)

Module Regexes.

(** [LINE_ENDINGS = /\r\n/g], replaced by ["\n"]. *)
Fixpoint replace_LINE_ENDINGS (s : jsstring) : jsstring :=
  match s with
  | [] => []
  | c :: t =>
      match t with
      | d :: r =>
          if (c =? 13) && (d =? 10) then 10 :: replace_LINE_ENDINGS r
          else c :: replace_LINE_ENDINGS t
      | [] => [c]
      end
  end.

(** [STANDALONE_CR = /\r/g], replaced by [""]. *)
Definition remove_STANDALONE_CR (s : jsstring) : jsstring :=
  List.filter (fun c => negb (c =? 13)) s.

(** The class of [NON_ASCII_CONTROL = /[\x00-\x09\x0B-\x1F\x7F-\uFFFF]/g]. *)
Definition NON_ASCII_CONTROL (c : N) : bool :=
  (c <=? 9) || ((11 <=? c) && (c <=? 31)) || ((127 <=? c) && (c <=? 65535)).

Definition remove_NON_ASCII_CONTROL (s : jsstring) : jsstring :=
  List.filter (fun c => negb (NON_ASCII_CONTROL c)) s.

(** The class [[%$#>]] of [PROMPT_CHARS = /[%$#>]\s*$/]. *)
Definition promptChar (c : N) : bool :=
  (c =? 37) || (c =? 36) || (c =? 35) || (c =? 62).

(** [s.replace(PROMPT_CHARS, "")]: the expression is anchored at the end
    of the input and not global, so the leftmost prompt character that
    is followed by white space only is removed with all that follows. *)
Fixpoint remove_PROMPT_CHARS (s : jsstring) : jsstring :=
  match s with
  | [] => []
  | c :: r =>
      if promptChar c && forallb JS.isSpace r then []
      else c :: remove_PROMPT_CHARS r
  end.

End Regexes.

(** ** Sanitizers *)

Definition sanitizeOutput (output : jsstring) : jsstring :=
  JS.trim
    (Regexes.remove_NON_ASCII_CONTROL
       (Regexes.remove_STANDALONE_CR
          (Regexes.replace_LINE_ENDINGS output))).

Definition sanitizeLines (lines : list jsstring) : list jsstring :=
  List.filter JS.truthy
    (List.map
       (fun line =>
          JS.trim
            (Regexes.remove_NON_ASCII_CONTROL (Regexes.remove_PROMPT_CHARS line)))
       lines).

(** ** Events of a [TerminalProcess] (an [EventEmitter]) *)

Inductive event : Type :=
| Line (payload : jsstring)
| Completed
| Continue
| Error (message : jsstring).

Inductive event_name : Type := on_line | on_completed | on_continue | on_error.

Definition name_of (e : event) : event_name :=
  match e with
  | Line _ => on_line
  | Completed => on_completed
  | Continue => on_continue
  | Error _ => on_error
  end.

Definition event_name_eqb (a b : event_name) : bool :=
  match a, b with
  | on_line, on_line | on_completed, on_completed
  | on_continue, on_continue | on_error, on_error => true
  | _, _ => false
  end.

(** The callbacks that get registered on a process. The first three are
    the closures [TerminalManager.runCommand] creates; a [Subscriber] is a
    listener of the caller (it observes the event and touches nothing). *)
Inductive listener : Type :=
| SetIdle (terminalId : N)   (* () => { terminalInfo.busy = false } *)
| ResolvePromise             (* () => { cleanup(); resolve() } *)
| RejectPromise              (* (error) => { cleanup(); ...; reject(error) } *)
| Subscriber (tag : nat).

Record registration : Type := Registration {
  reg_event : event_name;
  reg_once : bool;
  reg_callback : listener
}.

(** One call of [emit]: the event and the callbacks it ran, in order. *)
Record emission : Type := Emission {
  emitted : event;
  called : list listener
}.

(** ** TerminalProcess *)

Definition PROCESS_HOT_TIMEOUT_NORMAL : Z := 2000.
Definition PROCESS_HOT_TIMEOUT_COMPILING : Z := 15000.

Record TerminalProcess : Type := mkProcess {
  buffer : jsstring;
  cooldownTimeout : Z;
  fullOutput : jsstring;
  isListening : bool;
  lastActivityTime : Z;
  lastRetrievedIndex : nat;
  waitForShellIntegration : bool;
  listeners : list registration
}.

(** [new TerminalProcess()]. *)
Definition newTerminalProcess : TerminalProcess :=
  {| buffer := [];
     cooldownTimeout := PROCESS_HOT_TIMEOUT_NORMAL;
     fullOutput := [];
     isListening := true;
     lastActivityTime := 0;
     lastRetrievedIndex := 0;
     waitForShellIntegration := true;
     listeners := [] |}.

Definition set_buffer (v : jsstring) (p : TerminalProcess) : TerminalProcess :=
  mkProcess v (cooldownTimeout p) (fullOutput p) (isListening p)
    (lastActivityTime p) (lastRetrievedIndex p) (waitForShellIntegration p)
    (listeners p).

Definition set_fullOutput (v : jsstring) (p : TerminalProcess) : TerminalProcess :=
  mkProcess (buffer p) (cooldownTimeout p) v (isListening p)
    (lastActivityTime p) (lastRetrievedIndex p) (waitForShellIntegration p)
    (listeners p).

Definition set_isListening (v : bool) (p : TerminalProcess) : TerminalProcess :=
  mkProcess (buffer p) (cooldownTimeout p) (fullOutput p) v
    (lastActivityTime p) (lastRetrievedIndex p) (waitForShellIntegration p)
    (listeners p).

Definition set_hot (time cooldown : Z) (p : TerminalProcess) : TerminalProcess :=
  mkProcess (buffer p) cooldown (fullOutput p) (isListening p)
    time (lastRetrievedIndex p) (waitForShellIntegration p)
    (listeners p).

Definition set_lastRetrievedIndex (v : nat) (p : TerminalProcess) : TerminalProcess :=
  mkProcess (buffer p) (cooldownTimeout p) (fullOutput p) (isListening p)
    (lastActivityTime p) v (waitForShellIntegration p)
    (listeners p).

Definition set_waitForShellIntegration (v : bool) (p : TerminalProcess) : TerminalProcess :=
  mkProcess (buffer p) (cooldownTimeout p) (fullOutput p) (isListening p)
    (lastActivityTime p) (lastRetrievedIndex p) v
    (listeners p).

Definition set_listeners (v : list registration) (p : TerminalProcess) : TerminalProcess :=
  mkProcess (buffer p) (cooldownTimeout p) (fullOutput p) (isListening p)
    (lastActivityTime p) (lastRetrievedIndex p) (waitForShellIntegration p)
    v.

(** *** Methods as state transformers that log their [emit] calls *)

Definition Eff (A : Type) : Type :=
  TerminalProcess -> A * TerminalProcess * list emission.

#[global] Instance Eff_ret : MRet Eff := fun _ a p => (a, p, []).

#[global] Instance Eff_bind : MBind Eff := fun _ _ k m p =>
  let '(a, p1, l1) := m p in
  let '(b, p2, l2) := k a p1 in
  (b, p2, l1 ++ l2).

Definition gets {A : Type} (f : TerminalProcess -> A) : Eff A :=
  fun p => (f p, p, []).

Definition modify (f : TerminalProcess -> TerminalProcess) : Eff unit :=
  fun p => (tt, f p, []).

Definition when (b : bool) (m : Eff unit) : Eff unit :=
  if b then m else mret tt.

Fixpoint forEach {A : Type} (l : list A) (f : A -> Eff unit) : Eff unit :=
  match l with
  | [] => mret tt
  | x :: r => f x ;; forEach r f
  end.

(** The process after a call, and the [emit] calls made. *)
Definition state_of {A : Type} (r : A * TerminalProcess * list emission) : TerminalProcess :=
  snd (fst r).
Definition value_of {A : Type} (r : A * TerminalProcess * list emission) : A :=
  fst (fst r).
Definition log_of {A : Type} (r : A * TerminalProcess * list emission) : list emission :=
  snd r.

(** The [line] payloads among the [emit] calls, in order. *)
Definition lines_of (l : list emission) : list jsstring :=
  omap (fun m => match emitted m with Line s => Some s | _ => None end) l.

(** [this.on(name, f)] / [this.once(name, f)]. *)
Definition addListener (name : event_name) (once : bool) (f : listener) : Eff unit :=
  modify (fun p => set_listeners (listeners p ++ [Registration name once f]) p).

(** [this.removeAllListeners(name)]. *)
Definition removeAllListeners (name : event_name) : Eff unit :=
  modify (fun p =>
    set_listeners
      (List.filter (fun r => negb (event_name_eqb (reg_event r) name)) (listeners p)) p).

(** The listeners an event reaches, and those left once it has run: a
    [once] registration is removed as it runs. *)
Definition hits (n : event_name) (r : registration) : bool :=
  event_name_eqb (reg_event r) n.
Definition survives (n : event_name) (r : registration) : bool :=
  negb (event_name_eqb (reg_event r) n && reg_once r).

(** [this.emit(e)]: runs the callbacks registered for the event, in
    registration order. (With no listener Node throws on ["error"]; the
    timer of [runCommand], the only caller that emits it, is cleared by
    the listeners that could have consumed the rejecting one.) *)
Definition emit (e : event) : Eff unit :=
  fun p =>
    (tt,
     set_listeners (List.filter (survives (name_of e)) (listeners p)) p,
     [Emission e (List.map reg_callback (List.filter (hits (name_of e)) (listeners p)))]).

(** [get isHot()], at clock reading [now]. *)
Definition isHot (now : Z) (p : TerminalProcess) : bool :=
  if (lastActivityTime p =? 0)%Z then false
  else (now - lastActivityTime p <? cooldownTimeout p)%Z.

(** The loop of [emitIfEol]: scans the buffer, emitting every complete
    line and keeping what follows the last newline. [line] is the part of
    the current line already scanned. *)
Fixpoint emitIfEol_loop (line rest : jsstring) : Eff unit :=
  match rest with
  | [] => modify (set_buffer line)
  | c :: r =>
      if c =? 10 then emit (Line (sanitizeOutput line)) ;; emitIfEol_loop [] r
      else emitIfEol_loop (line ++ [c]) r
  end.

Definition emitIfEol (chunk : jsstring) : Eff unit :=
  b ← gets buffer;
  emitIfEol_loop [] (Regexes.replace_LINE_ENDINGS (b ++ chunk)).

Definition sanitizeRemainingBuffer (output : jsstring) : jsstring :=
  JS.trimEnd (JS.join_nl (sanitizeLines (JS.split_nl output))).

Definition emitRemainingBufferIfListening : Eff unit :=
  b ← gets buffer;
  listening ← gets isListening;
  when (JS.truthy b && listening)
    (let remainingBuffer := sanitizeRemainingBuffer b in
     when (JS.truthy remainingBuffer) (emit (Line remainingBuffer)) ;;
     modify (set_buffer []) ;;
     modify (fun p => set_lastRetrievedIndex (length (fullOutput p)) p)).

Definition updateHotState (now : Z) (isCompiling : bool) : Eff unit :=
  modify (set_hot now
    (if isCompiling then PROCESS_HOT_TIMEOUT_COMPILING else PROCESS_HOT_TIMEOUT_NORMAL)).

(** [continue()]. *)
Definition continue_ : Eff unit :=
  emitRemainingBufferIfListening ;;
  modify (set_isListening false) ;;
  removeAllListeners on_line ;;
  emit Continue.

Definition getUnretrievedOutput : Eff jsstring :=
  unretrieved ← gets (fun p => JS.slice_from (fullOutput p) (lastRetrievedIndex p));
  modify (fun p => set_lastRetrievedIndex (length (fullOutput p)) p) ;;
  mret (sanitizeRemainingBuffer unretrieved).

Definition compilingMarkers : list jsstring :=
  List.map JS.lit
    ["compiling"; "building"; "bundling"; "transpiling"; "generating"; "starting"]%string.

Definition markerNullifiers : list jsstring :=
  List.map JS.lit
    ["compiled"; "success"; "finish"; "complete"; "succeed"; "done"; "end";
     "stop"; "exit"; "terminate"; "error"; "fail"]%string.

(** *** The closure of [run]: markers and capture state *)

Record Capture : Type := mkCapture {
  startMarker : jsstring;
  endMarker : jsstring;
  outputStarted : bool;
  outputBuffer : jsstring
}.

Definition set_outputStarted (v : bool) (c : Capture) : Capture :=
  mkCapture (startMarker c) (endMarker c) v (outputBuffer c).

Definition set_outputBuffer (v : jsstring) (c : Capture) : Capture :=
  mkCapture (startMarker c) (endMarker c) (outputStarted c) v.

(** The text [run] sends to the terminal (code unit 34 is the double quote). *)
Definition wrappedCommand (c : Capture) (command : jsstring) : jsstring :=
  JS.trim
    ([10] ++ JS.lit "echo " ++ [34] ++ startMarker c ++ [34] ++ JS.lit ";" ++ [10]
     ++ JS.lit "{ " ++ command ++ JS.lit "; } 2>&1;" ++ [10]
     ++ JS.lit "EXIT_CODE=$?;" ++ [10]
     ++ JS.lit "echo " ++ [34] ++ endMarker c ++ [34] ++ JS.lit ";" ++ [10]
     ++ JS.lit "exit $EXIT_CODE" ++ [10]).

(** [run(terminal, command)] up to the subscription: the closure state the
    data handler starts from. [t1] and [t2] are the two readings of
    [Date.now()]. *)
Definition run (t1 t2 : Z) : Capture :=
  {| startMarker := JS.lit "START_CMD_" ++ JS.of_Z t1;
     endMarker := JS.lit "END_CMD_" ++ JS.of_Z t2;
     outputStarted := false;
     outputBuffer := [] |}.

Section Host.

(** Functions of the host that the source calls and does not define: the
    [strip-ansi] package and [String.prototype.toLowerCase]. *)
Variable stripAnsi : jsstring -> jsstring.
Variable toLowerCase : jsstring -> jsstring.

Definition isCompiling (data : jsstring) : bool :=
  existsb (fun marker => JS.includes (toLowerCase data) (toLowerCase marker))
    compilingMarkers
  && negb
       (existsb (fun nullifier => JS.includes (toLowerCase data) (toLowerCase nullifier))
          markerNullifiers).

(** [processOutput(data)], at clock reading [now]. *)
Definition processOutput (now : Z) (data : jsstring) : Eff unit :=
  if negb (JS.truthy (JS.trim data)) then mret tt
  else
    let sanitizedOutput := sanitizeOutput data in
    when (JS.truthy sanitizedOutput)
      (modify (fun p => set_fullOutput (fullOutput p ++ sanitizedOutput ++ [10]) p) ;;
       listening ← gets isListening;
       when listening (emit (Line sanitizedOutput))) ;;
    updateHotState now (isCompiling data).

(** The handler [run] subscribes with [terminal.onDidWriteData], applied to
    one chunk that arrives at clock reading [now] (the lines of one chunk
    are processed within the same reading). It returns the closure state,
    or [None] once it has disposed of its subscription: the closure is
    never entered again. *)
Definition outputHandler (now : Z) (data : jsstring) (c : Capture) : Eff (option Capture) :=
  let sanitizedData := stripAnsi data in
  if JS.includes sanitizedData (startMarker c) then
    mret (Some (set_outputStarted true c))
  else if JS.includes sanitizedData (endMarker c) then
    when (JS.truthy (outputBuffer c)) (processOutput now (outputBuffer c)) ;;
    emit Completed ;;
    emit Continue ;;
    mret None
  else if outputStarted c then
    let buf := outputBuffer c ++ sanitizedData in
    let lines := JS.split_nl buf in
    if (1 <? length lines)%nat then
      forEach (removelast lines) (processOutput now) ;;
      mret (Some (set_outputBuffer (List.last lines []) c))
    else mret (Some (set_outputBuffer buf c))
  else mret (Some c).

(** A process with its data subscription, fed a sequence of chunks (each
    with the clock reading at its arrival). A disposed handler sees nothing. *)
Definition feed1 (st : option Capture * TerminalProcess) (chunk : Z * jsstring)
  : option Capture * TerminalProcess * list emission :=
  match fst st with
  | None => (None, snd st, [])
  | Some c => outputHandler (fst chunk) (snd chunk) c (snd st)
  end.

Fixpoint feed (st : option Capture * TerminalProcess) (chunks : list (Z * jsstring))
  : option Capture * TerminalProcess * list emission :=
  match chunks with
  | [] => (fst st, snd st, [])
  | ch :: rest =>
      let r := feed1 st ch in
      let r' := feed (value_of r, state_of r) rest in
      (value_of r', state_of r', log_of r ++ log_of r')
  end.

(** ** TerminalManager and its environment *)

(** A [TerminalInfo] of the registry. The [vscode.Terminal] it holds is
    identified with its [id]: chunks are delivered per terminal id. *)
Record TerminalInfo : Type := mkTerminalInfo {
  info_id : N;
  busy : bool;
  lastCommand : jsstring
}.

Definition set_busy (v : bool) (t : TerminalInfo) : TerminalInfo :=
  mkTerminalInfo (info_id t) v (lastCommand t).

Definition set_lastCommand (v : jsstring) (t : TerminalInfo) : TerminalInfo :=
  mkTerminalInfo (info_id t) (busy t) v.

(** The promise [runCommand] creates: settled at most once. *)
Inductive promise : Type :=
| Pending
| Fulfilled
| Rejected (error : jsstring).

Definition resolve (q : promise) : promise :=
  match q with Pending => Fulfilled | _ => q end.

Definition reject (error : jsstring) (q : promise) : promise :=
  match q with Pending => Rejected error | _ => q end.

(** Everything one call of [runCommand] creates: the process, the closure
    of its data handler ([None] once disposed), the promise merged into
    the returned handle, and the pending timer ([Some due] until it fires
    or [cleanup] clears it). [exec_terminal] is the [terminalInfo] the
    closures hold, by id. *)
Record Execution : Type := mkExecution {
  exec_terminal : N;
  exec_command : jsstring;
  exec_process : TerminalProcess;
  exec_subscription : option Capture;
  exec_promise : promise;
  exec_cleanupTimeout : option Z
}.

Definition set_process (v : TerminalProcess) (x : Execution) : Execution :=
  mkExecution (exec_terminal x) (exec_command x) v (exec_subscription x)
    (exec_promise x) (exec_cleanupTimeout x).

Definition set_subscription (v : option Capture) (x : Execution) : Execution :=
  mkExecution (exec_terminal x) (exec_command x) (exec_process x) v
    (exec_promise x) (exec_cleanupTimeout x).

(** [cleanup(); resolve()] and [cleanup(); reject(error)]: the timer is
    cleared and the promise settled, if it is still pending. *)
Definition settle (f : promise -> promise) (x : Execution) : Execution :=
  mkExecution (exec_terminal x) (exec_command x) (exec_process x)
    (exec_subscription x) (f (exec_promise x)) None.

Definition set_cleanupTimeout (v : option Z) (x : Execution) : Execution :=
  mkExecution (exec_terminal x) (exec_command x) (exec_process x)
    (exec_subscription x) (exec_promise x) v.

(** The fields of the [TerminalManager] class. [processes] holds
    references to process objects: indices into the heap of executions.
    [terminalIds] is a [Set], kept in insertion order. *)
Record TerminalManager : Type := mkManager {
  disposables : nat;
  processes : gmap N nat;
  terminalIds : list N
}.

(** The manager, the registry of [TerminalInfo] objects (by id) and every
    execution created so far, oldest first. *)
Record World : Type := mkWorld {
  manager : TerminalManager;
  registry : gmap N TerminalInfo;
  heap : list Execution
}.

(** What a callback does when an event reaches it. *)
Definition run_callback (e : event) (st : Execution * gmap N TerminalInfo) (f : listener)
  : Execution * gmap N TerminalInfo :=
  match f with
  | SetIdle tid => (fst st, alter (set_busy false) tid (snd st))
  | ResolvePromise => (settle resolve (fst st), snd st)
  | RejectPromise =>
      (settle (reject match e with Error m => m | _ => [] end) (fst st), snd st)
  | Subscriber _ => st
  end.

Definition run_emission (st : Execution * gmap N TerminalInfo) (m : emission)
  : Execution * gmap N TerminalInfo :=
  fold_left (run_callback (emitted m)) (called m) st.

Definition run_emissions (l : list emission) (st : Execution * gmap N TerminalInfo)
  : Execution * gmap N TerminalInfo :=
  fold_left run_emission l st.

(** One execution receives a chunk written by terminal [tid]. *)
Definition receive (tid : N) (now : Z) (data : jsstring)
  (x : Execution) (reg : gmap N TerminalInfo) : Execution * gmap N TerminalInfo :=
  if exec_terminal x =? tid then
    match exec_subscription x with
    | Some c =>
        let r := outputHandler now data c (exec_process x) in
        run_emissions (log_of r)
          (set_process (state_of r) (set_subscription (value_of r) x), reg)
    | None => (x, reg)
    end
  else (x, reg).

(** The chunk reaches every handler subscribed on the terminal, in
    subscription order. *)
Fixpoint deliver_heap (tid : N) (now : Z) (data : jsstring)
  (h : list Execution) (reg : gmap N TerminalInfo) : list Execution * gmap N TerminalInfo :=
  match h with
  | [] => ([], reg)
  | x :: rest =>
      let r := receive tid now data x reg in
      let r' := deliver_heap tid now data rest (snd r) in
      (fst r :: fst r', snd r')
  end.

Definition deliver (tid : N) (now : Z) (data : jsstring) (w : World) : World :=
  let r := deliver_heap tid now data (heap w) (registry w) in
  mkWorld (manager w) (snd r) (fst r).

(** The timer of execution [i] comes due: the callback of [setTimeout]. *)
Definition timeoutError (command : jsstring) : jsstring :=
  JS.lit "Command execution timeout: " ++ command.

Definition fireTimeout (i : nat) (now : Z) (w : World) : World :=
  match heap w !! i with
  | Some x =>
      match exec_cleanupTimeout x with
      | Some due =>
          if (due <=? now)%Z then
            let r := emit (Error (timeoutError (exec_command x))) (exec_process x) in
            let st := run_emissions (log_of r)
                        (set_process (state_of r) (set_cleanupTimeout None x), registry w) in
            mkWorld (manager w) (snd st) (<[i := fst st]> (heap w))
          else w
      | None => w
      end
  | None => w
  end.

(** [runCommand(terminalInfo, command)]; the handle it returns is the
    index of the new execution, [length (heap w)]. [now] is the clock when
    the timer is set, [t1] and [t2] the readings inside [run]. *)
Definition runCommand (tid : N) (command : jsstring) (now t1 t2 : Z) (w : World) : World :=
  let reg := alter (fun t => set_lastCommand command (set_busy true t)) tid (registry w) in
  let handle := length (heap w) in
  let terminalProcess :=
    state_of
      ((addListener on_completed true (SetIdle tid) ;;
        addListener on_continue true ResolvePromise ;;
        addListener on_error true RejectPromise ;;
        modify (set_waitForShellIntegration false)) newTerminalProcess) in
  mkWorld
    (mkManager (disposables (manager w))
       (<[tid := handle]> (processes (manager w)))
       (terminalIds (manager w)))
    reg
    (heap w ++
       [mkExecution tid command terminalProcess (Some (run t1 t2)) Pending
          (Some (now + 30000)%Z)]).

Definition disposeAll (w : World) : World :=
  mkWorld (mkManager 0 ∅ []) (registry w) (heap w).

(** [this.terminalIds.add(id)], as [getOrCreateTerminal] does with the
    terminal it found or created. *)
Definition addTerminalId (tid : N) (w : World) : World :=
  mkWorld
    (mkManager (disposables (manager w)) (processes (manager w))
       (if existsb (N.eqb tid) (terminalIds (manager w)) then terminalIds (manager w)
        else terminalIds (manager w) ++ [tid]))
    (registry w) (heap w).

Definition getTerminals (b : bool) (w : World) : list (N * jsstring) :=
  List.map (fun t => (info_id t, lastCommand t))
    (List.filter (fun t => Bool.eqb (busy t) b)
       (omap (fun tid => registry w !! tid) (terminalIds (manager w)))).

Definition managerGetUnretrievedOutput (tid : N) (w : World) : jsstring * World :=
  if negb (existsb (N.eqb tid) (terminalIds (manager w))) then ([], w)
  else
    match processes (manager w) !! tid with
    | Some i =>
        match heap w !! i with
        | Some x =>
            let r := getUnretrievedOutput (exec_process x) in
            (value_of r,
             mkWorld (manager w) (registry w) (<[i := set_process (state_of r) x]> (heap w)))
        | None => ([], w)
        end
    | None => ([], w)
    end.

Definition isProcessHot (tid : N) (now : Z) (w : World) : bool :=
  match processes (manager w) !! tid with
  | Some i =>
      match heap w !! i with
      | Some x => isHot now (exec_process x)
      | None => false
      end
  | None => false
  end.

(** What reaches a running system from outside: a chunk written by a
    terminal, or a timer coming due. *)
Inductive input : Type :=
| Data (tid : N) (now : Z) (data : jsstring)
| Timer (handle : nat) (now : Z).

Definition step (w : World) (i : input) : World :=
  match i with
  | Data tid now data => deliver tid now data w
  | Timer handle now => fireTimeout handle now w
  end.

End Host.

(** The host on plain text: [strip-ansi] leaves text without escape
    sequences as it is, and [toLowerCase] maps the ASCII capitals. *)
Definition plainStripAnsi (s : jsstring) : jsstring := s.
Definition asciiToLowerCase (s : jsstring) : jsstring :=
  List.map (fun c => if (65 <=? c) && (c <=? 90) then c + 32 else c) s.

(** ** extractVsCodeCommandOutput *)

(** The two literal parts of
    [COMMAND_START_SEQUENCE = /\]633;C([\s\S]*?)\]633;D/]. *)
Definition commandStart : jsstring := JS.lit "]633;C".
Definition commandEnd : jsstring := JS.lit "]633;D".

(** [([\s\S]*?)stop] at the head of [s]: the shortest run of code units
    that is followed by [stop]. *)
Fixpoint lazyUntil (stop s : jsstring) : option jsstring :=
  if JS.startsWith s stop then Some []
  else match s with
       | [] => None
       | c :: r => cons c <$> lazyUntil stop r
       end.

(** [s.match(COMMAND_START_SEQUENCE)?.[1]]: the capture group of the
    leftmost match, [None] when the expression does not match. *)
Fixpoint match_COMMAND_START_SEQUENCE (s : jsstring) : option jsstring :=
  match (if JS.startsWith s commandStart
         then lazyUntil commandEnd (drop (length commandStart) s) else None) with
  | Some group => Some group
  | None =>
      match s with
      | [] => None
      | _ :: r => match_COMMAND_START_SEQUENCE r
      end
  end.

Definition extractVsCodeCommandOutput (data : jsstring) : jsstring :=
  let output :=
    match match_COMMAND_START_SEQUENCE data with
    | Some group => if JS.truthy group then group else []
    | None => []
    end in
  JS.trim (sanitizeOutput output).

(** ** getOrCreateTerminal *)

Section Registry.

(** What [getOrCreateTerminal] calls and these files do not define: the
    registry's [getAllTerminals] and [createTerminal] (each may change
    the registry), the path of the working directory a terminal reports
    through its shell integration, [vscode.Uri.file(cwd).fsPath] and
    [arePathsEqual]. *)
Variable getAllTerminals :
  gmap N TerminalInfo -> list TerminalInfo * gmap N TerminalInfo.
Variable createTerminal :
  jsstring -> gmap N TerminalInfo -> TerminalInfo * gmap N TerminalInfo.
Variable shellIntegrationCwd : TerminalInfo -> option jsstring.
Variable fsPath : jsstring -> jsstring.
Variable arePathsEqual : jsstring -> jsstring -> bool.

(** The predicate [getOrCreateTerminal] passes to [find]. *)
Definition available (cwd : jsstring) (t : TerminalInfo) : bool :=
  if busy t then false
  else match shellIntegrationCwd t with
       | None => false
       | Some terminalCwd => arePathsEqual (fsPath cwd) terminalCwd
       end.

Definition getOrCreateTerminal (cwd : jsstring) (w : World) : TerminalInfo * World :=
  let all := getAllTerminals (registry w) in
  match List.find (available cwd) (fst all) with
  | Some availableTerminal =>
      (availableTerminal,
       addTerminalId (info_id availableTerminal) (mkWorld (manager w) (snd all) (heap w)))
  | None =>
      let created := createTerminal cwd (snd all) in
      (fst created,
       addTerminalId (info_id (fst created)) (mkWorld (manager w) (snd created) (heap w)))
  end.

End Registry.

(** ** utils/sanitize.ts *)

Module Sanitize.

(** The class of [/[\x00-\x09\x0B-\x1F]/g]. *)
Definition controlChar (c : N) : bool := (c <=? 9) || ((11 <=? c) && (c <=? 31)).

Definition sanitizeUserInput (text : jsstring) : jsstring :=
  JS.trim
    (List.filter (fun c => negb (controlChar c)) (Regexes.replace_LINE_ENDINGS text)).

(** [s.replace(re, "")] for a global expression that never matches the
    empty string: [matchAt] gives what follows a match at the head of its
    argument. The scan restarts after each match, and one code unit
    further where there is none. A string of [n] code units needs no more
    than [n] rounds. *)
Fixpoint removeMatches (matchAt : jsstring -> option jsstring) (rounds : nat)
  (s : jsstring) : jsstring :=
  match rounds with
  | O => s
  | S n =>
      match s with
      | [] => []
      | c :: r =>
          match matchAt s with
          | Some rest => removeMatches matchAt n rest
          | None => c :: removeMatches matchAt n r
          end
      end
  end.

Definition removeAll (matchAt : jsstring -> option jsstring) (s : jsstring) : jsstring :=
  removeMatches matchAt (length s) s.

(** [/\x1B\[[0-9;]*[a-zA-Z]/]: ESC, [[], parameters, one letter. A
    parameter is no letter, so the greedy run of parameters is never
    given back. *)
Definition parameterChar (c : N) : bool := ((48 <=? c) && (c <=? 57)) || (c =? 59).
Definition letter (c : N) : bool :=
  ((97 <=? c) && (c <=? 122)) || ((65 <=? c) && (c <=? 90)).

Fixpoint afterParameters (s : jsstring) : option jsstring :=
  match s with
  | [] => None
  | c :: r =>
      if parameterChar c then afterParameters r
      else if letter c then Some r else None
  end.

Definition matchCsi (s : jsstring) : option jsstring :=
  match s with
  | 27 :: 91 :: r => afterParameters r
  | _ => None
  end.

(** [/\u001b\[.*?[@-~]/]: ESC, [[], then the shortest run of code units
    other than line terminators that ends before a code unit in
    [0x40-0x7E]. *)
Definition finalChar (c : N) : bool := (64 <=? c) && (c <=? 126).
Definition lineTerminator (c : N) : bool :=
  (c =? 10) || (c =? 13) || (c =? 8232) || (c =? 8233).

Fixpoint afterLazyDots (s : jsstring) : option jsstring :=
  match s with
  | [] => None
  | c :: r =>
      if finalChar c then Some r
      else if lineTerminator c then None else afterLazyDots r
  end.

Definition matchEscape (s : jsstring) : option jsstring :=
  match s with
  | 27 :: 91 :: r => afterLazyDots r
  | _ => None
  end.

(** [/\r/g] replaced by ["\n"]. *)
Definition replace_CR (s : jsstring) : jsstring :=
  List.map (fun c => if c =? 13 then 10 else c) s.

Definition sanitizeTerminalOutput (text : jsstring) : jsstring :=
  JS.trim
    (removeAll matchEscape
       (replace_CR
          (Regexes.replace_LINE_ENDINGS
             (removeAll matchCsi text)))).

End Sanitize.

(** * Vocabulary of the properties *)

(** The code units [sanitizeOutput] lets through: the newline and the
    printable ASCII range. *)
Definition newlineOrPrintableAscii (c : N) : bool :=
  (c =? 10) || ((32 <=? c) && (c <=? 126)).

(** The text [processOutput] appends to [fullOutput] for a line. *)
Definition appendedFor (data : jsstring) : jsstring :=
  if JS.truthy (sanitizeOutput data) then sanitizeOutput data ++ [10] else [].

(** Two processes that differ in their activity clock only. *)
Definition eraseHot (p : TerminalProcess) : TerminalProcess := set_hot 0 0 p.
Definition sameOutput (p q : TerminalProcess) : Prop := eraseHot p = eraseHot q.

(** Lines processed one after the other, each at its own clock reading. *)
Definition processLines (toLowerCase : jsstring -> jsstring) (l : list (Z * jsstring))
  : Eff unit :=
  forEach l (fun x => processOutput toLowerCase (fst x) (snd x)).

(** [q] holds the output of [p] and possibly more, with the cursor where
    it was. *)
Definition extends (p q : TerminalProcess) : Prop :=
  (exists new, fullOutput q = fullOutput p ++ new)
  /\ lastRetrievedIndex q = lastRetrievedIndex p.

Definition completeLines (s : jsstring) : list jsstring := removelast (JS.split_nl s).
Definition tailFragment (s : jsstring) : jsstring := List.last (JS.split_nl s) [].

Definition consHead (c : N) (l : list jsstring) : list jsstring :=
  match l with
  | h :: t => (c :: h) :: t
  | [] => [[c]]
  end.

Definition noNewline (s : jsstring) : bool := forallb (fun c => negb (c =? 10)) s.

(** A chunk that shows neither marker once stripped. *)
Definition markerFree (stripAnsi : jsstring -> jsstring) (c : Capture)
  (chunk : Z * jsstring) : bool :=
  negb (JS.includes (stripAnsi (snd chunk)) (startMarker c))
  && negb (JS.includes (stripAnsi (snd chunk)) (endMarker c)).

(** The text a sequence of chunks carries, as the handler sees it. *)
Definition strippedText (stripAnsi : jsstring -> jsstring)
  (chunks : list (Z * jsstring)) : jsstring :=
  List.concat (List.map (fun ch => stripAnsi (snd ch)) chunks).

(** Two computations that agree, on processes with the same output, on
    their value, on the events they emit and on the output they leave. *)
Definition agree {A : Type} (m1 m2 : Eff A) : Prop :=
  forall p q, sameOutput p q ->
    value_of (m1 p) = value_of (m2 q)
    /\ sameOutput (state_of (m1 p)) (state_of (m2 q))
    /\ log_of (m1 p) = log_of (m2 q).

Definition busyOf (w : World) (tid : N) : option bool := busy <$> registry w !! tid.
Definition promiseOf (w : World) (handle : nat) : option promise :=
  exec_promise <$> heap w !! handle.

Definition present (tid : N) (reg : gmap N TerminalInfo) : Prop := is_Some (reg !! tid).
Definition idleAt (tid : N) (reg : gmap N TerminalInfo) : Prop :=
  busy <$> reg !! tid = Some false.

(** The listeners [runCommand] registers. *)
Definition onCompleted (tid : N) : registration :=
  Registration on_completed true (SetIdle tid).
Definition onContinue : registration := Registration on_continue true ResolvePromise.
Definition onError : registration := Registration on_error true RejectPromise.

(** An execution on terminal [tid] that is still subscribed, still has the
    [completed] listener of [runCommand], and for which the chunk shows
    the end marker and not the start marker. *)
Definition completesOn (stripAnsi : jsstring -> jsstring) (tid : N) (data : jsstring)
  (x : Execution) : Prop :=
  exec_terminal x = tid
  /\ exists c, exec_subscription x = Some c
       /\ JS.includes (stripAnsi data) (startMarker c) = false
       /\ JS.includes (stripAnsi data) (endMarker c) = true
       /\ In (onCompleted tid) (listeners (exec_process x)).

(** The process and the execution [runCommand] has just created. *)
Definition submittedProcess (tid : N) : TerminalProcess :=
  set_listeners [onCompleted tid; onContinue; onError]
    (set_waitForShellIntegration false newTerminalProcess).

Definition submitted (tid : N) (command : jsstring) (now t1 t2 : Z) : Execution :=
  mkExecution tid command (submittedProcess tid) (Some (run t1 t2)) Pending
    (Some (now + 30000)%Z).

(** What a callback does to the execution, and to the registry. *)
Definition execEffect (e : event) (x : Execution) (f : listener) : Execution :=
  match f with
  | ResolvePromise => settle resolve x
  | RejectPromise => settle (reject match e with Error m => m | _ => [] end) x
  | SetIdle _ | Subscriber _ => x
  end.
Definition registryEffect (reg : gmap N TerminalInfo) (f : listener) : gmap N TerminalInfo :=
  match f with
  | SetIdle tid => alter (set_busy false) tid reg
  | _ => reg
  end.

(** An execution as the [runCommand] call with these arguments set it up
    and as chunks and timers may have changed it since: only listeners of
    [runCommand] are registered; while the promise is pending the timer is
    set and the settling listeners are registered; while the data handler
    is subscribed it scans for the markers of this call and the
    [completed] listener is registered. *)
Definition tracks (tid : N) (command : jsstring) (now t1 t2 : Z) (x : Execution) : Prop :=
  exec_terminal x = tid
  /\ exec_command x = command
  /\ incl (listeners (exec_process x)) [onCompleted tid; onContinue; onError]
  /\ (exec_promise x = Pending ->
      exec_cleanupTimeout x = Some (now + 30000)%Z
      /\ In onContinue (listeners (exec_process x))
      /\ In onError (listeners (exec_process x)))
  /\ (forall c, exec_subscription x = Some c ->
      startMarker c = startMarker (run t1 t2)
      /\ endMarker c = endMarker (run t1 t2)
      /\ In (onCompleted tid) (listeners (exec_process x))).

(** The data handler of execution [handle] is still subscribed. *)
Definition subscribed (w : World) (handle : nat) : bool :=
  match heap w !! handle with
  | Some x => match exec_subscription x with Some _ => true | None => false end
  | None => false
  end.

(** No listener on [line]. *)
Definition quiet (l : list registration) : Prop :=
  Forall (fun r => reg_event r <> on_line) l.

Definition calledNobody (m : emission) : Prop := called m = [].

(** A line as [sanitizeLines] leaves it: not empty, with no white space
    at either end and no code unit of NON_ASCII_CONTROL. *)
Definition sanitizedLine (l : jsstring) : Prop :=
  l <> [] /\ JS.trim l = l
  /\ Forall (fun c => Regexes.NON_ASCII_CONTROL c = false) l.

Definition notCR (c : N) : bool := negb (c =? 13).

(** The text [fullOutput] gains for recorded lines: each with its newline. *)
Definition recordedText (lines : list jsstring) : jsstring :=
  List.concat (List.map (fun l => l ++ [10]) lines).

(** The line [processOutput] records for a piece of data, if any. *)
Definition recordedFor (data : jsstring) : list jsstring :=
  if JS.truthy (sanitizeOutput data) then [sanitizeOutput data] else [].

(** A computation that records the lines [rec] whatever process it runs
    on: it appends them to [fullOutput], emits them as [line] events if
    the process is listening, then emits the events [final], returns [v]
    and leaves [buffer], [isListening] and the cursor alone. *)
Definition records {A : Type} (m : Eff A) (rec : list jsstring) (final : list event)
  (v : A) : Prop :=
  forall p,
    value_of (m p) = v
    /\ fullOutput (state_of (m p)) = fullOutput p ++ recordedText rec
    /\ List.map emitted (log_of (m p))
       = List.map Line (if isListening p then rec else []) ++ final
    /\ buffer (state_of (m p)) = buffer p
    /\ isListening (state_of (m p)) = isListening p
    /\ lastRetrievedIndex (state_of (m p)) = lastRetrievedIndex p.

(** The events a handler ends with: [completed] and [continue] when it
    disposes of its subscription. *)
Definition closing (before after : option Capture) : list event :=
  match before, after with
  | Some _, None => [Completed; Continue]
  | _, _ => []
  end.

(** The chunks a terminal writes one after the other. *)
Definition deliverAll (stripAnsi toLowerCase : jsstring -> jsstring) (tid : N)
  (chunks : list (Z * jsstring)) (w : World) : World :=
  fold_left (fun w ch => deliver stripAnsi toLowerCase tid (fst ch) (snd ch) w) chunks w.

(** Once the promise is settled the timer is gone. *)
Definition timerCleared (x : Execution) : Prop :=
  exec_promise x <> Pending -> exec_cleanupTimeout x = None.

(** What [getTerminals] reports of a session. *)
Definition label (t : TerminalInfo) : N * jsstring := (info_id t, lastCommand t).

(** An execution that holds no listener but those [runCommand] registered
    for its own terminal, and a world of such executions. *)
Definition managedExecution (x : Execution) : Prop :=
  incl (listeners (exec_process x)) [onCompleted (exec_terminal x); onContinue; onError].

Definition managed (w : World) : Prop := Forall managedExecution (heap w).

(** No execution of the heap on terminal [tid] has its data handler
    subscribed. *)
Definition unsubscribedOn (tid : N) (h : list Execution) : Prop :=
  Forall (fun x => exec_terminal x = tid -> exec_subscription x = None) h.

(** Execution [handle] is the only one on terminal [tid] whose data
    handler may be subscribed. *)
Definition aloneOn (tid : N) (handle : nat) (h : list Execution) : Prop :=
  forall i x, h !! i = Some x -> i <> handle ->
    exec_terminal x = tid -> exec_subscription x = None.

(** The session of terminal [tid] while execution [handle] is its only
    live one: it is busy exactly while the data handler of that execution
    is subscribed. *)
Definition busyWhileSubscribed (tid : N) (command : jsstring) (now t1 t2 : Z)
  (handle : nat) (w : World) : Prop :=
  managed w
  /\ aloneOn tid handle (heap w)
  /\ (exists x, heap w !! handle = Some x /\ tracks tid command now t1 t2 x)
  /\ busyOf w tid = Some (subscribed w handle).

(** A computation that registers no listener, and whose [emit] calls run
    registered callbacks only. *)
Definition narrows {A : Type} (m : Eff A) : Prop :=
  forall p,
    incl (listeners (state_of (m p))) (listeners p)
    /\ Forall (fun e => incl (called e) (List.map reg_callback (listeners p))) (log_of (m p)).

(** The text after the start marker in the template of [run]. *)
Definition wrappedTail (c : Capture) (command : jsstring) : jsstring :=
  [34] ++ JS.lit ";" ++ [10]
  ++ JS.lit "{ " ++ command ++ JS.lit "; } 2>&1;" ++ [10]
  ++ JS.lit "EXIT_CODE=$?;" ++ [10]
  ++ JS.lit "echo " ++ [34] ++ endMarker c ++ [34] ++ JS.lit ";" ++ [10]
  ++ JS.lit "exit $EXIT_CODE".

(** The code units of a decimal numeral: the digits and the minus sign. *)
Definition decimalChar (c : N) : bool := (c =? 45) || ((48 <=? c) && (c <=? 57)).

(** A matcher that consumes a non-empty prefix of its argument. *)
Definition consuming (m : jsstring -> option jsstring) : Prop :=
  forall s rest, m s = Some rest -> exists pre, s = pre ++ rest /\ pre <> [].

(** The cooldown [processOutput] sets for a piece of data. *)
Definition cooldownFor (toLowerCase : jsstring -> jsstring) (data : jsstring) : Z :=
  if isCompiling toLowerCase data
  then PROCESS_HOT_TIMEOUT_COMPILING else PROCESS_HOT_TIMEOUT_NORMAL.

(** Data that [processOutput] skips. *)
Definition blank (data : jsstring) : Prop := JS.trim data = [].

(** * Sample runs *)

Definition sampleInfo : TerminalInfo := mkTerminalInfo 1 false [].

Definition sampleWorld : World :=
  mkWorld (mkManager 0 ∅ [1]) {[ 1 := sampleInfo ]} [].

Definition sampleCommand : jsstring := JS.lit "sleep 60".

(** [runCommand] on terminal 1 at clock reading 1000: the markers are
    [START_CMD_1000] and [END_CMD_1000]. *)
Definition sampleSubmitted : World :=
  runCommand 1 sampleCommand 1000 1000 1000 sampleWorld.

Definition sampleCapture : Capture := run 1000 1000.

Definition sampleStartChunk : jsstring := JS.lit "START_CMD_1000" ++ [10].
Definition sampleEndChunk : jsstring := JS.lit "END_CMD_1000" ++ [10].
Definition sampleHello : jsstring := JS.lit "hello" ++ [10].

(** The same two lines of output in three chunks and in one. *)
Definition sampleCapturing : Capture := set_outputStarted true sampleCapture.
Definition sampleInThree : list (Z * jsstring) :=
  [(1001%Z, JS.lit "hel"); (1002%Z, JS.lit "lo" ++ [10] ++ JS.lit "wor");
   (1003%Z, JS.lit "ld" ++ [10])].
Definition sampleInOne : list (Z * jsstring) :=
  [(1005%Z, JS.lit "hello" ++ [10] ++ JS.lit "world" ++ [10])].

(** A capture in progress with the fragment ["par"] buffered: the start
    marker chunk, then a chunk without a newline. *)
Definition sampleMidLine : option Capture * TerminalProcess * list emission :=
  feed plainStripAnsi asciiToLowerCase (Some sampleCapture, newTerminalProcess)
    [(1001%Z, sampleStartChunk); (1002%Z, JS.lit "par")].

(** A prompt that ends without a newline, in two chunks. *)
Definition samplePrompt : list (Z * jsstring) :=
  [(1001%Z, JS.lit "Pass"); (1002%Z, JS.lit "word: ")].

(** Two lines of output, the second without its newline. *)
Definition sampleUnterminated : list (Z * jsstring) :=
  [(1002%Z, JS.lit "hello" ++ [10] ++ JS.lit "wor"); (1003%Z, JS.lit "ld")].

(** The chunks of terminal 1 for a whole command: the start marker line,
    the output, the end marker line. *)
Definition sampleRunning : World :=
  deliverAll plainStripAnsi asciiToLowerCase 1
    ((1001%Z, sampleStartChunk) :: sampleUnterminated) sampleSubmitted.


(** One chunk with two lines and a blank one. *)
Definition sampleBuild : jsstring :=
  JS.lit "Compiling main.c" ++ [10] ++ JS.lit "ok" ++ [10] ++ JS.lit "  " ++ [10].

(** * Properties *)

(** ** Strings *)

Ltac N_cases :=
  repeat match goal with
    | |- context [N.leb ?a ?b] => destruct (N.leb_spec a b)
    | |- context [N.eqb ?a ?b] => destruct (N.eqb_spec a b)
    | H : context [N.leb ?a ?b] |- _ => destruct (N.leb_spec a b)
    | H : context [N.eqb ?a ?b] |- _ => destruct (N.eqb_spec a b)
    end;
  simpl in *; try congruence; try lia.

Lemma trimEnd_nil_iff (s : jsstring) :
  JS.trimEnd s = [] <-> forallb JS.isSpace s = true.
Proof.
  induction s as [|c r IH]; simpl; [tauto|].
  destruct (JS.trimEnd r) as [|d r'] eqn:E.
  - destruct (JS.isSpace c); simpl; [tauto|]. split; discriminate.
  - split; [discriminate|]. intros H. apply andb_true_iff in H.
    destruct H as [_ H]. apply IH in H. discriminate.
Qed.

Lemma trimStart_all_space (s : jsstring) :
  forallb JS.isSpace s = true -> JS.trimStart s = [].
Proof.
  induction s as [|c r IH]; simpl; [reflexivity|].
  destruct (JS.isSpace c); simpl; [exact IH|discriminate].
Qed.

Lemma trimStart_space_back (s : jsstring) :
  forallb JS.isSpace (JS.trimStart s) = true -> forallb JS.isSpace s = true.
Proof.
  induction s as [|c r IH]; simpl; [reflexivity|].
  destruct (JS.isSpace c) eqn:E; simpl; [exact IH|].
  rewrite E. discriminate.
Qed.

Lemma trim_nil_iff (s : jsstring) :
  JS.trim s = [] <-> forallb JS.isSpace s = true.
Proof.
  unfold JS.trim. rewrite trimEnd_nil_iff. split.
  - apply trimStart_space_back.
  - intros H. rewrite (trimStart_all_space _ H). reflexivity.
Qed.

Lemma truthy_false_iff (s : jsstring) : JS.truthy s = false <-> s = [].
Proof. destruct s; simpl; split; congruence. Qed.

Lemma forallb_filter_keep {A : Type} (P f : A -> bool) (l : list A) :
  forallb P l = true -> forallb P (List.filter f l) = true.
Proof.
  induction l as [|a l IH]; simpl; [reflexivity|].
  intros H. apply andb_true_iff in H. destruct H as [Ha Hl].
  destruct (f a); simpl; [rewrite Ha|]; auto.
Qed.

Lemma replace_LINE_ENDINGS_cons2 (c d : N) (r : jsstring) :
  Regexes.replace_LINE_ENDINGS (c :: d :: r)
  = if (c =? 13) && (d =? 10) then 10 :: Regexes.replace_LINE_ENDINGS r
    else c :: Regexes.replace_LINE_ENDINGS (d :: r).
Proof. reflexivity. Qed.

Lemma replace_LINE_ENDINGS_space (n : nat) (s : jsstring) :
  (length s <= n)%nat ->
  forallb JS.isSpace s = true ->
  forallb JS.isSpace (Regexes.replace_LINE_ENDINGS s) = true.
Proof.
  revert s. induction n as [|n IH]; intros s Hn Hs.
  - destruct s; [reflexivity|simpl in Hn; lia].
  - destruct s as [|c [|d r]]; [reflexivity|exact Hs|].
    rewrite replace_LINE_ENDINGS_cons2.
    cbn [forallb length] in Hs, Hn.
    apply andb_true_iff in Hs. destruct Hs as [Hc Hs].
    destruct ((c =? 13) && (d =? 10)).
    + apply andb_true_iff in Hs. destruct Hs as [_ Hr].
      cbn [forallb]. rewrite (IH r); [reflexivity|lia|exact Hr].
    + cbn [forallb]. rewrite Hc. apply IH; [simpl; lia|exact Hs].
Qed.

(** A blank line stays blank: what [sanitizeOutput] keeps of white space
    is white space. *)
Lemma sanitizeOutput_blank (s : jsstring) :
  JS.trim s = [] -> sanitizeOutput s = [].
Proof.
  rewrite trim_nil_iff. intros H. unfold sanitizeOutput.
  apply trim_nil_iff.
  unfold Regexes.remove_NON_ASCII_CONTROL, Regexes.remove_STANDALONE_CR.
  do 2 apply forallb_filter_keep.
  apply (replace_LINE_ENDINGS_space (length s)); [lia|exact H].
Qed.

(** ** sanitizeOutput *)

Lemma kept_code_unit (c : N) :
  c < 65536 ->
  negb (c =? 13) && negb (Regexes.NON_ASCII_CONTROL c) = newlineOrPrintableAscii c.
Proof.
  intros H. unfold Regexes.NON_ASCII_CONTROL, newlineOrPrintableAscii.
  N_cases.
Qed.

Lemma filter_filter_bool {A : Type} (f g : A -> bool) (l : list A) :
  List.filter g (List.filter f l) = List.filter (fun a => f a && g a) l.
Proof.
  induction l as [|a l IH]; simpl; [reflexivity|].
  destruct (f a); simpl; [destruct (g a)|]; rewrite IH; reflexivity.
Qed.

Lemma filter_ext_Forall {A : Type} (P : A -> Prop) (f g : A -> bool) (l : list A) :
  (forall a, P a -> f a = g a) -> Forall P l -> List.filter f l = List.filter g l.
Proof.
  intros Hfg H. induction H as [|a l Ha Hl IH]; simpl; [reflexivity|].
  rewrite (Hfg a Ha), IH. reflexivity.
Qed.

Lemma filter_cons_true {A : Type} (f : A -> bool) (a : A) (l : list A) :
  f a = true -> List.filter f (a :: l) = a :: List.filter f l.
Proof. intros H. simpl. now rewrite H. Qed.

Lemma filter_cons_false {A : Type} (f : A -> bool) (a : A) (l : list A) :
  f a = false -> List.filter f (a :: l) = List.filter f l.
Proof. intros H. simpl. now rewrite H. Qed.

(** After the two carriage-return passes no [\r] is left, and nothing
    else has gone: together they delete the carriage returns. *)
Lemma carriage_returns_dropped (n : nat) (s : jsstring) :
  (length s <= n)%nat ->
  Regexes.remove_STANDALONE_CR (Regexes.replace_LINE_ENDINGS s)
  = List.filter (fun c => negb (c =? 13)) s.
Proof.
  unfold Regexes.remove_STANDALONE_CR.
  revert s. induction n as [|n IH]; intros s Hn.
  - destruct s; [reflexivity|simpl in Hn; lia].
  - destruct s as [|c [|d r]]; [reflexivity|reflexivity|].
    rewrite replace_LINE_ENDINGS_cons2. cbn [length] in Hn.
    assert (IHr := IH r ltac:(lia)).
    assert (IHdr := IH (d :: r) ltac:(simpl; lia)).
    destruct (N.eqb_spec c 13) as [->|Hc]; cbn [andb].
    + rewrite (filter_cons_false _ 13 (d :: r)) by reflexivity.
      destruct (N.eqb_spec d 10) as [->|Hd].
      * rewrite !(filter_cons_true _ 10) by reflexivity. now rewrite IHr.
      * rewrite (filter_cons_false _ 13) by reflexivity. exact IHdr.
    + assert (Hk : negb (c =? 13) = true)
        by (destruct (N.eqb_spec c 13); [contradiction|reflexivity]).
      rewrite !(filter_cons_true _ c) by exact Hk. now rewrite IHdr.
Qed.

(** What [trim] removes and what it leaves: a white-space prefix and a
    white-space suffix are cut off, and the rest neither starts nor ends
    with white space. *)
Lemma trimStart_spec (s : jsstring) :
  exists pre, s = pre ++ JS.trimStart s /\ forallb JS.isSpace pre = true.
Proof.
  induction s as [|c r (pre & Hr & Hpre)]; [exists []; auto|].
  simpl. destruct (JS.isSpace c) eqn:E.
  - exists (c :: pre). simpl. rewrite E, Hpre. split; [congruence|reflexivity].
  - exists []. auto.
Qed.

Lemma trimStart_head (s : jsstring) (c : N) (r : jsstring) :
  JS.trimStart s = c :: r -> JS.isSpace c = false.
Proof.
  induction s as [|d t IH]; [discriminate|]. simpl.
  destruct (JS.isSpace d) eqn:E; [exact IH|]. intros [= <- _]. exact E.
Qed.

Lemma trimEnd_spec (s : jsstring) :
  exists post, s = JS.trimEnd s ++ post /\ forallb JS.isSpace post = true.
Proof.
  induction s as [|c r (post & Hr & Hpost)]; [exists []; auto|].
  simpl. destruct (JS.trimEnd r) as [|d r'] eqn:E.
  - destruct (JS.isSpace c) eqn:Ec.
    + exists (c :: post). simpl in *. rewrite Ec, Hpost. split; [congruence|reflexivity].
    + exists post. simpl in *. split; [congruence|exact Hpost].
  - exists post. split; [|exact Hpost]. rewrite Hr at 1. reflexivity.
Qed.

Lemma trimEnd_last (s r : jsstring) (c : N) :
  JS.trimEnd s = r ++ [c] -> JS.isSpace c = false.
Proof.
  revert r. induction s as [|d t IH]; intros r.
  - destruct r; discriminate.
  - simpl. destruct (JS.trimEnd t) as [|e t'] eqn:E.
    + destruct (JS.isSpace d) eqn:Ed; [destruct r; discriminate|].
      destruct r as [|x [|y r]]; try discriminate. intros [= <-]. exact Ed.
    + destruct r as [|x r]; [discriminate|]. intros [= _ Hr]. apply (IH r), Hr.
Qed.

Lemma trimEnd_head (s : jsstring) (c : N) (r : jsstring) :
  JS.trimEnd s = c :: r -> exists t, s = c :: t.
Proof.
  destruct s as [|d t]; [discriminate|]. simpl.
  destruct (JS.trimEnd t); [destruct (JS.isSpace d); [discriminate|]|];
    intros [= <- _]; eauto.
Qed.

Lemma trim_spec (s : jsstring) :
  (exists pre post,
     s = pre ++ JS.trim s ++ post
     /\ forallb JS.isSpace pre = true /\ forallb JS.isSpace post = true)
  /\ (forall c r, JS.trim s = c :: r -> JS.isSpace c = false)
  /\ (forall r c, JS.trim s = r ++ [c] -> JS.isSpace c = false).
Proof.
  unfold JS.trim. split; [|split].
  - destruct (trimStart_spec s) as (pre & Hs & Hpre).
    destruct (trimEnd_spec (JS.trimStart s)) as (post & Ht & Hpost).
    exists pre, post. rewrite <- Ht. auto.
  - intros c r H. destruct (trimEnd_head _ _ _ H) as [t Ht].
    apply (trimStart_head s c t Ht).
  - intros r c H. apply (trimEnd_last _ _ _ H).
Qed.

(** C5 (amended). For every string of 16-bit code units, [sanitizeOutput]
    turns [\r\n] into [\n] and drops every other [\r], removes every code
    unit outside the printable ASCII range except the newline (so every
    non-ASCII character goes, printable or not), and trims leading and
    trailing white space: the result is the subsequence of newlines and
    printable ASCII code units of the input, less a white-space prefix and
    a white-space suffix, and it neither starts nor ends with white space. *)
Theorem sanitizeOutput_keeps_printable_ascii_only (s : jsstring) :
  JS.wf s ->
  sanitizeOutput s = JS.trim (List.filter newlineOrPrintableAscii s)
  /\ (exists pre post,
        List.filter newlineOrPrintableAscii s = pre ++ sanitizeOutput s ++ post
        /\ forallb JS.isSpace pre = true /\ forallb JS.isSpace post = true)
  /\ (forall c r, sanitizeOutput s = c :: r -> JS.isSpace c = false)
  /\ (forall r c, sanitizeOutput s = r ++ [c] -> JS.isSpace c = false).
Proof.
  intros Hwf.
  assert (H : sanitizeOutput s = JS.trim (List.filter newlineOrPrintableAscii s)).
  { unfold sanitizeOutput. f_equal.
    rewrite (carriage_returns_dropped (length s)) by lia.
    unfold Regexes.remove_NON_ASCII_CONTROL. rewrite filter_filter_bool.
    apply (filter_ext_Forall (fun c => c < 65536)); [|exact Hwf].
    intros c Hc. apply kept_code_unit, Hc. }
  split; [exact H|]. rewrite H. apply trim_spec.
Qed.

(** ** TerminalProcess: what one method call changes *)

Ltac eff_unfold :=
  unfold when, mbind, Eff_bind, gets, modify, mret, Eff_ret,
    state_of, value_of, log_of in *.

Section ProcessFacts.

Variable toLowerCase : jsstring -> jsstring.

Lemma processOutput_fullOutput (now : Z) (data : jsstring) (p : TerminalProcess) :
  fullOutput (state_of (processOutput toLowerCase now data p))
  = fullOutput p ++ appendedFor data.
Proof.
  unfold processOutput, appendedFor, updateHotState, emit. eff_unfold.
  destruct (JS.truthy (JS.trim data)) eqn:Et; simpl.
  - destruct (JS.truthy (sanitizeOutput data)); simpl.
    + destruct (isListening p); reflexivity.
    + now rewrite app_nil_r.
  - apply truthy_false_iff, sanitizeOutput_blank in Et. rewrite Et. simpl.
    now rewrite app_nil_r.
Qed.

Lemma processOutput_events (now : Z) (data : jsstring) (p : TerminalProcess) :
  List.map emitted (log_of (processOutput toLowerCase now data p))
  = if JS.truthy (sanitizeOutput data) && isListening p
    then [Line (sanitizeOutput data)] else [].
Proof.
  unfold processOutput, updateHotState, emit. eff_unfold.
  destruct (JS.truthy (JS.trim data)) eqn:Et; simpl.
  - destruct (JS.truthy (sanitizeOutput data)); simpl; [|reflexivity].
    destruct (isListening p); reflexivity.
  - apply truthy_false_iff, sanitizeOutput_blank in Et. rewrite Et. reflexivity.
Qed.

Lemma processOutput_frame (now : Z) (data : jsstring) (p : TerminalProcess) :
  let p' := state_of (processOutput toLowerCase now data p) in
  buffer p' = buffer p /\ isListening p' = isListening p
  /\ lastRetrievedIndex p' = lastRetrievedIndex p.
Proof.
  cbv zeta. unfold processOutput, updateHotState, emit. eff_unfold.
  destruct (JS.truthy (JS.trim data)); simpl; [|auto].
  destruct (JS.truthy (sanitizeOutput data)); simpl; [|auto].
  destruct (isListening p) eqn:E; simpl; auto.
Qed.

Lemma processOutput_sameOutput (n1 n2 : Z) (data : jsstring) (p q : TerminalProcess) :
  sameOutput p q ->
  sameOutput (state_of (processOutput toLowerCase n1 data p))
             (state_of (processOutput toLowerCase n2 data q))
  /\ log_of (processOutput toLowerCase n1 data p)
     = log_of (processOutput toLowerCase n2 data q).
Proof.
  unfold sameOutput, eraseHot, set_hot. intros H.
  destruct p, q; simpl in H. injection H as -> -> -> -> -> ->.
  unfold processOutput, updateHotState, emit, set_hot. eff_unfold.
  destruct (JS.truthy (JS.trim data)); simpl; [|auto].
  destruct (JS.truthy (sanitizeOutput data)); simpl; [|auto].
  match goal with |- context [if ?b then _ else _] => destruct b end; simpl; auto.
Qed.

Lemma forEach_app {A : Type} (l1 l2 : list A) (f : A -> Eff unit) (p : TerminalProcess) :
  forEach (l1 ++ l2) f p
  = (tt, state_of (forEach l2 f (state_of (forEach l1 f p))),
     log_of (forEach l1 f p) ++ log_of (forEach l2 f (state_of (forEach l1 f p)))).
Proof.
  revert p. induction l1 as [|a l1 IH]; intros p.
  - simpl. eff_unfold. simpl. destruct (forEach l2 f p) as [[[] q] l]. reflexivity.
  - simpl. eff_unfold. destruct (f a p) as [[[] q] l]. rewrite IH. simpl.
    destruct (forEach l1 f q) as [[[] q1] l1']. simpl.
    now rewrite app_assoc.
Qed.

Lemma processLines_app (l1 l2 : list (Z * jsstring)) (p : TerminalProcess) :
  processLines toLowerCase (l1 ++ l2) p
  = (tt,
     state_of (processLines toLowerCase l2 (state_of (processLines toLowerCase l1 p))),
     log_of (processLines toLowerCase l1 p)
     ++ log_of (processLines toLowerCase l2 (state_of (processLines toLowerCase l1 p)))).
Proof. unfold processLines. apply forEach_app. Qed.

Lemma forEach_processLines (now : Z) (lines : list jsstring) (p : TerminalProcess) :
  forEach lines (processOutput toLowerCase now) p
  = processLines toLowerCase (List.map (pair now) lines) p.
Proof.
  unfold processLines. revert p. induction lines as [|a l IH]; intros p; [reflexivity|].
  simpl. eff_unfold. destruct (processOutput toLowerCase now a p) as [[[] q] lg].
  now rewrite IH.
Qed.

Lemma processLines_sameOutput (l1 l2 : list (Z * jsstring)) :
  List.map snd l1 = List.map snd l2 ->
  forall p q, sameOutput p q ->
  sameOutput (state_of (processLines toLowerCase l1 p))
             (state_of (processLines toLowerCase l2 q))
  /\ log_of (processLines toLowerCase l1 p) = log_of (processLines toLowerCase l2 q).
Proof.
  unfold processLines. revert l2.
  induction l1 as [|[n1 d1] l1 IH]; intros [|[n2 d2] l2] Hm p q Hpq;
    try discriminate; [simpl; auto|].
  simpl in Hm. injection Hm as -> Hm.
  destruct (processOutput_sameOutput n1 n2 d2 p q Hpq) as [Hs Hl].
  specialize (IH l2 Hm _ _ Hs). simpl. eff_unfold. simpl in *.
  destruct (processOutput toLowerCase n1 d2 p) as [[[] p1] lg1].
  destruct (processOutput toLowerCase n2 d2 q) as [[[] q1] lg2].
  simpl in *.
  destruct (forEach l1 _ p1) as [[[] p2] lg3].
  destruct (forEach l2 _ q1) as [[[] q2] lg4].
  simpl in *. destruct IH as [IH1 IH2]. split; [exact IH1|congruence].
Qed.

End ProcessFacts.

(** ** The data handler only appends to [fullOutput] *)

Section HandlerFrame.

Variable stripAnsi : jsstring -> jsstring.
Variable toLowerCase : jsstring -> jsstring.

Lemma extends_refl (p : TerminalProcess) : extends p p.
Proof. split; [exists []; now rewrite app_nil_r|reflexivity]. Qed.

Lemma extends_trans (p q r : TerminalProcess) :
  extends p q -> extends q r -> extends p r.
Proof.
  intros [[n1 H1] I1] [[n2 H2] I2]. split; [|congruence].
  exists (n1 ++ n2). rewrite H2, H1. now rewrite app_assoc.
Qed.

Lemma extends_set_listeners (l : list registration) (p q : TerminalProcess) :
  extends p q -> extends p (set_listeners l q).
Proof. intros H. exact H. Qed.

Lemma processOutput_extends (now : Z) (data : jsstring) (p : TerminalProcess) :
  extends p (state_of (processOutput toLowerCase now data p)).
Proof.
  split.
  - exists (appendedFor data). apply processOutput_fullOutput.
  - apply (processOutput_frame toLowerCase now data p).
Qed.

Lemma forEach_processOutput_extends (now : Z) (lines : list jsstring) (p : TerminalProcess) :
  extends p (state_of (forEach lines (processOutput toLowerCase now) p)).
Proof.
  revert p. induction lines as [|a l IH]; intros p; [apply extends_refl|].
  simpl. eff_unfold.
  pose proof (processOutput_extends now a p) as H. unfold state_of in H.
  destruct (processOutput toLowerCase now a p) as [[[] q] lg]. simpl in H.
  specialize (IH q).
  destruct (forEach l (processOutput toLowerCase now) q) as [[[] q'] lg'].
  simpl in *. eapply extends_trans; eassumption.
Qed.

Lemma outputHandler_extends (now : Z) (data : jsstring) (c : Capture) (p : TerminalProcess) :
  extends p (state_of (outputHandler stripAnsi toLowerCase now data c p)).
Proof.
  unfold outputHandler.
  destruct (JS.includes (stripAnsi data) (startMarker c)); [apply extends_refl|].
  destruct (JS.includes (stripAnsi data) (endMarker c)).
  - unfold when. destruct (JS.truthy (outputBuffer c)).
    + pose proof (processOutput_extends now (outputBuffer c) p) as H.
      unfold emit. eff_unfold.
      destruct (processOutput toLowerCase now (outputBuffer c) p) as [[[] q] lg].
      simpl. do 2 apply extends_set_listeners. exact H.
    + unfold emit. eff_unfold. simpl. do 2 apply extends_set_listeners.
      apply extends_refl.
  - destruct (outputStarted c); [|apply extends_refl].
    destruct (1 <? length _)%nat; [|apply extends_refl].
    pose proof (forEach_processOutput_extends now
                  (removelast (JS.split_nl (outputBuffer c ++ stripAnsi data))) p) as H.
    eff_unfold.
    destruct (forEach _ _ p) as [[[] q] lg]. exact H.
Qed.

Lemma feed_extends (chunks : list (Z * jsstring)) (sub : option Capture) (p : TerminalProcess) :
  extends p (state_of (feed stripAnsi toLowerCase (sub, p) chunks)).
Proof.
  revert sub p. induction chunks as [|ch rest IH]; intros sub p; [apply extends_refl|].
  cbn [feed]. unfold state_of at 1. cbn [fst snd].
  eapply extends_trans; [|apply IH].
  unfold feed1. cbn [fst snd]. destruct sub as [c|]; [|apply extends_refl].
  apply outputHandler_extends.
Qed.

End HandlerFrame.

(** ** getUnretrievedOutput *)

Lemma getUnretrievedOutput_value (p : TerminalProcess) :
  value_of (getUnretrievedOutput p)
  = sanitizeRemainingBuffer (JS.slice_from (fullOutput p) (lastRetrievedIndex p)).
Proof. reflexivity. Qed.

Lemma getUnretrievedOutput_state (p : TerminalProcess) :
  state_of (getUnretrievedOutput p) = set_lastRetrievedIndex (length (fullOutput p)) p.
Proof. reflexivity. Qed.

(** Once the cursor is at the end, a later call returns what was appended
    since, sanitized, and nothing of what came before. *)
Lemma retrieved_after_extension (p q : TerminalProcess) :
  lastRetrievedIndex p = length (fullOutput p) ->
  extends p q ->
  exists new, fullOutput q = fullOutput p ++ new
    /\ value_of (getUnretrievedOutput q) = sanitizeRemainingBuffer new.
Proof.
  intros Hp [[new Hnew] Hidx]. exists new. split; [exact Hnew|].
  rewrite getUnretrievedOutput_value, Hidx, Hp, Hnew.
  unfold JS.slice_from. now rewrite drop_app_length.
Qed.

(** C7. [getUnretrievedOutput] returns the sanitized slice of [fullOutput]
    from [lastRetrievedIndex] to the end and moves [lastRetrievedIndex] to
    the end; a second call with nothing appended in between returns the
    empty string; and after any chunks have been handled in between, the
    next call returns the sanitized text appended since the first call and
    nothing that the first call had covered. *)
Theorem getUnretrievedOutput_idempotent (p : TerminalProcess) :
  value_of (getUnretrievedOutput p)
  = sanitizeRemainingBuffer (JS.slice_from (fullOutput p) (lastRetrievedIndex p))
  /\ lastRetrievedIndex (state_of (getUnretrievedOutput p)) = length (fullOutput p)
  /\ fullOutput (state_of (getUnretrievedOutput p)) = fullOutput p
  /\ value_of (getUnretrievedOutput (state_of (getUnretrievedOutput p))) = []
  /\ forall (stripAnsi toLowerCase : jsstring -> jsstring)
       (sub : option Capture) (chunks : list (Z * jsstring)),
       exists new,
         fullOutput
           (state_of (feed stripAnsi toLowerCase (sub, state_of (getUnretrievedOutput p)) chunks))
         = fullOutput p ++ new
         /\ value_of
              (getUnretrievedOutput
                 (state_of
                    (feed stripAnsi toLowerCase (sub, state_of (getUnretrievedOutput p)) chunks)))
            = sanitizeRemainingBuffer new.
Proof.
  repeat split.
  - rewrite getUnretrievedOutput_value, getUnretrievedOutput_state. simpl.
    unfold JS.slice_from. now rewrite drop_all.
  - intros stripAnsi toLowerCase sub chunks.
    apply (retrieved_after_extension (state_of (getUnretrievedOutput p))); [reflexivity|].
    apply feed_extends.
Qed.

Lemma promptChar_cases (c : N) :
  Regexes.promptChar c = true -> c = 37 \/ c = 36 \/ c = 35 \/ c = 62.
Proof. unfold Regexes.promptChar. intros H. N_cases. Qed.

(** ** continue() *)

(** [continue()] flushes the field [buffer], which only [emitIfEol]
    writes. Were it non-empty on a listening process, [continue()] would
    emit one [line] event carrying that buffer as
    [sanitizeRemainingBuffer] leaves it, if that is non-empty; it would
    empty the buffer, but leave [fullOutput] as it was and set
    [lastRetrievedIndex] to its length, stop listening, remove the [line]
    listeners and emit [continue]. *)
Lemma continue_flushes_its_own_buffer (p : TerminalProcess) :
  JS.truthy (buffer p) = true ->
  isListening p = true ->
  let flushed := sanitizeRemainingBuffer (buffer p) in
  List.map emitted (log_of (continue_ p))
  = (if JS.truthy flushed then [Line flushed] else []) ++ [Continue]
  /\ buffer (state_of (continue_ p)) = []
  /\ fullOutput (state_of (continue_ p)) = fullOutput p
  /\ lastRetrievedIndex (state_of (continue_ p)) = length (fullOutput p)
  /\ isListening (state_of (continue_ p)) = false
  /\ List.filter (hits on_line) (listeners (state_of (continue_ p))) = [].
Proof.
  intros Hb Hl flushed.
  unfold continue_, emitRemainingBufferIfListening, removeAllListeners, emit.
  eff_unfold. rewrite Hb, Hl. fold flushed. cbn [andb].
  assert (Hnone : forall l : list registration,
    List.filter (hits on_line)
      (List.filter (survives (name_of Continue))
         (List.filter (fun r => negb (event_name_eqb (reg_event r) on_line)) l)) = []).
  { intros l. induction l as [|[e o f] l IH]; [reflexivity|].
    destruct e, o; simpl; auto. }
  destruct (JS.truthy flushed); simpl; repeat split; apply Hnone.
Qed.

(** ** Splitting on newlines *)

Lemma split_nl_cons (c : N) (r : jsstring) :
  JS.split_nl (c :: r) = if c =? 10 then [] :: JS.split_nl r else consHead c (JS.split_nl r).
Proof. reflexivity. Qed.

Lemma split_nl_not_nil (s : jsstring) : JS.split_nl s <> [].
Proof.
  induction s as [|c r IH]; [discriminate|]. rewrite split_nl_cons.
  destruct (c =? 10); [discriminate|].
  destruct (JS.split_nl r); [contradiction|discriminate].
Qed.

Lemma consHead_app (c : N) (l1 l2 : list jsstring) :
  l1 <> [] -> consHead c (l1 ++ l2) = consHead c l1 ++ l2.
Proof. destruct l1; [contradiction|reflexivity]. Qed.

Lemma removelast_consHead (c : N) (h : jsstring) (t : list jsstring) :
  t <> [] -> removelast (consHead c (h :: t)) = consHead c (removelast (h :: t)).
Proof. destruct t; [contradiction|reflexivity]. Qed.

Lemma last_consHead (c : N) (h : jsstring) (t : list jsstring) :
  t <> [] -> List.last (consHead c (h :: t)) [] = List.last (h :: t) [].
Proof. destruct t; [contradiction|reflexivity]. Qed.

(** Splitting a concatenation: the complete lines of the first part, then
    the split of its last fragment followed by the second part. *)
Lemma split_nl_app (x y : jsstring) :
  JS.split_nl (x ++ y) = completeLines x ++ JS.split_nl (tailFragment x ++ y).
Proof.
  unfold completeLines, tailFragment.
  induction x as [|c r IH]; [reflexivity|].
  rewrite <- app_comm_cons, !split_nl_cons.
  pose proof (split_nl_not_nil r) as Hr.
  destruct (N.eqb_spec c 10) as [->|Hc].
  - rewrite IH. destruct (JS.split_nl r) as [|h t]; [contradiction|]. reflexivity.
  - rewrite IH. destruct (JS.split_nl r) as [|h t]; [contradiction|].
    destruct t as [|h' t'].
    + cbn [removelast List.last consHead app].
      rewrite split_nl_cons.
      destruct (N.eqb_spec c 10); [contradiction|reflexivity].
    + rewrite removelast_consHead, last_consHead by discriminate.
      rewrite consHead_app by discriminate. reflexivity.
Qed.

Lemma last_app_default {A : Type} (l1 l2 : list A) (d : A) :
  l2 <> [] -> List.last (l1 ++ l2) d = List.last l2 d.
Proof.
  intros H. induction l1 as [|a l1 IH]; [reflexivity|].
  simpl. rewrite IH. destruct (l1 ++ l2) eqn:E; [|reflexivity].
  apply app_eq_nil in E. tauto.
Qed.

Lemma completeLines_app (x y : jsstring) :
  completeLines (x ++ y) = completeLines x ++ completeLines (tailFragment x ++ y).
Proof.
  unfold completeLines at 1. rewrite split_nl_app.
  rewrite removelast_app by apply split_nl_not_nil. reflexivity.
Qed.

Lemma tailFragment_app (x y : jsstring) :
  tailFragment (x ++ y) = tailFragment (tailFragment x ++ y).
Proof.
  unfold tailFragment at 1. rewrite split_nl_app.
  rewrite last_app_default by apply split_nl_not_nil. reflexivity.
Qed.

Lemma split_nl_noNewline (s : jsstring) : noNewline s = true -> JS.split_nl s = [s].
Proof.
  induction s as [|c r IH]; [reflexivity|]. simpl.
  destruct (c =? 10); simpl; [discriminate|]. intros H. now rewrite IH.
Qed.

Lemma split_nl_singleton (s x : jsstring) : JS.split_nl s = [x] -> x = s.
Proof.
  revert x. induction s as [|c r IH]; intros x; simpl.
  - congruence.
  - pose proof (split_nl_not_nil r) as Hr.
    destruct (c =? 10).
    + destruct (JS.split_nl r); [contradiction|discriminate].
    + destruct (JS.split_nl r) as [|h [|h' t]]; [contradiction| |discriminate].
      intros [= <-]. now rewrite (IH h eq_refl).
Qed.

Lemma tailFragment_noNewline (s : jsstring) : noNewline (tailFragment s) = true.
Proof.
  unfold tailFragment. induction s as [|c r IH]; [reflexivity|].
  rewrite split_nl_cons. pose proof (split_nl_not_nil r) as Hr.
  destruct (N.eqb_spec c 10) as [->|Hc].
  - destruct (JS.split_nl r); [contradiction|exact IH].
  - destruct (JS.split_nl r) as [|h [|h' t]]; [contradiction| |exact IH].
    simpl in *. destruct (N.eqb_spec c 10); [contradiction|exact IH].
Qed.

(** ** The data handler between the markers *)

Section HandlerFacts.

Variable stripAnsi : jsstring -> jsstring.
Variable toLowerCase : jsstring -> jsstring.

Local Abbreviation handler := (outputHandler stripAnsi toLowerCase).
Local Abbreviation feed' := (feed stripAnsi toLowerCase).

Lemma set_outputBuffer_same (c : Capture) : set_outputBuffer (outputBuffer c) c = c.
Proof. destruct c; reflexivity. Qed.

Lemma markerFree_spec (c : Capture) (ch : Z * jsstring) :
  markerFree stripAnsi c ch = true ->
  JS.includes (stripAnsi (snd ch)) (startMarker c) = false
  /\ JS.includes (stripAnsi (snd ch)) (endMarker c) = false.
Proof.
  unfold markerFree. intros H. apply andb_true_iff in H. destruct H as [H1 H2].
  apply negb_true_iff in H1, H2. auto.
Qed.

(** Outside a capture, a chunk without markers changes nothing. *)
Lemma handler_idle (now : Z) (data : jsstring) (c : Capture) (p : TerminalProcess) :
  markerFree stripAnsi c (now, data) = true ->
  outputStarted c = false ->
  handler now data c p = (Some c, p, []).
Proof.
  intros Hm Hs. apply markerFree_spec in Hm. destruct Hm as [H1 H2]. simpl in *.
  unfold outputHandler. rewrite H1, H2, Hs. reflexivity.
Qed.

(** During a capture, a chunk without markers is appended to the buffered
    fragment; the complete lines of the result are processed and the
    fragment after the last newline is kept. *)
Lemma handler_capturing (now : Z) (data : jsstring) (c : Capture) (p : TerminalProcess) :
  markerFree stripAnsi c (now, data) = true ->
  outputStarted c = true ->
  let text := outputBuffer c ++ stripAnsi data in
  let lines := List.map (pair now) (completeLines text) in
  handler now data c p
  = (Some (set_outputBuffer (tailFragment text) c),
     state_of (processLines toLowerCase lines p),
     log_of (processLines toLowerCase lines p)).
Proof.
  intros Hm Hs text lines. apply markerFree_spec in Hm. destruct Hm as [H1 H2].
  simpl in *. unfold outputHandler. rewrite H1, H2, Hs. fold text.
  unfold lines, completeLines, tailFragment.
  destruct (1 <? length (JS.split_nl text))%nat eqn:El.
  - rewrite <- forEach_processLines. eff_unfold.
    destruct (forEach _ _ p) as [[[] q] lg]. simpl. now rewrite app_nil_r.
  - apply Nat.ltb_ge in El. pose proof (split_nl_not_nil text) as Hn.
    destruct (JS.split_nl text) as [|x [|y t]] eqn:E; [contradiction| |simpl in El; lia].
    apply split_nl_singleton in E. subst x. reflexivity.
Qed.

Lemma feed_cons (st : option Capture * TerminalProcess) (ch : Z * jsstring)
  (rest : list (Z * jsstring)) :
  feed' st (ch :: rest)
  = (value_of (feed' (value_of (feed1 stripAnsi toLowerCase st ch),
                      state_of (feed1 stripAnsi toLowerCase st ch)) rest),
     state_of (feed' (value_of (feed1 stripAnsi toLowerCase st ch),
                      state_of (feed1 stripAnsi toLowerCase st ch)) rest),
     log_of (feed1 stripAnsi toLowerCase st ch)
     ++ log_of (feed' (value_of (feed1 stripAnsi toLowerCase st ch),
                       state_of (feed1 stripAnsi toLowerCase st ch)) rest)).
Proof. reflexivity. Qed.

Lemma feed_cons_eq (st : option Capture * TerminalProcess) (ch : Z * jsstring)
  (rest : list (Z * jsstring)) (v : option Capture) (q : TerminalProcess)
  (lg : list emission) :
  feed1 stripAnsi toLowerCase st ch = (v, q, lg) ->
  feed' st (ch :: rest)
  = (value_of (feed' (v, q) rest), state_of (feed' (v, q) rest),
     lg ++ log_of (feed' (v, q) rest)).
Proof. intros H. rewrite feed_cons, H. reflexivity. Qed.

Lemma feed_idle (chunks : list (Z * jsstring)) (c : Capture) (p : TerminalProcess) :
  forallb (markerFree stripAnsi c) chunks = true ->
  outputStarted c = false ->
  feed' (Some c, p) chunks = (Some c, p, []).
Proof.
  intros Hm Hs. induction chunks as [|[now data] rest IH]; [reflexivity|].
  cbn [forallb] in Hm. apply andb_true_iff in Hm. destruct Hm as [Hm Hr].
  rewrite feed_cons. unfold feed1. cbn [fst snd].
  rewrite (handler_idle now data c p Hm Hs).
  unfold value_of, state_of, log_of. cbn [fst snd]. rewrite (IH Hr). reflexivity.
Qed.

(** A run of chunks without markers, during a capture: the complete lines
    of the buffered fragment followed by the whole stripped text are
    processed in order, and the fragment after the last newline is kept. *)
Lemma feed_capturing (chunks : list (Z * jsstring)) :
  forall (c : Capture) (p : TerminalProcess),
  forallb (markerFree stripAnsi c) chunks = true ->
  outputStarted c = true ->
  noNewline (outputBuffer c) = true ->
  let text := outputBuffer c ++ strippedText stripAnsi chunks in
  exists lines : list (Z * jsstring),
    List.map snd lines = completeLines text
    /\ feed' (Some c, p) chunks
       = (Some (set_outputBuffer (tailFragment text) c),
          state_of (processLines toLowerCase lines p),
          log_of (processLines toLowerCase lines p)).
Proof.
  induction chunks as [|[now data] rest IH]; intros c p Hm Hs Hb text.
  - exists []. unfold text, strippedText. simpl. rewrite app_nil_r.
    unfold completeLines, tailFragment. rewrite (split_nl_noNewline _ Hb).
    simpl. rewrite set_outputBuffer_same. auto.
  - cbn [forallb] in Hm. apply andb_true_iff in Hm. destruct Hm as [Hm Hr].
    set (text0 := outputBuffer c ++ stripAnsi data).
    set (c' := set_outputBuffer (tailFragment text0) c).
    set (lines0 := List.map (pair now) (completeLines text0)).
    destruct (IH c' (state_of (processLines toLowerCase lines0 p)))
      as [lines' [Hl' Hf']]; [exact Hr|exact Hs|apply tailFragment_noNewline|].
    exists (lines0 ++ lines'). split.
    + rewrite List.map_app, Hl'. unfold lines0. rewrite List.map_map. simpl.
      rewrite List.map_id. unfold text, strippedText. simpl.
      rewrite app_assoc. fold text0. symmetry. apply completeLines_app.
    + assert (H1 : feed1 stripAnsi toLowerCase (Some c, p) (now, data)
                   = (Some c', state_of (processLines toLowerCase lines0 p),
                      log_of (processLines toLowerCase lines0 p))).
      { unfold feed1. cbn [fst snd]. apply (handler_capturing now data c p Hm Hs). }
      rewrite (feed_cons_eq _ _ _ _ _ _ H1), Hf', processLines_app.
      unfold value_of, state_of, log_of. cbn [fst snd].
      assert (Hc : set_outputBuffer
                     (tailFragment (outputBuffer c' ++ strippedText stripAnsi rest)) c'
                   = set_outputBuffer (tailFragment text) c).
      { unfold c', set_outputBuffer. cbn [outputBuffer startMarker endMarker outputStarted].
        f_equal. unfold text, strippedText. cbn [List.map List.concat snd].
        rewrite app_assoc. fold text0. symmetry. apply tailFragment_app. }
      rewrite Hc. reflexivity.
Qed.

End HandlerFacts.

(** ** The activity clock does not influence the output *)

Lemma agree_ret {A : Type} (a : A) : agree (mret a) (mret a).
Proof. intros p q H. auto. Qed.

Lemma agree_bind {A B : Type} (m1 m2 : Eff A) (k1 k2 : A -> Eff B) :
  agree m1 m2 -> (forall a, agree (k1 a) (k2 a)) ->
  agree (m1 ≫= k1) (m2 ≫= k2).
Proof.
  intros Hm Hk p q Hpq. destruct (Hm p q Hpq) as (Hv & Hs & Hl).
  eff_unfold. destruct (m1 p) as [[a p1] l1], (m2 q) as [[a' q1] l1'].
  simpl in *. subst a' l1'. destruct (Hk a p1 q1 Hs) as (Hv' & Hs' & Hl').
  destruct (k1 a p1) as [[b p2] l2], (k2 a q1) as [[b' q2] l2'].
  simpl in *. subst. auto.
Qed.

Lemma agree_emit (e : event) : agree (emit e) (emit e).
Proof.
  intros p q H. unfold sameOutput, eraseHot, set_hot in *.
  destruct p, q; simpl in *. injection H as -> -> -> -> -> ->. auto.
Qed.

Lemma agree_processLines (toLowerCase : jsstring -> jsstring)
  (l1 l2 : list (Z * jsstring)) :
  List.map snd l1 = List.map snd l2 ->
  agree (processLines toLowerCase l1) (processLines toLowerCase l2).
Proof.
  intros Hm p q Hpq.
  destruct (processLines_sameOutput toLowerCase l1 l2 Hm p q Hpq) as [Hs Hl].
  repeat split; [|exact Hs|exact Hl].
  unfold value_of. destruct (processLines _ l1 p) as [[[] ?] ?].
  destruct (processLines _ l2 q) as [[[] ?] ?]. reflexivity.
Qed.

Lemma agree_processOutput (toLowerCase : jsstring -> jsstring) (n1 n2 : Z)
  (data : jsstring) :
  agree (processOutput toLowerCase n1 data) (processOutput toLowerCase n2 data).
Proof.
  intros p q Hpq.
  destruct (processOutput_sameOutput toLowerCase n1 n2 data p q Hpq) as [Hs Hl].
  repeat split; [|exact Hs|exact Hl].
  unfold value_of. destruct (processOutput _ n1 data p) as [[[] ?] ?].
  destruct (processOutput _ n2 data q) as [[[] ?] ?]. reflexivity.
Qed.

Section ClockFacts.

Variable stripAnsi : jsstring -> jsstring.
Variable toLowerCase : jsstring -> jsstring.

Lemma agree_outputHandler (n1 n2 : Z) (data : jsstring) (c : Capture) :
  agree (outputHandler stripAnsi toLowerCase n1 data c)
        (outputHandler stripAnsi toLowerCase n2 data c).
Proof.
  unfold outputHandler.
  destruct (JS.includes (stripAnsi data) (startMarker c)); [apply agree_ret|].
  destruct (JS.includes (stripAnsi data) (endMarker c)).
  - apply agree_bind.
    + unfold when. destruct (JS.truthy (outputBuffer c));
        [apply agree_processOutput|apply agree_ret].
    + intros _. apply agree_bind; [apply agree_emit|].
      intros _. apply agree_bind; [apply agree_emit|]. intros _. apply agree_ret.
  - destruct (outputStarted c); [|apply agree_ret].
    destruct (1 <? length _)%nat; [|apply agree_ret].
    apply agree_bind; [|intros _; apply agree_ret].
    intros p q Hpq. rewrite !forEach_processLines.
    apply agree_processLines; [|exact Hpq].
    rewrite !List.map_map. reflexivity.
Qed.

(** The same chunks, arriving at other times, to processes with the same
    output: same events, same closure state, same output. *)
Lemma feed_sameOutput (chunks1 chunks2 : list (Z * jsstring)) :
  List.map snd chunks1 = List.map snd chunks2 ->
  forall (sub : option Capture) (p q : TerminalProcess),
  sameOutput p q ->
  value_of (feed stripAnsi toLowerCase (sub, p) chunks1)
  = value_of (feed stripAnsi toLowerCase (sub, q) chunks2)
  /\ sameOutput (state_of (feed stripAnsi toLowerCase (sub, p) chunks1))
                (state_of (feed stripAnsi toLowerCase (sub, q) chunks2))
  /\ log_of (feed stripAnsi toLowerCase (sub, p) chunks1)
     = log_of (feed stripAnsi toLowerCase (sub, q) chunks2).
Proof.
  revert chunks2.
  induction chunks1 as [|[n1 d1] rest1 IH]; intros [|[n2 d2] rest2] Hm sub p q Hpq;
    try discriminate; [simpl; auto|].
  simpl in Hm. injection Hm as -> Hm.
  assert (H1 : value_of (feed1 stripAnsi toLowerCase (sub, p) (n1, d2))
               = value_of (feed1 stripAnsi toLowerCase (sub, q) (n2, d2))
               /\ sameOutput (state_of (feed1 stripAnsi toLowerCase (sub, p) (n1, d2)))
                             (state_of (feed1 stripAnsi toLowerCase (sub, q) (n2, d2)))
               /\ log_of (feed1 stripAnsi toLowerCase (sub, p) (n1, d2))
                  = log_of (feed1 stripAnsi toLowerCase (sub, q) (n2, d2))).
  { unfold feed1. cbn [fst snd]. destruct sub as [c|]; [|auto].
    apply agree_outputHandler, Hpq. }
  destruct H1 as (Hv & Hs & Hl). rewrite !feed_cons. rewrite Hv, Hl.
  destruct (IH rest2 Hm
              (value_of (feed1 stripAnsi toLowerCase (sub, q) (n2, d2))) _ _ Hs)
    as (Hv' & Hs' & Hl').
  unfold value_of at 1 3, state_of at 1 3, log_of at 1 4. cbn [fst snd].
  rewrite Hv', Hl'. auto.
Qed.

(** The buffered fragment never holds a newline. *)
Lemma run_noNewline (t1 t2 : Z) : noNewline (outputBuffer (run t1 t2)) = true.
Proof. reflexivity. Qed.

Lemma outputHandler_noNewline (now : Z) (data : jsstring) (c c' : Capture)
  (p : TerminalProcess) :
  noNewline (outputBuffer c) = true ->
  value_of (outputHandler stripAnsi toLowerCase now data c p) = Some c' ->
  noNewline (outputBuffer c') = true
  /\ startMarker c' = startMarker c /\ endMarker c' = endMarker c.
Proof.
  intros Hb. unfold outputHandler.
  destruct (JS.includes (stripAnsi data) (startMarker c)).
  { intros [= <-]. auto. }
  destruct (JS.includes (stripAnsi data) (endMarker c)).
  { unfold emit. eff_unfold. destruct (JS.truthy (outputBuffer c));
      [destruct (processOutput toLowerCase now (outputBuffer c) p) as [[[] ?] ?]|];
      simpl; discriminate. }
  destruct (outputStarted c); [|intros [= <-]; auto].
  destruct (1 <? length _)%nat eqn:El.
  - eff_unfold. destruct (forEach _ _ p) as [[[] ?] ?]. intros [= <-].
    split; [apply tailFragment_noNewline|auto].
  - intros [= <-]. split; [|auto]. cbn [outputBuffer set_outputBuffer].
    apply Nat.ltb_ge in El.
    pose proof (split_nl_not_nil (outputBuffer c ++ stripAnsi data)) as Hn.
    destruct (JS.split_nl (outputBuffer c ++ stripAnsi data)) as [|x [|y t]] eqn:E;
      [contradiction| |simpl in El; lia].
    pose proof (tailFragment_noNewline (outputBuffer c ++ stripAnsi data)) as Ht.
    unfold tailFragment in Ht. rewrite E in Ht. simpl in Ht.
    apply split_nl_singleton in E. now subst x.
Qed.

Lemma feed_disposed (chunks : list (Z * jsstring)) (p : TerminalProcess) :
  feed stripAnsi toLowerCase (None, p) chunks = (None, p, []).
Proof.
  induction chunks as [|ch rest IH]; [reflexivity|].
  cbn [feed]. unfold feed1, value_of, state_of, log_of. cbn [fst snd].
  rewrite IH. reflexivity.
Qed.

(** So every state the handler of a [run] call reaches has a buffered
    fragment without newline. *)
Lemma feed_noNewline (chunks : list (Z * jsstring)) :
  forall (c c' : Capture) (p : TerminalProcess),
  noNewline (outputBuffer c) = true ->
  value_of (feed stripAnsi toLowerCase (Some c, p) chunks) = Some c' ->
  noNewline (outputBuffer c') = true.
Proof.
  induction chunks as [|[now data] rest IH]; intros c c' p Hb.
  - intros [= <-]. exact Hb.
  - cbn [feed]. unfold value_of at 1. cbn [fst].
    unfold feed1. cbn [fst snd].
    destruct (value_of (outputHandler stripAnsi toLowerCase now data c p)) as [c1|] eqn:E.
    + apply IH. eapply outputHandler_noNewline; eassumption.
    + rewrite feed_disposed. discriminate.
Qed.

(** C2 (amended). Chunk boundaries do not matter between the markers:
    take a data handler whose buffered fragment holds no newline (as it
    always is) and two sequences of chunks, none of which shows the start
    or the end marker once stripped, that carry the same stripped text.
    Fed to the handler, whatever the arrival times, they produce the same
    [line] events, the same [fullOutput] and the same closure state, and
    any further chunks produce the same events after either. *)
Theorem chunking_is_immaterial_between_markers
  (c : Capture) (p : TerminalProcess) (chunks1 chunks2 : list (Z * jsstring)) :
  noNewline (outputBuffer c) = true ->
  forallb (markerFree stripAnsi c) chunks1 = true ->
  forallb (markerFree stripAnsi c) chunks2 = true ->
  strippedText stripAnsi chunks1 = strippedText stripAnsi chunks2 ->
  let r1 := feed stripAnsi toLowerCase (Some c, p) chunks1 in
  let r2 := feed stripAnsi toLowerCase (Some c, p) chunks2 in
  lines_of (log_of r1) = lines_of (log_of r2)
  /\ fullOutput (state_of r1) = fullOutput (state_of r2)
  /\ value_of r1 = value_of r2
  /\ forall more : list (Z * jsstring),
       log_of (feed stripAnsi toLowerCase (value_of r1, state_of r1) more)
       = log_of (feed stripAnsi toLowerCase (value_of r2, state_of r2) more).
Proof.
  intros Hb Hm1 Hm2 Htext r1 r2.
  assert (H : value_of r1 = value_of r2
              /\ sameOutput (state_of r1) (state_of r2)
              /\ log_of r1 = log_of r2).
  { unfold r1, r2. destruct (outputStarted c) eqn:Hs.
    - destruct (feed_capturing stripAnsi toLowerCase chunks1 c p Hm1 Hs Hb)
        as [l1 [Hl1 ->]].
      destruct (feed_capturing stripAnsi toLowerCase chunks2 c p Hm2 Hs Hb)
        as [l2 [Hl2 ->]].
      assert (Hl : List.map snd l1 = List.map snd l2) by (rewrite Hl1, Hl2, Htext; reflexivity).
      destruct (processLines_sameOutput toLowerCase l1 l2 Hl p p eq_refl) as [Hso Hlog].
      unfold value_of, state_of, log_of in *. cbn [fst snd] in *.
      rewrite Htext. auto.
    - rewrite (feed_idle stripAnsi toLowerCase chunks1 c p Hm1 Hs).
      rewrite (feed_idle stripAnsi toLowerCase chunks2 c p Hm2 Hs).
      unfold sameOutput. auto. }
  destruct H as (Hv & Hs & Hl). repeat split.
  - now rewrite Hl.
  - unfold sameOutput, eraseHot, set_hot in Hs. now injection Hs.
  - exact Hv.
  - intros more. rewrite Hv.
    apply (feed_sameOutput more more eq_refl (value_of r2) _ _ Hs).
Qed.

End ClockFacts.

(** ** The data handler at the markers *)

Section MarkerFacts.

Variable stripAnsi : jsstring -> jsstring.
Variable toLowerCase : jsstring -> jsstring.

(** C3 (amended). A chunk that contains the start marker turns capturing
    on, whether or not it was on already, and is discarded whole: nothing
    of it is buffered, appended to [fullOutput] or emitted, and that
    includes the text that follows the marker inside the chunk. *)
Theorem start_marker_chunk_is_discarded_whole
  (now : Z) (data : jsstring) (c : Capture) (p : TerminalProcess) :
  JS.includes (stripAnsi data) (startMarker c) = true ->
  outputHandler stripAnsi toLowerCase now data c p
  = (Some (set_outputStarted true c), p, []).
Proof. intros H. unfold outputHandler. rewrite H. reflexivity. Qed.

(** C8 (amended). A chunk that contains the end marker and not the start
    marker contributes none of its own text: the handler processes the
    fragment buffered from earlier chunks (appending its sanitized form
    and a newline to [fullOutput] and, while listening, emitting it as one
    [line] event, if it is non-empty), then emits [completed] and
    [continue] and disposes of its subscription; any other such chunk
    would have had the same effect. *)
Theorem end_marker_chunk_flushes_buffer_only
  (now : Z) (data : jsstring) (c : Capture) (p : TerminalProcess) :
  JS.includes (stripAnsi data) (startMarker c) = false ->
  JS.includes (stripAnsi data) (endMarker c) = true ->
  let r := outputHandler stripAnsi toLowerCase now data c p in
  let flushed := sanitizeOutput (outputBuffer c) in
  value_of r = None
  /\ fullOutput (state_of r)
     = fullOutput p ++ (if JS.truthy flushed then flushed ++ [10] else [])
  /\ List.map emitted (log_of r)
     = (if JS.truthy flushed && isListening p then [Line flushed] else [])
       ++ [Completed; Continue]
  /\ forall data',
       JS.includes (stripAnsi data') (startMarker c) = false ->
       JS.includes (stripAnsi data') (endMarker c) = true ->
       outputHandler stripAnsi toLowerCase now data' c p = r.
Proof.
  intros H1 H2 r flushed.
  assert (Hany : forall data',
            JS.includes (stripAnsi data') (startMarker c) = false ->
            JS.includes (stripAnsi data') (endMarker c) = true ->
            outputHandler stripAnsi toLowerCase now data' c p = r).
  { intros data' H1' H2'. unfold r, outputHandler. now rewrite H1, H2, H1', H2'. }
  split; [|split; [|split; [|exact Hany]]]; clear Hany;
    unfold r, flushed, outputHandler; rewrite H1, H2;
    pose proof (processOutput_fullOutput toLowerCase now (outputBuffer c) p) as Hf;
    pose proof (processOutput_events toLowerCase now (outputBuffer c) p) as He;
    unfold appendedFor in Hf; unfold emit; eff_unfold;
    (destruct (JS.truthy (outputBuffer c)) eqn:Eb;
     [ destruct (processOutput toLowerCase now (outputBuffer c) p) as [[[] q] lg];
       cbn [fst snd] in *
     | apply truthy_false_iff in Eb; rewrite ?Eb; cbn; rewrite ?app_nil_r ]);
    try reflexivity.
  - exact Hf.
  - rewrite List.map_app, He. reflexivity.
Qed.

End MarkerFacts.

(** ** TerminalManager *)

Section CallbackFacts.

Variable tid : N.

Lemma run_callback_present (e : event) (st : Execution * gmap N TerminalInfo) (f : listener) :
  present tid (snd st) -> present tid (snd (run_callback e st f)).
Proof.
  unfold present. destruct f as [t| | |k]; simpl; auto.
  intros H. apply lookup_alter_is_Some. exact H.
Qed.

Lemma run_callback_idle (e : event) (st : Execution * gmap N TerminalInfo) (f : listener) :
  idleAt tid (snd st) -> idleAt tid (snd (run_callback e st f)).
Proof.
  unfold idleAt. destruct f as [t| | |k]; simpl; auto.
  intros H. destruct (decide (t = tid)) as [->|Hne].
  - rewrite lookup_alter_eq. destruct (snd st !! tid); [reflexivity|discriminate].
  - rewrite lookup_alter_ne by exact Hne. exact H.
Qed.

Lemma run_callback_SetIdle (e : event) (st : Execution * gmap N TerminalInfo) :
  present tid (snd st) -> idleAt tid (snd (run_callback e st (SetIdle tid))).
Proof.
  unfold present, idleAt. simpl. intros [t Ht].
  rewrite lookup_alter_eq, Ht. reflexivity.
Qed.

Lemma callbacks_present (e : event) (fs : list listener) (st : Execution * gmap N TerminalInfo) :
  present tid (snd st) -> present tid (snd (fold_left (run_callback e) fs st)).
Proof.
  revert st. induction fs as [|f fs IH]; intros st H; [exact H|].
  simpl. apply IH, run_callback_present, H.
Qed.

Lemma callbacks_idle (e : event) (fs : list listener) (st : Execution * gmap N TerminalInfo) :
  idleAt tid (snd st) -> idleAt tid (snd (fold_left (run_callback e) fs st)).
Proof.
  revert st. induction fs as [|f fs IH]; intros st H; [exact H|].
  simpl. apply IH, run_callback_idle, H.
Qed.

Lemma callbacks_set_idle (e : event) (fs : list listener) (st : Execution * gmap N TerminalInfo) :
  In (SetIdle tid) fs -> present tid (snd st) ->
  idleAt tid (snd (fold_left (run_callback e) fs st)).
Proof.
  revert st. induction fs as [|f fs IH]; intros st Hin H; [contradiction|].
  simpl. destruct Hin as [->|Hin].
  - apply callbacks_idle, run_callback_SetIdle, H.
  - apply IH; [exact Hin|apply run_callback_present, H].
Qed.

Lemma emissions_present (l : list emission) (st : Execution * gmap N TerminalInfo) :
  present tid (snd st) -> present tid (snd (run_emissions l st)).
Proof.
  unfold run_emissions. revert st. induction l as [|m l IH]; intros st H; [exact H|].
  simpl. apply IH. apply callbacks_present, H.
Qed.

Lemma emissions_idle (l : list emission) (st : Execution * gmap N TerminalInfo) :
  idleAt tid (snd st) -> idleAt tid (snd (run_emissions l st)).
Proof.
  unfold run_emissions. revert st. induction l as [|m l IH]; intros st H; [exact H|].
  simpl. apply IH. apply callbacks_idle, H.
Qed.

Lemma emissions_set_idle (l : list emission) (st : Execution * gmap N TerminalInfo) :
  (exists m, In m l /\ In (SetIdle tid) (called m)) ->
  present tid (snd st) ->
  idleAt tid (snd (run_emissions l st)).
Proof.
  unfold run_emissions. revert st.
  induction l as [|m l IH]; intros st [m' [Hin Hc]] H; [contradiction|].
  simpl. destruct Hin as [->|Hin].
  - apply (emissions_idle l). apply callbacks_set_idle; assumption.
  - apply IH; [eauto|apply callbacks_present, H].
Qed.

End CallbackFacts.

Section WorldFacts.

Variable stripAnsi : jsstring -> jsstring.
Variable toLowerCase : jsstring -> jsstring.

Lemma processOutput_keeps_listener (now : Z) (data : jsstring) (p : TerminalProcess)
  (r : registration) :
  reg_event r <> on_line ->
  In r (listeners p) ->
  In r (listeners (state_of (processOutput toLowerCase now data p))).
Proof.
  intros Hr Hin. unfold processOutput, updateHotState, emit. eff_unfold.
  destruct (JS.truthy (JS.trim data)); simpl; [|exact Hin].
  destruct (JS.truthy (sanitizeOutput data)); simpl; [|exact Hin].
  destruct (isListening p); simpl; [|exact Hin].
  apply filter_In. split; [exact Hin|].
  destruct r as [e o f]. unfold survives. simpl in *. destruct e; simpl; congruence.
Qed.

(** The handler of a completing execution emits [completed] to the
    [SetIdle] listener. *)
Lemma completing_handler_calls_SetIdle (tid : N) (now : Z) (data : jsstring)
  (c : Capture) (p : TerminalProcess) :
  JS.includes (stripAnsi data) (startMarker c) = false ->
  JS.includes (stripAnsi data) (endMarker c) = true ->
  In (Registration on_completed true (SetIdle tid)) (listeners p) ->
  exists m, In m (log_of (outputHandler stripAnsi toLowerCase now data c p))
    /\ In (SetIdle tid) (called m).
Proof.
  intros H1 H2 Hin. unfold outputHandler. rewrite H1, H2.
  set (pre := when (JS.truthy (outputBuffer c))
                (processOutput toLowerCase now (outputBuffer c))).
  assert (Hq : In (Registration on_completed true (SetIdle tid))
                 (listeners (state_of (pre p)))).
  { unfold pre, when. destruct (JS.truthy (outputBuffer c)); [|exact Hin].
    apply processOutput_keeps_listener; [discriminate|exact Hin]. }
  clearbody pre. unfold emit. eff_unfold.
  destruct (pre p) as [[[] q] lg]. cbn [fst snd] in *.
  eexists. split.
  - apply in_or_app. right. left. reflexivity.
  - cbn [called]. apply (in_map reg_callback) with (x := Registration on_completed true (SetIdle tid)).
    apply filter_In. split; [exact Hq|reflexivity].
Qed.

Lemma receive_present (tid t : N) (now : Z) (data : jsstring) (x : Execution)
  (reg : gmap N TerminalInfo) :
  present tid reg -> present tid (snd (receive stripAnsi toLowerCase t now data x reg)).
Proof.
  intros H. unfold receive. destruct (exec_terminal x =? t); [|exact H].
  destruct (exec_subscription x); [|exact H]. apply emissions_present, H.
Qed.

Lemma receive_idle (tid t : N) (now : Z) (data : jsstring) (x : Execution)
  (reg : gmap N TerminalInfo) :
  idleAt tid reg -> idleAt tid (snd (receive stripAnsi toLowerCase t now data x reg)).
Proof.
  intros H. unfold receive. destruct (exec_terminal x =? t); [|exact H].
  destruct (exec_subscription x); [|exact H]. apply emissions_idle, H.
Qed.

Lemma receive_sets_idle (tid : N) (now : Z) (data : jsstring) (x : Execution)
  (reg : gmap N TerminalInfo) :
  completesOn stripAnsi tid data x ->
  present tid reg ->
  idleAt tid (snd (receive stripAnsi toLowerCase tid now data x reg)).
Proof.
  intros [Ht [c (Hc & H1 & H2 & Hin)]] Hp. unfold receive.
  rewrite Ht, N.eqb_refl, Hc.
  apply emissions_set_idle; [|exact Hp].
  apply completing_handler_calls_SetIdle; assumption.
Qed.

Lemma deliver_heap_present (tid t : N) (now : Z) (data : jsstring) (h : list Execution) :
  forall reg, present tid reg ->
  present tid (snd (deliver_heap stripAnsi toLowerCase t now data h reg)).
Proof.
  induction h as [|x h IH]; intros reg H; [exact H|].
  simpl. apply IH, receive_present, H.
Qed.

Lemma deliver_heap_idle (tid t : N) (now : Z) (data : jsstring) (h : list Execution) :
  forall reg, idleAt tid reg ->
  idleAt tid (snd (deliver_heap stripAnsi toLowerCase t now data h reg)).
Proof.
  induction h as [|x h IH]; intros reg H; [exact H|].
  simpl. apply IH, receive_idle, H.
Qed.

(** When the end-marker chunk reaches a completing execution of the
    terminal, the terminal is idle once the chunk has been delivered. *)
Lemma deliver_heap_sets_idle (tid : N) (now : Z) (data : jsstring) (h : list Execution) :
  forall reg,
  Exists (completesOn stripAnsi tid data) h ->
  present tid reg ->
  idleAt tid (snd (deliver_heap stripAnsi toLowerCase tid now data h reg)).
Proof.
  induction h as [|x h IH]; intros reg Hex Hp.
  - inversion Hex.
  - simpl. inversion Hex as [? ? Hx|? ? Hh]; subst.
    + apply deliver_heap_idle, receive_sets_idle; assumption.
    + apply IH; [exact Hh|apply receive_present, Hp].
Qed.

(** Chunks and timers leave the manager's own fields alone. *)
Lemma step_manager (w : World) (i : input) :
  manager (step stripAnsi toLowerCase w i) = manager w.
Proof.
  destruct i as [tid now data|handle now]; simpl; [reflexivity|].
  unfold fireTimeout. destruct (heap w !! handle) as [x|]; [|reflexivity].
  destruct (exec_cleanupTimeout x) as [due|]; [|reflexivity].
  destruct (due <=? now)%Z; reflexivity.
Qed.

Lemma steps_manager (inputs : list input) (w : World) :
  manager (fold_left (step stripAnsi toLowerCase) inputs w) = manager w.
Proof.
  revert w. induction inputs as [|i inputs IH]; intros w; [reflexivity|].
  simpl. rewrite IH. apply step_manager.
Qed.


End WorldFacts.

(** C10. After [disposeAll()], [getTerminals] returns the empty list for
    both values of its argument, [getUnretrievedOutput] returns the empty
    string for every id and [isProcessHot] returns false for every id. *)
Theorem queries_after_disposeAll (w : World) :
  (forall b, getTerminals b (disposeAll w) = [])
  /\ (forall tid, fst (managerGetUnretrievedOutput tid (disposeAll w)) = [])
  /\ (forall tid now, isProcessHot tid now (disposeAll w) = false).
Proof.
  repeat split.
Qed.

(** ** runCommand: completion and timeout *)

Section EmitterFacts.

Lemma filter_all_true {A : Type} (f : A -> bool) (l : list A) :
  Forall (fun a => f a = true) l -> List.filter f l = l.
Proof.
  induction 1 as [|a l Ha Hl IH]; [reflexivity|]. simpl. now rewrite Ha, IH.
Qed.

Lemma filter_none {A : Type} (f : A -> bool) (l : list A) :
  Forall (fun a => f a = false) l -> List.filter f l = [].
Proof.
  induction 1 as [|a l Ha Hl IH]; [reflexivity|]. simpl. now rewrite Ha, IH.
Qed.

Lemma quiet_emit_line (s : jsstring) (p : TerminalProcess) :
  quiet (listeners p) ->
  emit (Line s) p = (tt, p, [Emission (Line s) []]).
Proof.
  intros Hq. unfold emit. cbn [name_of].
  rewrite filter_all_true, filter_none.
  - destruct p; reflexivity.
  - eapply List.Forall_impl; [|exact Hq]. intros [e o f] H.
    unfold hits. simpl in *. destruct e; simpl; congruence.
  - eapply List.Forall_impl; [|exact Hq]. intros [e o f] H.
    unfold survives. simpl in *. destruct e; simpl; congruence.
Qed.

Lemma run_callback_split (e : event) (x : Execution) (reg : gmap N TerminalInfo) (f : listener) :
  run_callback e (x, reg) f = (execEffect e x f, registryEffect reg f).
Proof. destruct f; reflexivity. Qed.

Lemma run_callbacks_split (e : event) (fs : list listener) (x : Execution)
  (reg : gmap N TerminalInfo) :
  fold_left (run_callback e) fs (x, reg)
  = (fold_left (execEffect e) fs x, fold_left registryEffect fs reg).
Proof.
  revert x reg. induction fs as [|f fs IH]; intros x reg; [reflexivity|].
  simpl. rewrite run_callback_split. apply IH.
Qed.

Lemma run_emissions_quiet (l : list emission) (st : Execution * gmap N TerminalInfo) :
  Forall calledNobody l -> run_emissions l st = st.
Proof.
  unfold run_emissions. induction 1 as [|m l Hm Hl IH]; [reflexivity|].
  simpl. unfold run_emission at 2. rewrite Hm. exact IH.
Qed.

Lemma run_emissions_app (l1 l2 : list emission) (st : Execution * gmap N TerminalInfo) :
  run_emissions (l1 ++ l2) st = run_emissions l2 (run_emissions l1 st).
Proof. unfold run_emissions. apply fold_left_app. Qed.

(** The callbacks an event reaches among the listeners of [runCommand]. *)
Lemma managed_callbacks (tid : N) (l : list registration) (n : event_name) :
  incl l [onCompleted tid; onContinue; onError] ->
  Forall (fun f => match n with
                   | on_line => False
                   | on_completed => f = SetIdle tid
                   | on_continue => f = ResolvePromise
                   | on_error => f = RejectPromise
                   end)
    (List.map reg_callback (List.filter (hits n) l)).
Proof.
  induction l as [|r l IH]; intros Hl; [constructor|].
  assert (Hr : In r [onCompleted tid; onContinue; onError]) by (apply Hl; now left).
  assert (Hl' : incl l [onCompleted tid; onContinue; onError]).
  { intros a Ha. apply Hl. now right. }
  specialize (IH Hl').
  destruct Hr as [<-|[<-|[<-|[]]]]; destruct n; simpl; try exact IH;
    constructor; auto.
Qed.

Lemma managed_quiet (tid : N) (l : list registration) :
  incl l [onCompleted tid; onContinue; onError] -> quiet l.
Proof.
  intros Hl. apply List.Forall_forall. intros r Hr. apply Hl in Hr.
  destruct Hr as [<-|[<-|[<-|[]]]]; discriminate.
Qed.

Lemma settle_idempotent (f : promise -> promise) (x : Execution) :
  (forall q, f (f q) = f q) -> settle f (settle f x) = settle f x.
Proof. intros H. unfold settle. simpl. now rewrite H. Qed.

Lemma fold_SetIdle_exec (e : event) (tid : N) (fs : list listener) (x : Execution) :
  Forall (fun f => f = SetIdle tid) fs -> fold_left (execEffect e) fs x = x.
Proof.
  induction 1 as [|f fs -> Hfs IH]; [reflexivity|]. simpl. exact IH.
Qed.

Lemma fold_Resolve_exec (e : event) (fs : list listener) (x : Execution) :
  Forall (fun f => f = ResolvePromise) fs -> fs <> [] ->
  fold_left (execEffect e) fs x = settle resolve x.
Proof.
  intros H. revert x. induction H as [|f fs -> Hfs IH]; intros x Hne; [contradiction|].
  simpl. destruct fs as [|g fs]; [reflexivity|].
  rewrite IH by discriminate. unfold execEffect. simpl.
  apply settle_idempotent. now intros [].
Qed.

Lemma fold_Reject_exec (m : jsstring) (fs : list listener) (x : Execution) :
  Forall (fun f => f = RejectPromise) fs -> fs <> [] ->
  fold_left (execEffect (Error m)) fs x = settle (reject m) x.
Proof.
  intros H. revert x. induction H as [|f fs -> Hfs IH]; intros x Hne; [contradiction|].
  simpl. destruct fs as [|g fs]; [reflexivity|].
  rewrite IH by discriminate. unfold execEffect. simpl.
  apply settle_idempotent. now intros [].
Qed.

Lemma fold_settling_registry (fs : list listener) (reg : gmap N TerminalInfo) :
  Forall (fun f => f = ResolvePromise \/ f = RejectPromise) fs ->
  fold_left registryEffect fs reg = reg.
Proof.
  induction 1 as [|f fs Hf Hfs IH]; [reflexivity|].
  simpl. destruct Hf as [->| ->]; exact IH.
Qed.

End EmitterFacts.

Lemma emit_eq (e : event) (p : TerminalProcess) :
  emit e p
  = (tt, set_listeners (List.filter (survives (name_of e)) (listeners p)) p,
     [Emission e (List.map reg_callback (List.filter (hits (name_of e)) (listeners p)))]).
Proof. reflexivity. Qed.

Lemma survivors_incl (n : event_name) (l : list registration) :
  incl (List.filter (survives n) l) l.
Proof. intros r Hr. apply filter_In in Hr. tauto. Qed.

Lemma survivor_other (n : event_name) (r : registration) (l : list registration) :
  reg_event r <> n -> In r l -> In r (List.filter (survives n) l).
Proof.
  intros Hn Hr. apply filter_In. split; [exact Hr|].
  unfold survives. destruct r as [e o f]. simpl in *.
  destruct e, n; simpl; congruence.
Qed.

Lemma hit_callback (n : event_name) (r : registration) (l : list registration) :
  reg_event r = n -> In r l ->
  In (reg_callback r) (List.map reg_callback (List.filter (hits n) l)).
Proof.
  intros Hn Hr. apply in_map, filter_In. split; [exact Hr|].
  unfold hits. rewrite Hn. now destruct n.
Qed.

Section ManagedHandler.

Variable stripAnsi : jsstring -> jsstring.
Variable toLowerCase : jsstring -> jsstring.

Lemma quiet_processOutput (now : Z) (data : jsstring) (p : TerminalProcess) :
  quiet (listeners p) ->
  listeners (state_of (processOutput toLowerCase now data p)) = listeners p
  /\ Forall calledNobody (log_of (processOutput toLowerCase now data p)).
Proof.
  intros Hq. unfold processOutput, updateHotState. eff_unfold.
  destruct (JS.truthy (JS.trim data)); cbn -[emit]; [|auto].
  destruct (JS.truthy (sanitizeOutput data)); cbn -[emit]; [|auto].
  destruct (isListening p); cbn -[emit]; [|auto].
  rewrite quiet_emit_line by exact Hq. cbn. split; [reflexivity|].
  repeat constructor.
Qed.

Lemma quiet_forEach (now : Z) (lines : list jsstring) (p : TerminalProcess) :
  quiet (listeners p) ->
  listeners (state_of (forEach lines (processOutput toLowerCase now) p)) = listeners p
  /\ Forall calledNobody (log_of (forEach lines (processOutput toLowerCase now) p)).
Proof.
  revert p. induction lines as [|a l IH]; intros p Hq; [simpl; auto|].
  destruct (quiet_processOutput now a p Hq) as [H1 H2].
  simpl. eff_unfold.
  destruct (processOutput toLowerCase now a p) as [[[] q] lg]. simpl in *.
  assert (Hq' : quiet (listeners q)) by now rewrite H1.
  destruct (IH q Hq') as [H3 H4].
  destruct (forEach l (processOutput toLowerCase now) q) as [[[] q'] lg']. simpl in *.
  split; [congruence|]. apply Forall_app. auto.
Qed.

(** The handler stays subscribed: the listeners are as they were, nobody
    was called and the markers are the same. *)
Lemma quiet_handler_open (now : Z) (data : jsstring) (c c' : Capture) (p : TerminalProcess) :
  quiet (listeners p) ->
  value_of (outputHandler stripAnsi toLowerCase now data c p) = Some c' ->
  listeners (state_of (outputHandler stripAnsi toLowerCase now data c p)) = listeners p
  /\ Forall calledNobody (log_of (outputHandler stripAnsi toLowerCase now data c p))
  /\ startMarker c' = startMarker c /\ endMarker c' = endMarker c.
Proof.
  intros Hq. unfold outputHandler.
  destruct (JS.includes (stripAnsi data) (startMarker c)).
  { intros [= <-]. simpl. auto. }
  destruct (JS.includes (stripAnsi data) (endMarker c)).
  { unfold emit. eff_unfold. destruct (JS.truthy (outputBuffer c));
      [destruct (processOutput toLowerCase now (outputBuffer c) p) as [[[] ?] ?]|];
      simpl; discriminate. }
  destruct (outputStarted c); [|intros [= <-]; simpl; auto].
  destruct (1 <? length _)%nat.
  - destruct (quiet_forEach now
                (removelast (JS.split_nl (outputBuffer c ++ stripAnsi data))) p Hq)
      as [H1 H2].
    eff_unfold. destruct (forEach _ _ p) as [[[] q] lg]. simpl in *.
    intros [= <-]. rewrite app_nil_r. auto.
  - intros [= <-]. simpl. auto.
Qed.

(** The handler sees the end marker: after events that reach nobody, it
    emits [completed] and [continue] to the listeners registered. *)
Lemma quiet_handler_end (now : Z) (data : jsstring) (c : Capture) (p : TerminalProcess) :
  quiet (listeners p) ->
  JS.includes (stripAnsi data) (startMarker c) = false ->
  JS.includes (stripAnsi data) (endMarker c) = true ->
  exists (q : TerminalProcess) (lg : list emission),
    Forall calledNobody lg
    /\ outputHandler stripAnsi toLowerCase now data c p
       = (None,
          set_listeners
            (List.filter (survives on_continue)
               (List.filter (survives on_completed) (listeners p))) q,
          lg ++ [Emission Completed
                   (List.map reg_callback (List.filter (hits on_completed) (listeners p)));
                 Emission Continue
                   (List.map reg_callback
                      (List.filter (hits on_continue)
                         (List.filter (survives on_completed) (listeners p))))]).
Proof.
  intros Hq H1 H2. unfold outputHandler. rewrite H1, H2.
  set (pre := when (JS.truthy (outputBuffer c))
                (processOutput toLowerCase now (outputBuffer c))).
  assert (Hpre : listeners (state_of (pre p)) = listeners p
                 /\ Forall calledNobody (log_of (pre p))).
  { unfold pre, when. destruct (JS.truthy (outputBuffer c)).
    - apply quiet_processOutput, Hq.
    - simpl. auto. }
  clearbody pre. destruct Hpre as [Hl Hlog].
  unfold mbind, Eff_bind, mret, Eff_ret. unfold state_of, log_of in *.
  destruct (pre p) as [[[] q] lg]. cbn [fst snd] in *.
  rewrite !emit_eq. cbn [name_of listeners set_listeners]. rewrite Hl.
  exists q, lg. split; [exact Hlog|]. rewrite app_nil_r. reflexivity.
Qed.

(** A handler that returns no closure has seen the end marker. *)
Lemma handler_disposed (now : Z) (data : jsstring) (c : Capture) (p : TerminalProcess) :
  value_of (outputHandler stripAnsi toLowerCase now data c p) = None ->
  JS.includes (stripAnsi data) (startMarker c) = false
  /\ JS.includes (stripAnsi data) (endMarker c) = true.
Proof.
  unfold outputHandler.
  destruct (JS.includes (stripAnsi data) (startMarker c)); [discriminate|].
  destruct (JS.includes (stripAnsi data) (endMarker c)); [auto|].
  destruct (outputStarted c); [|discriminate].
  destruct (1 <? length _)%nat; [|discriminate].
  eff_unfold. destruct (forEach _ _ p) as [[[] ?] ?]. discriminate.
Qed.

End ManagedHandler.

Section Tracking.

Variable stripAnsi : jsstring -> jsstring.
Variable toLowerCase : jsstring -> jsstring.
Variable tid : N.
Variable command : jsstring.
Variables now t1 t2 : Z.

Local Abbreviation tracked := (tracks tid command now t1 t2).

Ltac exec_simpl :=
  cbn [exec_terminal exec_command exec_process exec_subscription exec_promise
       exec_cleanupTimeout set_process set_subscription set_cleanupTimeout settle
       listeners set_listeners fst snd].

Lemma submitted_tracks : tracked (submitted tid command now t1 t2).
Proof.
  unfold tracks, submitted, submittedProcess. cbn.
  split; [reflexivity|]. split; [reflexivity|]. split; [apply incl_refl|]. split.
  - intros _. split; [reflexivity|]. split; [right; left|right; right; left]; reflexivity.
  - intros c [= <-]. split; [reflexivity|]. split; [reflexivity|]. left. reflexivity.
Qed.

Lemma resolve_not_pending (q : promise) : resolve q <> Pending.
Proof. destruct q; discriminate. Qed.

Lemma reject_not_pending (m : jsstring) (q : promise) : reject m q <> Pending.
Proof. destruct q; discriminate. Qed.

(** The execution after the end-marker chunk: its handler is disposed of,
    and the promise is settled if a [continue] listener was reached. *)
Lemma receive_end (now' : Z) (data : jsstring) (x : Execution) (c : Capture)
  (reg : gmap N TerminalInfo) :
  tracked x ->
  exec_subscription x = Some c ->
  JS.includes (stripAnsi data) (startMarker c) = false ->
  JS.includes (stripAnsi data) (endMarker c) = true ->
  exists (q : TerminalProcess) (l : list registration) (settled : bool),
    incl l (listeners (exec_process x))
    /\ fst (receive stripAnsi toLowerCase tid now' data x reg)
       = (if settled then settle resolve else fun y => y)
           (set_process (set_listeners l q) (set_subscription None x))
    /\ (In onContinue (listeners (exec_process x)) -> settled = true).
Proof.
  intros (Ht & Hc & Hl & Hp & Hs) Hsub H1 H2.
  pose proof (managed_quiet tid _ Hl) as Hq.
  destruct (quiet_handler_end stripAnsi toLowerCase now' data c (exec_process x) Hq H1 H2)
    as (q & lg & Hlg & Hh).
  set (l1 := List.filter (survives on_completed) (listeners (exec_process x))) in *.
  set (l2 := List.filter (survives on_continue) l1) in *.
  assert (Hl1 : incl l1 (listeners (exec_process x))) by (unfold l1; apply survivors_incl).
  assert (Hl2 : incl l2 (listeners (exec_process x))).
  { unfold l2. eapply incl_tran; [apply survivors_incl|exact Hl1]. }
  unfold receive. rewrite Ht, N.eqb_refl, Hsub, Hh.
  unfold value_of, state_of, log_of. cbn [fst snd].
  rewrite run_emissions_app, (run_emissions_quiet lg) by exact Hlg.
  unfold run_emissions, run_emission. cbn [fold_left emitted called].
  rewrite !run_callbacks_split. cbn [fst].
  rewrite (fold_SetIdle_exec Completed tid
             (List.map reg_callback
                (List.filter (hits on_completed) (listeners (exec_process x)))))
    by (apply (managed_callbacks tid _ on_completed), Hl).
  pose proof (managed_callbacks tid l1 on_continue (incl_tran Hl1 Hl)) as Hres.
  cbv beta iota in Hres.
  destruct (List.map reg_callback (List.filter (hits on_continue) l1)) as [|f fs] eqn:E.
  - exists q, l2, false. split; [exact Hl2|]. split; [reflexivity|]. intros Hin.
    assert (Hin1 : In onContinue l1) by (apply survivor_other; [discriminate|exact Hin]).
    apply (hit_callback on_continue) in Hin1; [|reflexivity].
    rewrite E in Hin1. contradiction.
  - exists q, l2, true. split; [exact Hl2|].
    rewrite fold_Resolve_exec by (exact Hres || discriminate). auto.
Qed.

Lemma receive_tracks (t : N) (now' : Z) (data : jsstring) (x : Execution)
  (reg : gmap N TerminalInfo) :
  tracked x -> tracked (fst (receive stripAnsi toLowerCase t now' data x reg)).
Proof.
  intros Hx. pose proof Hx as (Ht & Hc & Hl & Hp & Hs).
  destruct (N.eqb_spec (exec_terminal x) t) as [Et|Et];
    [|unfold receive; destruct (N.eqb_spec (exec_terminal x) t); [contradiction|exact Hx]].
  rewrite Ht in Et. subst t.
  destruct (exec_subscription x) as [c|] eqn:Hsub;
    [|unfold receive; rewrite Hsub; destruct (exec_terminal x =? tid); exact Hx].
  destruct (Hs c eq_refl) as (Hs1 & Hs2 & Hs3).
  destruct (value_of (outputHandler stripAnsi toLowerCase now' data c (exec_process x)))
    as [c'|] eqn:Hv.
  - pose proof (managed_quiet tid _ Hl) as Hq.
    destruct (quiet_handler_open stripAnsi toLowerCase now' data c c' (exec_process x) Hq Hv)
      as (Hl' & Hlog & Hm1 & Hm2).
    unfold receive. rewrite Ht, N.eqb_refl, Hsub.
    rewrite run_emissions_quiet by exact Hlog. cbn [fst].
    unfold tracks. exec_simpl. rewrite Hl', Hv.
    split; [exact Ht|]. split; [exact Hc|]. split; [exact Hl|]. split; [exact Hp|].
    intros c0 [= <-]. split; [congruence|]. split; [congruence|exact Hs3].
  - apply handler_disposed in Hv. destruct Hv as [H1 H2].
    destruct (receive_end now' data x c reg Hx Hsub H1 H2)
      as (q & l & settled & Hlq & -> & Hres).
    assert (Hincl : incl l [onCompleted tid; onContinue; onError])
      by (eapply incl_tran; eassumption).
    destruct settled; unfold tracks; exec_simpl.
    + split; [exact Ht|]. split; [exact Hc|]. split; [exact Hincl|]. split.
      * intros Hpend. exfalso. exact (resolve_not_pending _ Hpend).
      * intros c0 [=].
    + split; [exact Ht|]. split; [exact Hc|]. split; [exact Hincl|]. split.
      * intros Hpend. destruct (Hp Hpend) as (_ & Hk & _).
        specialize (Hres Hk). discriminate.
      * intros c0 [=].
Qed.

(** The end-marker chunk fulfils a pending promise. *)
Lemma receive_fulfils (now' : Z) (data : jsstring) (x : Execution) (c : Capture)
  (reg : gmap N TerminalInfo) :
  tracked x ->
  exec_subscription x = Some c ->
  JS.includes (stripAnsi data) (startMarker c) = false ->
  JS.includes (stripAnsi data) (endMarker c) = true ->
  exec_promise x = Pending ->
  exec_promise (fst (receive stripAnsi toLowerCase tid now' data x reg)) = Fulfilled.
Proof.
  intros Hx Hsub H1 H2 Hpend.
  destruct (receive_end now' data x c reg Hx Hsub H1 H2)
    as (q & l & settled & Hlq & -> & Hres).
  destruct Hx as (_ & _ & _ & Hp & _). destruct (Hp Hpend) as (_ & Hk & _).
  rewrite (Hres Hk). exec_simpl. now rewrite Hpend.
Qed.

(** The execution and the registry once the timer of a tracked execution
    has come due. *)
Lemma timeout_tracked (now' : Z) (x : Execution) (reg : gmap N TerminalInfo) :
  tracked x ->
  let r := emit (Error (timeoutError (exec_command x))) (exec_process x) in
  let st := run_emissions (log_of r)
              (set_process (state_of r) (set_cleanupTimeout None x), reg) in
  tracked (fst st)
  /\ exec_subscription (fst st) = exec_subscription x
  /\ snd st = reg
  /\ (exec_promise x = Pending ->
      exec_promise (fst st) = Rejected (timeoutError command)).
Proof.
  intros (Ht & Hc & Hl & Hp & Hs). cbv zeta. rewrite emit_eq.
  unfold state_of, log_of. cbn [fst snd name_of].
  unfold run_emissions, run_emission. cbn [fold_left emitted called].
  rewrite run_callbacks_split. cbn [fst snd].
  pose proof (managed_callbacks tid _ on_error Hl) as Hrej. cbv beta iota in Hrej.
  rewrite fold_settling_registry
    by (eapply List.Forall_impl; [|exact Hrej]; intros f ->; now right).
  set (l' := List.filter (survives on_error) (listeners (exec_process x))).
  assert (Hl' : incl l' [onCompleted tid; onContinue; onError]).
  { unfold l'. eapply incl_tran; [apply survivors_incl|exact Hl]. }
  assert (Hsub' : forall c, exec_subscription x = Some c ->
            startMarker c = startMarker (run t1 t2)
            /\ endMarker c = endMarker (run t1 t2) /\ In (onCompleted tid) l').
  { intros c Hsub. destruct (Hs c Hsub) as (? & ? & Hin). repeat split; auto.
    apply survivor_other; [discriminate|exact Hin]. }
  destruct (List.map reg_callback
              (List.filter (hits on_error) (listeners (exec_process x)))) as [|f fs] eqn:E.
  - exec_simpl. split; [|split; [reflexivity|split; [reflexivity|]]].
    + unfold tracks. exec_simpl. split; [exact Ht|]. split; [exact Hc|]. split; [exact Hl'|].
      split; [|exact Hsub'].
      intros Hpend. exfalso. destruct (Hp Hpend) as (_ & _ & He).
      apply (hit_callback on_error) in He; [|reflexivity]. rewrite E in He. contradiction.
    + intros Hpend. exfalso. destruct (Hp Hpend) as (_ & _ & He).
      apply (hit_callback on_error) in He; [|reflexivity]. rewrite E in He. contradiction.
  - rewrite fold_Reject_exec by (exact Hrej || discriminate).
    exec_simpl. split; [|split; [reflexivity|split; [reflexivity|]]].
    + unfold tracks. exec_simpl. split; [exact Ht|]. split; [exact Hc|]. split; [exact Hl'|].
      split; [|exact Hsub'].
      intros Hpend. exfalso. exact (reject_not_pending _ _ Hpend).
    + intros Hpend. rewrite Hpend, Hc. reflexivity.
Qed.

Lemma deliver_heap_lookup (t : N) (now' : Z) (data : jsstring) (h : list Execution) :
  forall (reg : gmap N TerminalInfo) (i : nat) (x : Execution),
  h !! i = Some x ->
  exists reg',
    fst (deliver_heap stripAnsi toLowerCase t now' data h reg) !! i
    = Some (fst (receive stripAnsi toLowerCase t now' data x reg')).
Proof.
  induction h as [|y h IH]; intros reg i x Hi; [discriminate|].
  destruct i as [|i]; simpl in *.
  - injection Hi as ->. eauto.
  - apply IH. exact Hi.
Qed.

Lemma step_tracks (w : World) (i : input) (handle : nat) (x : Execution) :
  heap w !! handle = Some x -> tracked x ->
  exists x', heap (step stripAnsi toLowerCase w i) !! handle = Some x' /\ tracked x'.
Proof.
  intros Hx Ht. destruct i as [t now' data|j now']; cbn [step].
  - unfold deliver. cbn [heap].
    destruct (deliver_heap_lookup t now' data (heap w) (registry w) handle x Hx)
      as [reg' ->].
    eexists. split; [reflexivity|]. apply receive_tracks, Ht.
  - unfold fireTimeout. destruct (heap w !! j) as [y|] eqn:Hy; [|eauto].
    destruct (exec_cleanupTimeout y) as [due|]; [|eauto].
    destruct (due <=? now')%Z; [|eauto]. cbn [heap].
    destruct (decide (j = handle)) as [->|Hne].
    + rewrite Hx in Hy. injection Hy as <-.
      rewrite list_lookup_insert_eq by (eapply lookup_lt_Some; eassumption).
      eexists. split; [reflexivity|].
      apply (timeout_tracked now' x (registry w) Ht).
    + rewrite list_lookup_insert_ne by exact Hne. eauto.
Qed.

Lemma steps_tracks (inputs : list input) :
  forall (w : World) (handle : nat) (x : Execution),
  heap w !! handle = Some x -> tracked x ->
  exists x', heap (fold_left (step stripAnsi toLowerCase) inputs w) !! handle = Some x'
    /\ tracked x'.
Proof.
  induction inputs as [|i inputs IH]; intros w handle x Hx Ht; [eauto|].
  destruct (step_tracks w i handle x Hx Ht) as (x' & Hx' & Ht').
  simpl. eapply IH; eassumption.
Qed.

Lemma step_present (t : N) (w : World) (i : input) :
  present t (registry w) -> present t (registry (step stripAnsi toLowerCase w i)).
Proof.
  intros H. destruct i as [t' now' data|j now']; cbn [step].
  - apply deliver_heap_present, H.
  - unfold fireTimeout. destruct (heap w !! j) as [y|]; [|exact H].
    destruct (exec_cleanupTimeout y) as [due|]; [|exact H].
    destruct (due <=? now')%Z; [|exact H]. cbn [registry].
    apply emissions_present, H.
Qed.

Lemma steps_present (t : N) (inputs : list input) :
  forall w, present t (registry w) ->
  present t (registry (fold_left (step stripAnsi toLowerCase) inputs w)).
Proof.
  induction inputs as [|i inputs IH]; intros w H; [exact H|].
  simpl. apply IH, step_present, H.
Qed.

Lemma runCommand_heap (w : World) :
  heap (runCommand tid command now t1 t2 w) = heap w ++ [submitted tid command now t1 t2].
Proof. reflexivity. Qed.

Lemma runCommand_busy (w : World) (info : TerminalInfo) :
  registry w !! tid = Some info ->
  busyOf (runCommand tid command now t1 t2 w) tid = Some true.
Proof.
  intros H. unfold busyOf, runCommand. cbn [registry].
  rewrite lookup_alter_eq, H. reflexivity.
Qed.

End Tracking.

(** * The claims on the sample runs *)

(** ** sanitizeOutput *)

(** C5, as stated, fails: the printable character U+00E9 (e with an acute
    accent) at the end of the word is removed, not preserved. *)
Lemma sanitizeOutput_strips_printable_unicode :
  sanitizeOutput (JS.lit "caf" ++ [233]) = JS.lit "caf".
Proof. reflexivity. Qed.

Lemma sanitizeOutput_keeps_printable_ascii_only_witness :
  JS.wf (JS.lit "  caf" ++ [233; 13; 10] ++ JS.lit "ok ")
  /\ sanitizeOutput (JS.lit "  caf" ++ [233; 13; 10] ++ JS.lit "ok ")
     = JS.lit "caf" ++ [10] ++ JS.lit "ok".
Proof.
  assert (Hwf : JS.wf (JS.lit "  caf" ++ [233; 13; 10] ++ JS.lit "ok ")).
  { unfold JS.wf. repeat (constructor; [reflexivity|]). constructor. }
  split; [exact Hwf|].
  rewrite (proj1 (sanitizeOutput_keeps_printable_ascii_only _ Hwf)). reflexivity.
Defined.

(** ** getUnretrievedOutput *)


(** ** continue() *)

(** C4. The claim fails on the code. A command is run at clock reading
    1000; the terminal writes the start-marker chunk and then ["par"],
    with no newline, and the caller detaches with [continue()]. The
    process is listening and the partial line ["par"] is in flight, held
    by the data handler of [run] in its closure; [buffer], the field
    [continue()] flushes, is empty. [continue()] emits [continue] alone:
    no [line] event carries ["par"], [fullOutput] stays empty and a poll
    returns the empty string. When the end-marker chunk arrives later,
    ["par"] is appended to [fullOutput], with no [line] event any more. *)
Theorem continue_drops_the_partial_line_of_a_running_command :
  outputBuffer <$> value_of sampleMidLine = Some (JS.lit "par")
  /\ isListening (state_of sampleMidLine) = true
  /\ buffer (state_of sampleMidLine) = []
  /\ List.map emitted (log_of (continue_ (state_of sampleMidLine))) = [Continue]
  /\ fullOutput (state_of (continue_ (state_of sampleMidLine))) = []
  /\ value_of (getUnretrievedOutput (state_of (continue_ (state_of sampleMidLine)))) = []
  /\ List.map emitted
       (log_of
          (feed plainStripAnsi asciiToLowerCase
             (value_of sampleMidLine, state_of (continue_ (state_of sampleMidLine)))
             [(1003%Z, sampleEndChunk)]))
     = [Completed; Continue]
  /\ fullOutput
       (state_of
          (feed plainStripAnsi asciiToLowerCase
             (value_of sampleMidLine, state_of (continue_ (state_of sampleMidLine)))
             [(1003%Z, sampleEndChunk)]))
     = JS.lit "par" ++ [10].
Proof. repeat split. Qed.

(** ** The data handler *)

(** C2, as stated, fails: the same text, delivered in one chunk or in
    three, gives no [line] event in the first case and the event
    ["hello"] in the second. *)
Lemma chunk_boundaries_at_markers_matter :
  List.concat [sampleStartChunk ++ sampleHello ++ sampleEndChunk]
  = List.concat [sampleStartChunk; sampleHello; sampleEndChunk]
  /\ lines_of
       (log_of
          (feed plainStripAnsi asciiToLowerCase (Some sampleCapture, newTerminalProcess)
             [(1001%Z, sampleStartChunk ++ sampleHello ++ sampleEndChunk)]))
     = []
  /\ lines_of
       (log_of
          (feed plainStripAnsi asciiToLowerCase (Some sampleCapture, newTerminalProcess)
             [(1001%Z, sampleStartChunk); (1002%Z, sampleHello); (1003%Z, sampleEndChunk)]))
     = [JS.lit "hello"].
Proof. repeat split. Qed.

Lemma chunking_is_immaterial_between_markers_witness :
  noNewline (outputBuffer sampleCapturing) = true
  /\ forallb (markerFree plainStripAnsi sampleCapturing) sampleInThree = true
  /\ forallb (markerFree plainStripAnsi sampleCapturing) sampleInOne = true
  /\ strippedText plainStripAnsi sampleInThree = strippedText plainStripAnsi sampleInOne
  /\ lines_of
       (log_of
          (feed plainStripAnsi asciiToLowerCase (Some sampleCapturing, newTerminalProcess)
             sampleInThree))
     = lines_of
         (log_of
            (feed plainStripAnsi asciiToLowerCase (Some sampleCapturing, newTerminalProcess)
               sampleInOne)).
Proof.
  split; [reflexivity|]. split; [reflexivity|]. split; [reflexivity|].
  split; [reflexivity|].
  exact (proj1
           (chunking_is_immaterial_between_markers plainStripAnsi asciiToLowerCase
              sampleCapturing newTerminalProcess sampleInThree sampleInOne
              eq_refl eq_refl eq_refl eq_refl)).
Defined.

(** C3, as stated, fails: the chunk holds the start marker and then the
    output line ["hello"]; capture has not started. The handler turns
    capturing on and drops the whole chunk: no event, nothing in
    [fullOutput], nothing buffered. Had the text after the marker been
    captured, the line ["hello"] would have been emitted. *)
Lemma output_after_start_marker_is_lost :
  JS.includes (sampleStartChunk ++ sampleHello) (startMarker sampleCapture) = true
  /\ outputStarted sampleCapture = false
  /\ sampleStartChunk ++ sampleHello = startMarker sampleCapture ++ [10] ++ sampleHello
  /\ outputHandler plainStripAnsi asciiToLowerCase 1001 (sampleStartChunk ++ sampleHello)
       sampleCapture newTerminalProcess
     = (Some (set_outputStarted true sampleCapture), newTerminalProcess, [])
  /\ outputBuffer (set_outputStarted true sampleCapture) = []
  /\ fullOutput newTerminalProcess = []
  /\ lines_of
       (log_of
          (outputHandler plainStripAnsi asciiToLowerCase 1001 ([10] ++ sampleHello)
             (set_outputStarted true sampleCapture) newTerminalProcess))
     = [JS.lit "hello"].
Proof. repeat split. Qed.

Lemma start_marker_chunk_is_discarded_whole_witness :
  JS.includes (plainStripAnsi (sampleStartChunk ++ sampleHello)) (startMarker sampleCapture)
  = true
  /\ outputHandler plainStripAnsi asciiToLowerCase 1001 (sampleStartChunk ++ sampleHello)
       sampleCapture newTerminalProcess
     = (Some (set_outputStarted true sampleCapture), newTerminalProcess, []).
Proof.
  split; [reflexivity|].
  exact (start_marker_chunk_is_discarded_whole plainStripAnsi asciiToLowerCase 1001
           (sampleStartChunk ++ sampleHello) sampleCapture newTerminalProcess eq_refl).
Defined.

(** C8, as stated, fails: while ["par"] is buffered, the terminal writes
    a chunk that holds both markers (the wrapped command text itself).
    The chunk contains the end marker, yet the buffered fragment is not
    processed and neither [completed] nor [continue] is emitted: the
    handler stays subscribed with the fragment still buffered. *)
Lemma chunk_with_both_markers_emits_no_signal :
  outputBuffer <$> value_of sampleMidLine = Some (JS.lit "par")
  /\ JS.includes (wrappedCommand sampleCapture sampleCommand) (endMarker sampleCapture) = true
  /\ feed1 plainStripAnsi asciiToLowerCase (value_of sampleMidLine, state_of sampleMidLine)
       (1003%Z, wrappedCommand sampleCapture sampleCommand)
     = (value_of sampleMidLine, state_of sampleMidLine, []).
Proof. repeat split. Qed.

Lemma end_marker_chunk_flushes_buffer_only_witness :
  JS.includes (plainStripAnsi sampleEndChunk) (startMarker sampleCapture) = false
  /\ JS.includes (plainStripAnsi sampleEndChunk) (endMarker sampleCapture) = true
  /\ List.map emitted
       (log_of
          (outputHandler plainStripAnsi asciiToLowerCase 1003 sampleEndChunk
             (set_outputBuffer (JS.lit "par") (set_outputStarted true sampleCapture))
             newTerminalProcess))
     = [Line (JS.lit "par"); Completed; Continue].
Proof.
  split; [reflexivity|]. split; [reflexivity|].
  exact (proj1 (proj2 (proj2
           (end_marker_chunk_flushes_buffer_only plainStripAnsi asciiToLowerCase 1003
              sampleEndChunk
              (set_outputBuffer (JS.lit "par") (set_outputStarted true sampleCapture))
              newTerminalProcess eq_refl eq_refl)))).
Defined.

(** ** runCommand *)

(** C1, as stated, fails: the command is submitted at clock reading 1000
    and nothing is written; when the timer fires at 31000 the handle is
    rejected with the timeout error and the session is still busy. *)
Lemma session_stays_busy_after_timeout :
  busyOf sampleWorld 1 = Some false
  /\ promiseOf (fireTimeout 0 31000 sampleSubmitted) 0
     = Some (Rejected (JS.lit "Command execution timeout: sleep 60"))
  /\ busyOf (fireTimeout 0 31000 sampleSubmitted) 1 = Some true.
Proof. repeat split. Qed.


(** * Further properties *)

(** ** Sanitizers, again *)

Lemma trimStart_fixed (s : jsstring) :
  (forall c r, s = c :: r -> JS.isSpace c = false) -> JS.trimStart s = s.
Proof.
  destruct s as [|c r]; [reflexivity|]. intros H. simpl.
  rewrite (H c r eq_refl). reflexivity.
Qed.

Lemma trimEnd_fixed (s : jsstring) :
  (forall r c, s = r ++ [c] -> JS.isSpace c = false) -> JS.trimEnd s = s.
Proof.
  induction s as [|c r IH]; [reflexivity|]. intros H. simpl.
  destruct r as [|d r'].
  - simpl. rewrite (H [] c eq_refl). reflexivity.
  - rewrite IH; [reflexivity|].
    intros r0 c0 E. apply (H (c :: r0) c0). rewrite E. reflexivity.
Qed.

Lemma trim_fixed (s : jsstring) :
  (forall c r, s = c :: r -> JS.isSpace c = false) ->
  (forall r c, s = r ++ [c] -> JS.isSpace c = false) ->
  JS.trim s = s.
Proof.
  intros H1 H2. unfold JS.trim. rewrite (trimStart_fixed s H1). apply trimEnd_fixed, H2.
Qed.

Lemma trim_idempotent (s : jsstring) : JS.trim (JS.trim s) = JS.trim s.
Proof.
  destruct (trim_spec s) as (_ & H1 & H2). apply trim_fixed; assumption.
Qed.

Lemma trim_Forall (P : N -> Prop) (s : jsstring) : Forall P s -> Forall P (JS.trim s).
Proof.
  intros H. destruct (trim_spec s) as ((pre & post & E & _) & _).
  rewrite E in H. apply Forall_app in H as [_ H]. apply Forall_app in H as [H _]. exact H.
Qed.

Lemma replace_LINE_ENDINGS_no_CR (s : jsstring) :
  Forall (fun c => c <> 13) s -> Regexes.replace_LINE_ENDINGS s = s.
Proof.
  induction s as [|c t IH]; [reflexivity|]. intros H.
  apply Forall_cons in H as [Hc Ht].
  destruct t as [|d r]; [reflexivity|].
  rewrite replace_LINE_ENDINGS_cons2.
  destruct (N.eqb_spec c 13) as [->|_]; [congruence|]. simpl andb. cbv iota.
  f_equal. apply IH, Ht.
Qed.

Lemma sanitizeOutput_clean (s : jsstring) :
  Forall (fun c => Regexes.NON_ASCII_CONTROL c = false) (sanitizeOutput s).
Proof.
  unfold sanitizeOutput. apply trim_Forall.
  unfold Regexes.remove_NON_ASCII_CONTROL.
  apply List.Forall_forall. intros c Hc. apply filter_In in Hc as [_ Hc].
  apply negb_true_iff in Hc. exact Hc.
Qed.

Lemma sanitizeOutput_fixed (s : jsstring) :
  Forall (fun c => Regexes.NON_ASCII_CONTROL c = false) s ->
  JS.trim s = s ->
  sanitizeOutput s = s.
Proof.
  intros Hc Ht. unfold sanitizeOutput.
  rewrite replace_LINE_ENDINGS_no_CR.
  2:{ eapply List.Forall_impl; [|exact Hc]. intros c H ->. discriminate H. }
  unfold Regexes.remove_STANDALONE_CR, Regexes.remove_NON_ASCII_CONTROL.
  rewrite (filter_all_true (fun c => negb (c =? 13)) s).
  2:{ eapply List.Forall_impl; [|exact Hc]. intros c H. cbv beta.
      destruct (N.eqb_spec c 13) as [->|_]; [discriminate H|reflexivity]. }
  rewrite filter_all_true; [exact Ht|].
  eapply List.Forall_impl; [|exact Hc]. intros c H. cbv beta. rewrite H. reflexivity.
Qed.

Lemma sanitizeOutput_idempotent (s : jsstring) :
  sanitizeOutput (sanitizeOutput s) = sanitizeOutput s.
Proof.
  apply sanitizeOutput_fixed; [apply sanitizeOutput_clean|].
  unfold sanitizeOutput. apply trim_idempotent.
Qed.

(** X1. [sanitizeOutput] is idempotent, and the strings it leaves
    unchanged are exactly those that hold no code unit of the class
    NON_ASCII_CONTROL and that [trim] leaves unchanged. *)
Theorem sanitizeOutput_fixed_points (s : jsstring) :
  sanitizeOutput (sanitizeOutput s) = sanitizeOutput s
  /\ (sanitizeOutput s = s
      <-> Forall (fun c => Regexes.NON_ASCII_CONTROL c = false) s /\ JS.trim s = s).
Proof.
  split; [apply sanitizeOutput_idempotent|]. split.
  - intros E. split.
    + rewrite <- E. apply sanitizeOutput_clean.
    + rewrite <- E. unfold sanitizeOutput. apply trim_idempotent.
  - intros [Hc Ht]. apply sanitizeOutput_fixed; assumption.
Qed.

Lemma noNewline_Forall (s : jsstring) :
  noNewline s = true <-> Forall (fun c => c <> 10) s.
Proof.
  unfold noNewline. rewrite forallb_forall, List.Forall_forall.
  split; intros H c Hc; specialize (H c Hc).
  - intros ->. discriminate H.
  - destruct (N.eqb_spec c 10); [contradiction|reflexivity].
Qed.

Lemma split_nl_pieces (s : jsstring) :
  Forall (fun l => noNewline l = true) (JS.split_nl s).
Proof.
  induction s as [|c r IH]; [repeat constructor|].
  rewrite split_nl_cons. destruct (N.eqb_spec c 10) as [->|Hc].
  - constructor; [reflexivity|exact IH].
  - destruct (JS.split_nl r) as [|h t]; simpl.
    + repeat constructor. simpl. destruct (N.eqb_spec c 10); [contradiction|reflexivity].
    + apply Forall_cons in IH as [Hh Ht]. constructor; [|exact Ht].
      simpl. destruct (N.eqb_spec c 10); [contradiction|exact Hh].
Qed.

Lemma remove_PROMPT_CHARS_Forall (P : N -> Prop) (s : jsstring) :
  Forall P s -> Forall P (Regexes.remove_PROMPT_CHARS s).
Proof.
  induction s as [|c r IH]; intros H; [constructor|].
  apply Forall_cons in H as [Hc Hr]. simpl.
  destruct (Regexes.promptChar c && forallb JS.isSpace r); [constructor|].
  constructor; [exact Hc|apply IH, Hr].
Qed.

Lemma filter_Forall {A : Type} (P : A -> Prop) (f : A -> bool) (l : list A) :
  Forall P l -> Forall P (List.filter f l).
Proof.
  intros H. apply List.Forall_forall. intros a Ha. apply filter_In in Ha as [Ha _].
  revert a Ha. apply List.Forall_forall, H.
Qed.

(** One line as [sanitizeLines] maps it. *)
Lemma sanitizedLine_facts (line : jsstring) :
  let l := JS.trim
             (Regexes.remove_NON_ASCII_CONTROL (Regexes.remove_PROMPT_CHARS line)) in
  JS.trim l = l
  /\ Forall (fun c => Regexes.NON_ASCII_CONTROL c = false) l
  /\ (noNewline line = true -> noNewline l = true).
Proof.
  cbv zeta. split; [apply trim_idempotent|]. split.
  - apply trim_Forall. unfold Regexes.remove_NON_ASCII_CONTROL.
    apply List.Forall_forall. intros c Hc. apply filter_In in Hc as [_ Hc].
    apply negb_true_iff in Hc. exact Hc.
  - rewrite !noNewline_Forall. intros H.
    apply trim_Forall, filter_Forall, remove_PROMPT_CHARS_Forall, H.
Qed.

Lemma sanitizeLines_facts (lines : list jsstring) :
  Forall sanitizedLine (sanitizeLines lines)
  /\ (Forall (fun l => noNewline l = true) lines ->
      Forall (fun l => noNewline l = true) (sanitizeLines lines)).
Proof.
  unfold sanitizeLines. induction lines as [|x r [IH1 IH2]]; [split; constructor|].
  cbn [List.map List.filter]. destruct (sanitizedLine_facts x) as (Ht & Hc & Hn).
  set (l := JS.trim (Regexes.remove_NON_ASCII_CONTROL (Regexes.remove_PROMPT_CHARS x))) in *.
  clearbody l. destruct l as [|c l].
  - simpl. split; [exact IH1|]. intros H. apply Forall_cons in H as [_ H]. apply IH2, H.
  - cbn [JS.truthy]. split.
    + constructor; [|exact IH1]. split; [discriminate|]. split; assumption.
    + intros H. apply Forall_cons in H as [Hx H]. constructor; [apply Hn, Hx|apply IH2, H].
Qed.

Lemma trimEnd_app_keep (x y : jsstring) :
  JS.trimEnd y <> [] -> JS.trimEnd (x ++ y) = x ++ JS.trimEnd y.
Proof.
  intros H. induction x as [|c r IH]; [reflexivity|].
  simpl. rewrite IH. destruct (r ++ JS.trimEnd y) as [|d t] eqn:E; [|reflexivity].
  apply app_eq_nil in E as [_ E]. contradiction.
Qed.

Lemma trimmed_trimEnd (l : jsstring) : JS.trim l = l -> JS.trimEnd l = l.
Proof.
  intros E. destruct (trim_spec l) as (_ & _ & H). rewrite E in H.
  apply trimEnd_fixed, H.
Qed.

Lemma join_nl_cons2 (x y : jsstring) (r : list jsstring) :
  JS.join_nl (x :: y :: r) = x ++ 10 :: JS.join_nl (y :: r).
Proof. reflexivity. Qed.

Lemma join_nl_trimEnd (ls : list jsstring) :
  Forall sanitizedLine ls -> JS.trimEnd (JS.join_nl ls) = JS.join_nl ls.
Proof.
  induction ls as [|x r IH]; [reflexivity|]. intros H.
  apply Forall_cons in H as [(Hne & Ht & _) Hr].
  destruct r as [|y r'].
  - simpl. apply trimmed_trimEnd, Ht.
  - rewrite join_nl_cons2. specialize (IH Hr).
    change (x ++ 10 :: JS.join_nl (y :: r')) with (x ++ [10] ++ JS.join_nl (y :: r')).
    rewrite app_assoc. rewrite trimEnd_app_keep; rewrite IH; [reflexivity|].
    apply Forall_cons in Hr as [(Hy & _) _].
    destruct r' as [|z r'']; [exact Hy|].
    rewrite join_nl_cons2. destruct y; [contradiction|discriminate].
Qed.

Lemma split_nl_line (x rest : jsstring) :
  noNewline x = true -> JS.split_nl (x ++ 10 :: rest) = x :: JS.split_nl rest.
Proof.
  induction x as [|c r IH]; intros H.
  - reflexivity.
  - simpl in H. apply andb_true_iff in H as [Hc Hr].
    change ((c :: r) ++ 10 :: rest) with (c :: (r ++ 10 :: rest)).
    rewrite split_nl_cons. apply negb_true_iff in Hc. rewrite Hc, (IH Hr). reflexivity.
Qed.

Lemma split_join_nl (ls : list jsstring) :
  ls <> [] -> Forall (fun l => noNewline l = true) ls ->
  JS.split_nl (JS.join_nl ls) = ls.
Proof.
  induction ls as [|x r IH]; [congruence|]. intros _ H.
  apply Forall_cons in H as [Hx Hr].
  destruct r as [|y r'].
  - simpl. apply split_nl_noNewline, Hx.
  - rewrite join_nl_cons2, (split_nl_line _ _ Hx). f_equal. apply IH; [discriminate|exact Hr].
Qed.

(** X2. [sanitizeRemainingBuffer] returns the non-empty sanitized lines
    of its argument joined by newlines: its final [trimEnd] removes
    nothing. Every line of the value is non-empty, has no white space at
    either end and holds neither a newline nor a code unit of
    NON_ASCII_CONTROL; split at the newlines, the value gives these lines
    back, and it is the empty string when there is none. *)
Theorem sanitizeRemainingBuffer_lines (output : jsstring) :
  let ls := sanitizeLines (JS.split_nl output) in
  sanitizeRemainingBuffer output = JS.join_nl ls
  /\ Forall (fun l => sanitizedLine l /\ noNewline l = true) ls
  /\ (ls = [] -> sanitizeRemainingBuffer output = [])
  /\ (ls <> [] -> JS.split_nl (sanitizeRemainingBuffer output) = ls).
Proof.
  cbv zeta. unfold sanitizeRemainingBuffer.
  destruct (sanitizeLines_facts (JS.split_nl output)) as [H1 H2].
  specialize (H2 (split_nl_pieces output)).
  rewrite (join_nl_trimEnd _ H1).
  split; [reflexivity|]. split.
  - apply List.Forall_forall. intros l Hl. split.
    + revert l Hl. apply List.Forall_forall, H1.
    + revert l Hl. apply List.Forall_forall, H2.
  - split.
    + intros ->. reflexivity.
    + intros Hne. apply split_join_nl; assumption.
Qed.

(** ** What the data handler records *)

Lemma recordedText_app (l1 l2 : list jsstring) :
  recordedText (l1 ++ l2) = recordedText l1 ++ recordedText l2.
Proof. unfold recordedText. rewrite List.map_app, List.concat_app. reflexivity. Qed.

Lemma records_ret {A : Type} (a : A) : records (mret a) [] [] a.
Proof.
  intros p. cbn. rewrite app_nil_r. destruct (isListening p); repeat split; reflexivity.
Qed.

Lemma records_pure {A : Type} (m : Eff A) (a : A) :
  (forall p, m p = (a, p, [])) -> records m [] [] a.
Proof.
  intros H p. rewrite H. cbn. rewrite app_nil_r.
  destruct (isListening p); repeat split; reflexivity.
Qed.

Lemma records_bind {A B : Type} (m : Eff A) (k : A -> Eff B)
  (rec1 rec2 : list jsstring) (final : list event) (a : A) (b : B) :
  records m rec1 [] a -> records (k a) rec2 final b ->
  records (m ≫= k) (rec1 ++ rec2) final b.
Proof.
  intros H1 H2 p. specialize (H1 p).
  unfold mbind, Eff_bind, state_of, value_of, log_of in *.
  destruct (m p) as [[a' p1] l1]. cbn [fst snd] in H1.
  destruct H1 as (-> & Hf1 & He1 & Hb1 & Hl1 & Hc1).
  specialize (H2 p1). unfold state_of, value_of, log_of in H2.
  destruct (k a p1) as [[b' p2] l2]. cbn [fst snd] in *.
  destruct H2 as (-> & Hf2 & He2 & Hb2 & Hl2 & Hc2).
  rewrite Hl1 in He2.
  repeat split; try congruence.
  - rewrite Hf2, Hf1, recordedText_app, app_assoc. reflexivity.
  - rewrite List.map_app, He1, He2, app_nil_r.
    destruct (isListening p); [rewrite List.map_app, app_assoc|]; reflexivity.
Qed.

Lemma records_emit_final (e : event) :
  name_of e <> on_line -> records (emit e) [] [e] tt.
Proof.
  intros _ p. rewrite emit_eq. unfold state_of, value_of, log_of, recordedText. cbn.
  rewrite app_nil_r. destruct (isListening p); repeat split; reflexivity.
Qed.

Lemma records_final_app {A B : Type} (m : Eff A) (k : A -> Eff B)
  (rec : list jsstring) (f1 f2 : list event) (a : A) (b : B) :
  records m rec f1 a -> records (k a) [] f2 b ->
  records (m ≫= k) rec (f1 ++ f2) b.
Proof.
  intros H1 H2 p. specialize (H1 p).
  unfold mbind, Eff_bind, state_of, value_of, log_of in *.
  destruct (m p) as [[a' p1] l1]. cbn [fst snd] in H1.
  destruct H1 as (-> & Hf1 & He1 & Hb1 & Hl1 & Hc1).
  specialize (H2 p1). unfold state_of, value_of, log_of in H2.
  destruct (k a p1) as [[b' p2] l2]. cbn [fst snd] in *.
  destruct H2 as (-> & Hf2 & He2 & Hb2 & Hl2 & Hc2).
  repeat split; try congruence.
  - rewrite Hf2, Hf1. unfold recordedText. cbn. rewrite app_nil_r. reflexivity.
  - rewrite List.map_app, He1, He2.
    replace (List.map Line (if isListening p1 then [] else [])) with (@nil event)
      by (destruct (isListening p1); reflexivity).
    cbn. rewrite app_assoc. reflexivity.
Qed.

Section Recording.

Variable stripAnsi : jsstring -> jsstring.
Variable toLowerCase : jsstring -> jsstring.

Lemma processOutput_records (now : Z) (data : jsstring) :
  records (processOutput toLowerCase now data) (recordedFor data) [] tt.
Proof.
  intros p.
  pose proof (processOutput_fullOutput toLowerCase now data p) as Hf.
  pose proof (processOutput_events toLowerCase now data p) as He.
  pose proof (processOutput_frame toLowerCase now data p) as Hfr. cbv zeta in Hfr.
  destruct Hfr as (Hb & Hl & Hc).
  split; [destruct (value_of _); reflexivity|].
  split.
  - rewrite Hf. unfold appendedFor, recordedFor, recordedText.
    destruct (JS.truthy (sanitizeOutput data)); cbn; rewrite ?app_nil_r; reflexivity.
  - split; [|repeat split; assumption].
    rewrite He, app_nil_r. unfold recordedFor.
    destruct (JS.truthy (sanitizeOutput data)), (isListening p); reflexivity.
Qed.

Lemma forEach_records (now : Z) (lines : list jsstring) :
  records (forEach lines (processOutput toLowerCase now))
    (List.concat (List.map recordedFor lines)) [] tt.
Proof.
  induction lines as [|x r IH]; [apply records_ret|].
  cbn [forEach List.map List.concat].
  eapply records_bind; [apply processOutput_records|exact IH].
Qed.

Lemma recordedFor_ok (data : jsstring) :
  Forall (fun l => l <> [] /\ sanitizeOutput l = l) (recordedFor data).
Proof.
  unfold recordedFor. destruct (JS.truthy (sanitizeOutput data)) eqn:E; constructor; [|constructor].
  split; [|apply sanitizeOutput_idempotent].
  intros H. rewrite H in E. discriminate E.
Qed.

Lemma recordedFor_all_ok (lines : list jsstring) :
  Forall (fun l => l <> [] /\ sanitizeOutput l = l) (List.concat (List.map recordedFor lines)).
Proof.
  induction lines as [|x r IH]; [constructor|].
  cbn [List.map List.concat]. apply Forall_app. split; [apply recordedFor_ok|exact IH].
Qed.

Lemma outputHandler_records (now : Z) (data : jsstring) (c : Capture) :
  exists rec v,
    records (outputHandler stripAnsi toLowerCase now data c) rec (closing (Some c) v) v
    /\ Forall (fun l => l <> [] /\ sanitizeOutput l = l) rec.
Proof.
  unfold outputHandler. cbv zeta.
  destruct (JS.includes (stripAnsi data) (startMarker c)).
  { exists [], (Some (set_outputStarted true c)). split; [apply records_ret|constructor]. }
  destruct (JS.includes (stripAnsi data) (endMarker c)).
  { exists (if JS.truthy (outputBuffer c) then recordedFor (outputBuffer c) else []), None.
    split.
    - change (closing (Some c) None) with ([] ++ ([Completed] ++ [Continue])).
      eapply records_final_app.
      + unfold when. destruct (JS.truthy (outputBuffer c));
          [apply processOutput_records|apply records_ret].
      + eapply records_final_app; [apply records_emit_final; discriminate|].
        change [Continue] with ([Continue] ++ []).
        eapply records_final_app; [apply records_emit_final; discriminate|apply records_ret].
    - destruct (JS.truthy (outputBuffer c)); [apply recordedFor_ok|constructor]. }
  destruct (outputStarted c).
  2:{ exists [], (Some c). split; [apply records_ret|constructor]. }
  destruct (1 <? length (JS.split_nl (outputBuffer c ++ stripAnsi data)))%nat.
  - exists (List.concat
              (List.map recordedFor
                 (removelast (JS.split_nl (outputBuffer c ++ stripAnsi data)))) ++ []),
      (Some (set_outputBuffer
               (List.last (JS.split_nl (outputBuffer c ++ stripAnsi data)) []) c)).
    split.
    + eapply records_bind; [apply forEach_records|apply records_ret].
    + rewrite app_nil_r. apply recordedFor_all_ok.
  - exists [], (Some (set_outputBuffer (outputBuffer c ++ stripAnsi data) c)).
    split; [apply records_ret|constructor].
Qed.

Lemma feed_records (chunks : list (Z * jsstring)) :
  forall sub : option Capture,
  exists rec v,
    records (fun p => feed stripAnsi toLowerCase (sub, p) chunks) rec (closing sub v) v
    /\ Forall (fun l => l <> [] /\ sanitizeOutput l = l) rec.
Proof.
  induction chunks as [|[now data] rest IH]; intros sub.
  - exists [], sub. split; [|constructor].
    replace (closing sub sub) with (@nil event) by (destruct sub; reflexivity).
    apply records_pure. reflexivity.
  - destruct sub as [c|].
    2:{ exists [], None. split; [|constructor]. apply records_pure. intros p.
        apply feed_disposed. }
    destruct (outputHandler_records now data c) as (rec1 & v1 & H1 & Hok1).
    destruct (IH v1) as (rec2 & v2 & H2 & Hok2). pose proof H2 as H2'.
    exists (rec1 ++ rec2), v2. split; [|apply Forall_app; split; assumption].
    intros p. specialize (H1 p).
    destruct (outputHandler stripAnsi toLowerCase now data c p) as [[v p1] l1] eqn:E.
    rewrite (feed_cons_eq stripAnsi toLowerCase (Some c, p) (now, data) rest v p1 l1 E).
    unfold value_of, state_of, log_of in H1. cbn [fst snd] in H1.
    destruct H1 as (-> & Hf1 & He1 & Hb1 & Hl1 & Hc1).
    specialize (H2 p1). cbv beta in H2.
    destruct (feed stripAnsi toLowerCase (v1, p1) rest) as [[v' p2] l2].
    unfold value_of, state_of, log_of in *. cbn [fst snd] in *.
    destruct H2 as (-> & Hf2 & He2 & Hb2 & Hl2 & Hc2).
    repeat split; try congruence.
    + rewrite Hf2, Hf1, recordedText_app, app_assoc. reflexivity.
    + rewrite List.map_app, He1, He2, Hl1.
      destruct v1 as [c1|].
      * cbn [closing]. rewrite app_nil_r.
        destruct v2; cbn [closing]; destruct (isListening p);
          rewrite ?List.map_app, ?app_assoc, ?app_nil_r; reflexivity.
      * assert (rec2 = [] /\ v2 = None) as [-> ->].
        { specialize (IH None) as _.
          pose proof (feed_disposed stripAnsi toLowerCase rest p1) as Hd.
          destruct (H2' p1) as (Hv2' & Hf2' & _).
          rewrite Hd in Hv2', Hf2'. cbn in Hv2', Hf2'. split; [|congruence].
          destruct rec2 as [|l rec2]; [reflexivity|].
          apply (f_equal (@length N)) in Hf2'. unfold recordedText in Hf2'. cbn in Hf2'.
          rewrite !length_app in Hf2'. cbn in Hf2'. lia. }
        cbn [closing]. rewrite !app_nil_r.
        destruct (isListening p); cbn; rewrite ?app_nil_r; reflexivity.
Qed.

End Recording.

Lemma lines_of_app (l1 l2 : list emission) :
  lines_of (l1 ++ l2) = lines_of l1 ++ lines_of l2.
Proof. unfold lines_of. apply omap_app. Qed.

Lemma lines_of_events (l : list emission) (ls : list jsstring) (final : list event) :
  List.map emitted l = List.map Line ls ++ final ->
  Forall (fun e => name_of e <> on_line) final ->
  lines_of l = ls.
Proof.
  revert ls final. induction l as [|m l IH]; intros ls final E Hf.
  - destruct ls; [reflexivity|discriminate E].
  - destruct ls as [|x ls].
    + cbn in E. destruct final as [|e final]; [discriminate E|].
      injection E as E1 E2. apply Forall_cons in Hf as [He Hf].
      unfold lines_of. cbn. rewrite E1. destruct e; [contradiction He; reflexivity|..];
        apply (IH [] final E2 Hf).
    + cbn in E. injection E as E1 E2. unfold lines_of. cbn. rewrite E1. cbn.
      f_equal. apply (IH ls final E2 Hf).
Qed.

Lemma closing_not_line (a b : option Capture) :
  Forall (fun e => name_of e <> on_line) (closing a b).
Proof. destruct a, b; repeat constructor; discriminate. Qed.

Section Stream.

Variable stripAnsi : jsstring -> jsstring.
Variable toLowerCase : jsstring -> jsstring.

(** X3. What the data handler of [run] records depends on the chunks and
    on its closure only, never on the process. For every subscription
    state and sequence of chunks there is one list of lines, each
    non-empty and unchanged by [sanitizeOutput], that is appended to
    [fullOutput] (each line with its newline) on any process; the [line]
    events carry exactly these lines when the process is listening, and
    there is no [line] event when it is not (after [continue()]), while
    the output is recorded all the same. *)
Theorem line_events_mirror_the_record (sub : option Capture) (chunks : list (Z * jsstring)) :
  exists rec : list jsstring,
    Forall (fun l => l <> [] /\ sanitizeOutput l = l) rec
    /\ forall p : TerminalProcess,
         let r := feed stripAnsi toLowerCase (sub, p) chunks in
         fullOutput (state_of r) = fullOutput p ++ recordedText rec
         /\ lines_of (log_of r) = (if isListening p then rec else [])
         /\ isListening (state_of r) = isListening p.
Proof.
  destruct (feed_records stripAnsi toLowerCase chunks sub) as (rec & v & H & Hok).
  exists rec. split; [exact Hok|]. intros p. cbv zeta.
  destruct (H p) as (_ & Hf & He & _ & Hl & _).
  split; [exact Hf|]. split; [|exact Hl].
  eapply lines_of_events; [exact He|apply closing_not_line].
Qed.

(** X4. Over any sequence of chunks a subscribed data handler emits
    [line] events and then, exactly when it has disposed of its
    subscription, one [completed] followed by one [continue]:
    [completed] is emitted at most once, [continue] follows it at once,
    and no [line] event comes after them. *)
Theorem completed_ends_the_event_stream
  (c : Capture) (p : TerminalProcess) (chunks : list (Z * jsstring)) :
  let r := feed stripAnsi toLowerCase (Some c, p) chunks in
  List.map emitted (log_of r)
  = List.map Line (lines_of (log_of r))
    ++ (match value_of r with None => [Completed; Continue] | Some _ => [] end).
Proof.
  cbv zeta.
  destruct (feed_records stripAnsi toLowerCase chunks (Some c)) as (rec & v & H & _).
  destruct (H p) as (Hv & _ & He & _).
  rewrite (lines_of_events _ _ _ He (closing_not_line _ _)), He, Hv.
  destruct v; reflexivity.
Qed.

Lemma continue_empty_buffer (p : TerminalProcess) :
  buffer p = [] ->
  List.map emitted (log_of (continue_ p)) = [Continue]
  /\ buffer (state_of (continue_ p)) = []
  /\ fullOutput (state_of (continue_ p)) = fullOutput p
  /\ lastRetrievedIndex (state_of (continue_ p)) = lastRetrievedIndex p
  /\ isListening (state_of (continue_ p)) = false.
Proof.
  intros Hb. unfold continue_, emitRemainingBufferIfListening.
  unfold removeAllListeners, emit. eff_unfold. rewrite Hb. cbn.
  repeat split; assumption.
Qed.

(** X5. Nothing the data handler does fills [buffer]: on a process whose
    [buffer] is empty, as it is at creation, it is still empty after any
    chunks. [continue()] then emits [continue] and no [line] event, leaves
    [fullOutput] and the cursor as they are, and stops listening; the
    partial line the handler holds in its closure is not flushed. *)
Theorem continue_never_flushes_the_partial_line
  (sub : option Capture) (p : TerminalProcess) (chunks : list (Z * jsstring)) :
  buffer p = [] ->
  let r := feed stripAnsi toLowerCase (sub, p) chunks in
  buffer (state_of r) = []
  /\ List.map emitted (log_of (continue_ (state_of r))) = [Continue]
  /\ fullOutput (state_of (continue_ (state_of r))) = fullOutput (state_of r)
  /\ lastRetrievedIndex (state_of (continue_ (state_of r))) = lastRetrievedIndex p
  /\ isListening (state_of (continue_ (state_of r))) = false.
Proof.
  intros Hb. cbv zeta.
  destruct (feed_records stripAnsi toLowerCase chunks sub) as (rec & v & H & _).
  destruct (H p) as (_ & _ & _ & Hb' & _ & Hc). rewrite Hb in Hb'.
  destruct (continue_empty_buffer _ Hb') as (H1 & H2 & H3 & H4 & H5).
  repeat split; try assumption. congruence.
Qed.

End Stream.

(** ** Partial lines, the hot state and emitIfEol *)

Lemma noNewline_app (x y : jsstring) :
  noNewline (x ++ y) = noNewline x && noNewline y.
Proof. unfold noNewline. apply forallb_app. Qed.

Lemma completeLines_noNewline (s : jsstring) : noNewline s = true -> completeLines s = [].
Proof. intros H. unfold completeLines. rewrite (split_nl_noNewline s H). reflexivity. Qed.

Lemma tailFragment_fixed (s : jsstring) : noNewline s = true -> tailFragment s = s.
Proof. intros H. unfold tailFragment. rewrite (split_nl_noNewline s H). reflexivity. Qed.

Section Partial.

Variable stripAnsi : jsstring -> jsstring.
Variable toLowerCase : jsstring -> jsstring.

(** X6. While capturing, chunks that show no marker and bring no newline
    are only appended to the buffer in the closure of the handler:
    nothing is recorded, no event is emitted, and the process (so its hot
    state and what a poll returns) is left as it was. *)
Theorem partial_line_is_only_buffered
  (c : Capture) (p : TerminalProcess) (chunks : list (Z * jsstring)) :
  outputStarted c = true ->
  forallb (markerFree stripAnsi c) chunks = true ->
  noNewline (outputBuffer c ++ strippedText stripAnsi chunks) = true ->
  feed stripAnsi toLowerCase (Some c, p) chunks
  = (Some (set_outputBuffer (outputBuffer c ++ strippedText stripAnsi chunks) c), p, []).
Proof.
  intros Hs Hm Hn.
  pose proof Hn as Hn'. rewrite noNewline_app in Hn'. apply andb_true_iff in Hn' as [Hb _].
  destruct (feed_capturing stripAnsi toLowerCase chunks c p Hm Hs Hb) as (lines & Hl & E).
  rewrite (completeLines_noNewline _ Hn) in Hl.
  destruct lines; [|discriminate Hl].
  rewrite E, (tailFragment_fixed _ Hn). reflexivity.
Qed.

End Partial.

(** X7. After [processOutput] has handled non-blank data at clock
    reading [now0] (other than 0), [isHot] holds exactly while less than
    the cooldown has elapsed: 15 000 ms if the data counted as compiling,
    2 000 ms otherwise. Once false it is false at every later reading,
    and blank data changes nothing, so it does not refresh the hot
    state. *)
Theorem isHot_window (toLowerCase : jsstring -> jsstring)
  (now0 : Z) (data : jsstring) (p : TerminalProcess) :
  JS.trim data <> [] ->
  now0 <> 0%Z ->
  let p' := state_of (processOutput toLowerCase now0 data p) in
  (forall now,
     isHot now p'
     = (now - now0 <? (if isCompiling toLowerCase data
                       then PROCESS_HOT_TIMEOUT_COMPILING
                       else PROCESS_HOT_TIMEOUT_NORMAL))%Z)
  /\ (forall now now', isHot now p' = false -> (now <= now')%Z -> isHot now' p' = false)
  /\ (forall t blank,
        JS.trim blank = [] -> processOutput toLowerCase t blank p' = (tt, p', [])).
Proof.
  intros Hd Hn. cbv zeta.
  assert (Hhot : lastActivityTime (state_of (processOutput toLowerCase now0 data p)) = now0
                 /\ cooldownTimeout (state_of (processOutput toLowerCase now0 data p))
                    = if isCompiling toLowerCase data
                      then PROCESS_HOT_TIMEOUT_COMPILING else PROCESS_HOT_TIMEOUT_NORMAL).
  { unfold processOutput. destruct (JS.trim data) as [|x r]; [congruence|].
    cbn [JS.truthy negb]. unfold updateHotState. eff_unfold.
    destruct (JS.truthy (sanitizeOutput data)); cbn; [|split; reflexivity].
    destruct (isListening p); cbn; split; reflexivity. }
  destruct Hhot as [Ht Hc].
  split; [|split].
  - intros now. unfold isHot. rewrite Ht, Hc.
    destruct (Z.eqb_spec now0 0); [contradiction|reflexivity].
  - intros now now'. unfold isHot. rewrite Ht, Hc.
    destruct (Z.eqb_spec now0 0); [contradiction|].
    intros H Hle. apply Z.ltb_ge in H. apply Z.ltb_ge. lia.
  - intros t blank Hb. unfold processOutput. rewrite Hb. reflexivity.
Qed.

Lemma completeLines_line (x rest : jsstring) :
  noNewline x = true -> completeLines (x ++ 10 :: rest) = x :: completeLines rest.
Proof.
  intros H. unfold completeLines. rewrite (split_nl_line _ _ H).
  destruct (JS.split_nl rest) eqn:E; [destruct (split_nl_not_nil rest E)|reflexivity].
Qed.

Lemma tailFragment_line (x rest : jsstring) :
  noNewline x = true -> tailFragment (x ++ 10 :: rest) = tailFragment rest.
Proof.
  intros H. unfold tailFragment. rewrite (split_nl_line _ _ H).
  destruct (JS.split_nl rest) eqn:E; [destruct (split_nl_not_nil rest E)|reflexivity].
Qed.

Lemma emitIfEol_loop_spec (rest : jsstring) :
  forall (line : jsstring) (p : TerminalProcess),
  noNewline line = true ->
  let r := emitIfEol_loop line rest p in
  List.map emitted (log_of r)
  = List.map (fun l => Line (sanitizeOutput l)) (completeLines (line ++ rest))
  /\ state_of r
     = set_buffer (tailFragment (line ++ rest))
         (set_listeners (listeners (state_of r)) p).
Proof.
  induction rest as [|c r IH]; intros line p Hn; cbv zeta.
  - cbn [emitIfEol_loop]. rewrite app_nil_r, (completeLines_noNewline _ Hn),
      (tailFragment_fixed _ Hn). split; reflexivity.
  - cbn [emitIfEol_loop]. destruct (N.eqb_spec c 10) as [->|Hc].
    + rewrite (completeLines_line _ _ Hn), (tailFragment_line _ _ Hn).
      specialize (IH [] (state_of (emit (Line (sanitizeOutput line)) p)) eq_refl).
      cbv zeta in IH. cbn [app] in IH. destruct IH as [IH1 IH2].
      eff_unfold. rewrite emit_eq in IH1, IH2. rewrite emit_eq.
      cbn [name_of] in *. cbn [fst snd] in *.
      destruct (emitIfEol_loop [] r _) as [[u q] l] eqn:E. cbn [fst snd] in *.
      split; [cbn; f_equal; exact IH1|].
      rewrite IH2 at 1. reflexivity.
    + assert (Hn' : noNewline (line ++ [c]) = true).
      { rewrite noNewline_app, Hn. cbn. destruct (N.eqb_spec c 10); [contradiction|reflexivity]. }
      specialize (IH (line ++ [c]) p Hn'). cbv zeta in IH.
      rewrite <- app_assoc in IH. exact IH.
Qed.

Lemma sanitizeOutput_CR_free (l l' : jsstring) :
  List.filter notCR l = List.filter notCR l' -> sanitizeOutput l = sanitizeOutput l'.
Proof.
  intros E. unfold sanitizeOutput.
  rewrite (carriage_returns_dropped (length l) l (le_n _)).
  rewrite (carriage_returns_dropped (length l') l' (le_n _)).
  fold notCR. rewrite E. reflexivity.
Qed.

Lemma consHead_related (c : N) (X Y : list jsstring) :
  X <> [] -> Y <> [] ->
  List.map (List.filter notCR) X = List.map (List.filter notCR) Y ->
  List.last X [] = List.last Y [] ->
  List.map (List.filter notCR) (consHead c X) = List.map (List.filter notCR) (consHead c Y)
  /\ List.last (consHead c X) [] = List.last (consHead c Y) [].
Proof.
  intros HX HY Hm Hl.
  destruct X as [|h t]; [congruence|]. destruct Y as [|h' t']; [congruence|].
  cbn [consHead List.map] in *. injection Hm as Hh Ht.
  split.
  - f_equal; [|exact Ht]. cbn [List.filter]. rewrite Hh. reflexivity.
  - destruct t as [|a t], t' as [|a' t']; try discriminate Ht.
    + cbn in *. congruence.
    + exact Hl.
Qed.

Lemma split_nl_replace (n : nat) (s : jsstring) :
  (length s <= n)%nat ->
  List.map (List.filter notCR) (JS.split_nl (Regexes.replace_LINE_ENDINGS s))
  = List.map (List.filter notCR) (JS.split_nl s)
  /\ List.last (JS.split_nl (Regexes.replace_LINE_ENDINGS s)) []
     = List.last (JS.split_nl s) [].
Proof.
  revert s. induction n as [|n IH]; intros s Hlen.
  { destruct s; [split; reflexivity|cbn in Hlen; lia]. }
  destruct s as [|c [|d r]]; [split; reflexivity|split; reflexivity|].
  rewrite replace_LINE_ENDINGS_cons2.
  destruct ((c =? 13) && (d =? 10)) eqn:E.
  - apply andb_true_iff in E as [Ec Ed].
    apply N.eqb_eq in Ec, Ed. subst c d.
    destruct (IH r) as [IH1 IH2]; [cbn in Hlen; lia|].
    rewrite (split_nl_cons 10), (split_nl_cons 13), (split_nl_cons 10).
    cbn [N.eqb Pos.eqb consHead List.map List.filter notCR negb].
    split; [f_equal; exact IH1|].
    destruct (JS.split_nl (Regexes.replace_LINE_ENDINGS r)) eqn:E1;
      [destruct (split_nl_not_nil _ E1)|].
    destruct (JS.split_nl r) eqn:E2; [destruct (split_nl_not_nil _ E2)|].
    exact IH2.
  - destruct (IH (d :: r)) as [IH1 IH2]; [cbn in Hlen |- *; lia|].
    rewrite (split_nl_cons c (Regexes.replace_LINE_ENDINGS (d :: r))),
      (split_nl_cons c (d :: r)).
    destruct (c =? 10).
    + split; [cbn [List.map]; f_equal; exact IH1|].
      destruct (JS.split_nl (Regexes.replace_LINE_ENDINGS (d :: r))) eqn:E1;
        [destruct (split_nl_not_nil _ E1)|].
      destruct (JS.split_nl (d :: r)) eqn:E2; [destruct (split_nl_not_nil _ E2)|].
      exact IH2.
    + apply consHead_related; try assumption; apply split_nl_not_nil.
Qed.

Lemma map_removelast {A B : Type} (f : A -> B) (l : list A) :
  List.map f (removelast l) = removelast (List.map f l).
Proof.
  induction l as [|a [|b r] IH]; [reflexivity|reflexivity|].
  cbn [removelast List.map] in *. f_equal. exact IH.
Qed.

Lemma completeLines_replace (s : jsstring) :
  List.map sanitizeOutput (completeLines (Regexes.replace_LINE_ENDINGS s))
  = List.map sanitizeOutput (completeLines s)
  /\ tailFragment (Regexes.replace_LINE_ENDINGS s) = tailFragment s.
Proof.
  destruct (split_nl_replace (length s) s (le_n _)) as [H1 H2].
  split; [|exact H2]. unfold completeLines.
  apply (f_equal (@removelast _)) in H1. rewrite <- !map_removelast in H1.
  revert H1. generalize (removelast (JS.split_nl (Regexes.replace_LINE_ENDINGS s))).
  generalize (removelast (JS.split_nl s)).
  intros Y X. revert Y. induction X as [|x X IH]; intros [|y Y] E; try discriminate E.
  - reflexivity.
  - cbn [List.map] in *. injection E as E1 E2. f_equal.
    + apply sanitizeOutput_CR_free, E1.
    + apply IH, E2.
Qed.

(** X8. [emitIfEol] emits one [line] event for each complete line of
    [buffer + chunk], carrying the sanitized line (the empty string for a
    blank line), whether or not the process is listening. It keeps what
    follows the last newline in [buffer], which then holds no newline,
    and leaves [fullOutput] and the cursor alone. Two calls in a row emit
    what one call with the two chunks concatenated emits, and leave the
    same [buffer]. *)
Theorem emitIfEol_emits_the_complete_lines (chunk : jsstring) (p : TerminalProcess) :
  let text := buffer p ++ chunk in
  let r := emitIfEol chunk p in
  List.map emitted (log_of r) = List.map Line (List.map sanitizeOutput (completeLines text))
  /\ buffer (state_of r) = tailFragment text
  /\ noNewline (buffer (state_of r)) = true
  /\ fullOutput (state_of r) = fullOutput p
  /\ lastRetrievedIndex (state_of r) = lastRetrievedIndex p
  /\ forall more : jsstring,
       List.map emitted (log_of r) ++ List.map emitted (log_of (emitIfEol more (state_of r)))
       = List.map emitted (log_of (emitIfEol (chunk ++ more) p))
       /\ buffer (state_of (emitIfEol more (state_of r)))
          = buffer (state_of (emitIfEol (chunk ++ more) p)).
Proof.
  assert (Hspec : forall chunk p,
    List.map emitted (log_of (emitIfEol chunk p))
    = List.map Line (List.map sanitizeOutput (completeLines (buffer p ++ chunk)))
    /\ state_of (emitIfEol chunk p)
       = set_buffer (tailFragment (buffer p ++ chunk))
           (set_listeners (listeners (state_of (emitIfEol chunk p))) p)).
  { clear. intros chunk p. unfold emitIfEol.
    destruct (emitIfEol_loop_spec (Regexes.replace_LINE_ENDINGS (buffer p ++ chunk)) [] p eq_refl)
      as [H1 H2].
    cbn [app] in H1, H2.
    destruct (completeLines_replace (buffer p ++ chunk)) as [Hc Ht].
    rewrite Ht in H2. rewrite <- Hc.
    eff_unfold. cbn [fst snd].
    destruct (emitIfEol_loop [] _ p) as [[u q] l]. cbn [fst snd] in *.
    cbn [app]. split; [rewrite H1, List.map_map; reflexivity|exact H2]. }
  cbv zeta.
  destruct (Hspec chunk p) as [H1 H2].
  split; [exact H1|].
  assert (Hb : buffer (state_of (emitIfEol chunk p)) = tailFragment (buffer p ++ chunk))
    by (rewrite H2; reflexivity).
  split; [exact Hb|]. split; [rewrite Hb; apply tailFragment_noNewline|].
  split; [rewrite H2; reflexivity|]. split; [rewrite H2; reflexivity|].
  intros more.
  destruct (Hspec more (state_of (emitIfEol chunk p))) as [H3 H4].
  destruct (Hspec (chunk ++ more) p) as [H5 H6].
  split.
  - rewrite H1, H3, H5, Hb, <- !List.map_app, app_assoc.
    rewrite (completeLines_app (buffer p ++ chunk) more). reflexivity.
  - rewrite H4, H6. cbn [buffer set_buffer]. rewrite Hb, app_assoc.
    symmetry. apply tailFragment_app.
Qed.

(** ** The last line of a chunk, and prompt characters *)

Section HotLines.

Variable stripAnsi : jsstring -> jsstring.
Variable toLowerCase : jsstring -> jsstring.

Lemma processOutput_hot (now : Z) (data : jsstring) (p : TerminalProcess) :
  JS.trim data <> [] ->
  lastActivityTime (state_of (processOutput toLowerCase now data p)) = now
  /\ cooldownTimeout (state_of (processOutput toLowerCase now data p))
     = cooldownFor toLowerCase data.
Proof.
  intros Hd. unfold processOutput, cooldownFor.
  destruct (JS.trim data) as [|x r]; [congruence|].
  cbn [JS.truthy negb]. unfold updateHotState. eff_unfold.
  destruct (JS.truthy (sanitizeOutput data)); cbn; [|split; reflexivity].
  destruct (isListening p); cbn; split; reflexivity.
Qed.

Lemma processOutput_blank (now : Z) (data : jsstring) (p : TerminalProcess) :
  blank data -> processOutput toLowerCase now data p = (tt, p, []).
Proof. intros H. unfold processOutput. rewrite H. reflexivity. Qed.

Lemma forEach_blank (now : Z) (lines : list jsstring) (p : TerminalProcess) :
  Forall blank lines -> forEach lines (processOutput toLowerCase now) p = (tt, p, []).
Proof.
  induction lines as [|l r IH]; intros H; [reflexivity|].
  apply Forall_cons in H as [Hl Hr]. cbn [forEach]. eff_unfold.
  rewrite (processOutput_blank now l p Hl), (IH Hr). reflexivity.
Qed.

Lemma forEach_hot (now : Z) (before : list jsstring) (line : jsstring)
  (after : list jsstring) (p : TerminalProcess) :
  JS.trim line <> [] ->
  Forall blank after ->
  let p' := state_of (forEach (before ++ line :: after) (processOutput toLowerCase now) p) in
  lastActivityTime p' = now /\ cooldownTimeout p' = cooldownFor toLowerCase line.
Proof.
  intros Hl Ha. cbv zeta. rewrite forEach_app. unfold state_of at 1. cbn [fst snd].
  cbn [forEach]. eff_unfold.
  set (q := (forEach before (processOutput toLowerCase now) p).1.2).
  destruct (processOutput toLowerCase now line q) as [[u q1] l1] eqn:E.
  rewrite (forEach_blank now after q1 Ha). cbn [fst snd].
  pose proof (processOutput_hot now line q Hl) as H. rewrite E in H. exact H.
Qed.

(** X23. The hot state after a chunk handled while capturing is decided
    by the last complete line of the buffered text that is not blank:
    from the arrival of the chunk (at a clock reading other than 0),
    [isHot] holds exactly while less than the cooldown of that line has
    elapsed, whatever lines came before it in the chunk and whatever the
    hot state was. The partial line after the last newline does not
    count. *)
Theorem hot_state_follows_the_last_complete_line
  (now : Z) (data : jsstring) (c : Capture) (p : TerminalProcess)
  (before : list jsstring) (line : jsstring) (after : list jsstring) :
  outputStarted c = true ->
  markerFree stripAnsi c (now, data) = true ->
  completeLines (outputBuffer c ++ stripAnsi data) = before ++ line :: after ->
  JS.trim line <> [] ->
  Forall blank after ->
  now <> 0%Z ->
  forall now',
    isHot now' (state_of (outputHandler stripAnsi toLowerCase now data c p))
    = (now' - now <? cooldownFor toLowerCase line)%Z.
Proof.
  intros Hs Hm Hc Hl Ha Hn now'.
  pose proof (handler_capturing stripAnsi toLowerCase now data c p Hm Hs) as E.
  cbv zeta in E. rewrite E. unfold state_of at 1. cbn [fst snd].
  rewrite Hc. rewrite <- forEach_processLines.
  destruct (forEach_hot now before line after p Hl Ha) as [H1 H2]. cbv zeta in H1, H2.
  unfold isHot. rewrite H1, H2.
  destruct (Z.eqb_spec now 0); [contradiction|reflexivity].
Qed.

(** X25. Output outside the markers is ignored: chunks that show no
    marker and arrive before the start marker leave the closure of the
    handler and the process exactly as they were, with no event; and
    once the handler has disposed of its subscription no chunk changes
    anything. *)
Theorem output_outside_the_markers_is_ignored
  (t1 t2 : Z) (p : TerminalProcess) (chunks : list (Z * jsstring)) :
  forallb (markerFree stripAnsi (run t1 t2)) chunks = true ->
  feed stripAnsi toLowerCase (Some (run t1 t2), p) chunks = (Some (run t1 t2), p, [])
  /\ forall more : list (Z * jsstring),
       feed stripAnsi toLowerCase (None, p) more = (None, p, []).
Proof.
  intros H. split.
  - apply feed_idle; [exact H|reflexivity].
  - intros more. apply feed_disposed.
Qed.

End HotLines.

Lemma promptChar_not_space (c : N) : Regexes.promptChar c = true -> JS.isSpace c = false.
Proof.
  intros H. apply promptChar_cases in H as [-> | [-> | [-> | ->]]]; reflexivity.
Qed.

Lemma remove_PROMPT_CHARS_last (r : jsstring) (c : N) :
  Regexes.promptChar c = true -> Regexes.remove_PROMPT_CHARS (r ++ [c]) = r.
Proof.
  intros Hc. induction r as [|a r IH].
  - cbn. rewrite Hc. reflexivity.
  - cbn [app Regexes.remove_PROMPT_CHARS].
    rewrite forallb_app. cbn [forallb]. rewrite (promptChar_not_space c Hc).
    cbn [andb]. rewrite !andb_false_r. rewrite IH. reflexivity.
Qed.

Section PromptChars.

Variable toLowerCase : jsstring -> jsstring.

(** X24. A recorded line that ends in one of [% $ # >] reaches the two
    channels differently: [processOutput] appends it to [fullOutput] and
    emits it in a [line] event in full, but the next
    [getUnretrievedOutput] returns it without that last character and
    without the white space before it. *)
Theorem poll_drops_a_final_prompt_character
  (now : Z) (data r : jsstring) (c : N) (p0 : TerminalProcess) :
  Regexes.promptChar c = true ->
  sanitizeOutput data = r ++ [c] ->
  noNewline r = true ->
  let p := state_of (getUnretrievedOutput p0) in
  let p1 := state_of (processOutput toLowerCase now data p) in
  fullOutput p1 = fullOutput p ++ r ++ [c; 10]
  /\ List.map emitted (log_of (processOutput toLowerCase now data p))
     = (if isListening p0 then [Line (r ++ [c])] else [])
  /\ value_of (getUnretrievedOutput p1) = JS.trimEnd r.
Proof.
  intros Hc Hs Hn. cbv zeta.
  set (p := state_of (getUnretrievedOutput p0)).
  assert (Hfull : fullOutput (state_of (processOutput toLowerCase now data p))
                  = fullOutput p ++ r ++ [c; 10]).
  { rewrite processOutput_fullOutput. unfold appendedFor. rewrite Hs.
    destruct (r ++ [c]) eqn:E; [destruct r; discriminate E|]. cbn [JS.truthy].
    rewrite <- E, <- app_assoc. reflexivity. }
  split; [exact Hfull|]. split.
  - rewrite processOutput_events, Hs.
    destruct (r ++ [c]) eqn:E; [destruct r; discriminate E|]. cbn [JS.truthy andb].
    unfold p. rewrite getUnretrievedOutput_state. reflexivity.
  - rewrite getUnretrievedOutput_value.
    destruct (processOutput_frame toLowerCase now data p) as (_ & _ & Hcur).
    cbv zeta in Hcur. rewrite Hcur, Hfull. unfold p at 2.
    rewrite getUnretrievedOutput_state. cbn [lastRetrievedIndex set_lastRetrievedIndex].
    unfold p. rewrite getUnretrievedOutput_state. cbn [fullOutput set_lastRetrievedIndex].
    unfold JS.slice_from. rewrite drop_app_length.
    assert (Hline : noNewline (r ++ [c]) = true).
    { rewrite noNewline_app, Hn. cbn.
      apply promptChar_cases in Hc as [-> | [-> | [-> | ->]]]; reflexivity. }
    unfold sanitizeRemainingBuffer.
    change (r ++ [c; 10]) with (r ++ [c] ++ [10]). rewrite app_assoc.
    change ((r ++ [c]) ++ [10]) with ((r ++ [c]) ++ 10 :: []).
    rewrite (split_nl_line _ _ Hline). cbn [JS.split_nl].
    unfold sanitizeLines. cbn [List.map].
    rewrite (remove_PROMPT_CHARS_last r c Hc).
    assert (Hclean : Forall (fun a => Regexes.NON_ASCII_CONTROL a = false) r).
    { pose proof (sanitizeOutput_clean data) as H. rewrite Hs in H.
      apply Forall_app in H as [H _]. exact H. }
    unfold Regexes.remove_NON_ASCII_CONTROL at 1.
    rewrite (filter_all_true _ r).
    2:{ eapply List.Forall_impl; [|exact Hclean]. intros a H. cbv beta. rewrite H. reflexivity. }
    assert (Hstart : JS.trimStart r = r).
    { apply trimStart_fixed. intros a t ->.
      pose proof (proj1 (proj2 (trim_spec data))) as _.
      assert (Ht : JS.trim (sanitizeOutput data) = sanitizeOutput data)
        by (unfold sanitizeOutput; apply trim_idempotent).
      destruct (trim_spec (sanitizeOutput data)) as (_ & Hhead & _).
      rewrite Ht, Hs in Hhead. apply (Hhead a (t ++ [c])). reflexivity. }
    unfold JS.trim at 1. rewrite Hstart.
    cbn [Regexes.remove_PROMPT_CHARS Regexes.remove_NON_ASCII_CONTROL List.filter JS.trim
         JS.trimStart JS.trimEnd].
    destruct (JS.trimEnd r) as [|a t] eqn:E; [reflexivity|].
    cbn [List.filter JS.truthy JS.join_nl]. rewrite <- E.
    apply trimEnd_fixed. intros t' a' E'.
    eapply trimEnd_last. exact E'.
Qed.

End PromptChars.

(** ** Which recorded lines a poll drops *)





Section Dropped.

Variable toLowerCase : jsstring -> jsstring.


End Dropped.


(** ** From the world to the process *)

Lemma run_callback_process (e : event) (st : Execution * gmap N TerminalInfo) (f : listener) :
  exec_process (fst (run_callback e st f)) = exec_process (fst st)
  /\ exec_subscription (fst (run_callback e st f)) = exec_subscription (fst st)
  /\ exec_terminal (fst (run_callback e st f)) = exec_terminal (fst st)
  /\ exec_command (fst (run_callback e st f)) = exec_command (fst st).
Proof. destruct f; repeat split; reflexivity. Qed.

Lemma run_emissions_process (l : list emission) (st : Execution * gmap N TerminalInfo) :
  exec_process (fst (run_emissions l st)) = exec_process (fst st)
  /\ exec_subscription (fst (run_emissions l st)) = exec_subscription (fst st)
  /\ exec_terminal (fst (run_emissions l st)) = exec_terminal (fst st)
  /\ exec_command (fst (run_emissions l st)) = exec_command (fst st).
Proof.
  revert st. induction l as [|m l IH]; intros st; [repeat split; reflexivity|].
  unfold run_emissions in *. cbn [fold_left].
  destruct (IH (run_emission st m)) as (H1 & H2 & H3 & H4).
  rewrite H1, H2, H3, H4. clear.
  unfold run_emission. generalize (called m). intros fs. revert st.
  induction fs as [|f fs IH]; intros st; [repeat split; reflexivity|].
  cbn [fold_left]. destruct (IH (run_callback (emitted m) st f)) as (H1 & H2 & H3 & H4).
  rewrite H1, H2, H3, H4. apply run_callback_process.
Qed.

Section Lifting.

Variable stripAnsi : jsstring -> jsstring.
Variable toLowerCase : jsstring -> jsstring.

Lemma receive_feed1 (tid : N) (now : Z) (data : jsstring) (x : Execution)
  (reg : gmap N TerminalInfo) :
  exec_terminal x = tid ->
  let x' := fst (receive stripAnsi toLowerCase tid now data x reg) in
  let r := feed1 stripAnsi toLowerCase (exec_subscription x, exec_process x) (now, data) in
  exec_process x' = state_of r
  /\ exec_subscription x' = value_of r
  /\ exec_terminal x' = tid
  /\ exec_command x' = exec_command x.
Proof.
  intros Ht. cbv zeta. unfold receive, feed1. cbn [fst snd].
  rewrite Ht, N.eqb_refl.
  destruct (exec_subscription x) as [c|] eqn:Es.
  - destruct (run_emissions_process
                (log_of (outputHandler stripAnsi toLowerCase now data c (exec_process x)))
                (set_process (state_of (outputHandler stripAnsi toLowerCase now data c (exec_process x)))
                   (set_subscription (value_of (outputHandler stripAnsi toLowerCase now data c (exec_process x))) x), reg))
      as (H1 & H2 & H3 & H4).
    rewrite H1, H2, H3, H4. cbn. repeat split; try reflexivity. exact Ht.
  - cbn. repeat split; try assumption; reflexivity.
Qed.

Lemma deliver_lookup (tid : N) (now : Z) (data : jsstring) (w : World)
  (handle : nat) (x : Execution) :
  heap w !! handle = Some x ->
  exists reg',
    heap (deliver stripAnsi toLowerCase tid now data w) !! handle
    = Some (fst (receive stripAnsi toLowerCase tid now data x reg')).
Proof.
  intros H. unfold deliver. cbn [heap].
  apply (deliver_heap_lookup stripAnsi toLowerCase tid now data (heap w) (registry w) handle x H).
Qed.

Lemma deliverAll_feed (tid : N) (chunks : list (Z * jsstring)) :
  forall (w : World) (handle : nat) (x : Execution),
  heap w !! handle = Some x ->
  exec_terminal x = tid ->
  exists x',
    heap (deliverAll stripAnsi toLowerCase tid chunks w) !! handle = Some x'
    /\ exec_process x'
       = state_of (feed stripAnsi toLowerCase (exec_subscription x, exec_process x) chunks)
    /\ exec_subscription x'
       = value_of (feed stripAnsi toLowerCase (exec_subscription x, exec_process x) chunks)
    /\ exec_terminal x' = tid
    /\ exec_command x' = exec_command x.
Proof.
  induction chunks as [|[now data] rest IH]; intros w handle x Hx Ht.
  - exists x. cbn. repeat split; try assumption; reflexivity.
  - unfold deliverAll. cbn [fold_left fst snd].
    destruct (deliver_lookup tid now data w handle x Hx) as (reg' & Hx1).
    destruct (receive_feed1 tid now data x reg' Ht) as (Hp & Hs & Ht1 & Hc1).
    destruct (IH _ handle _ Hx1 Ht1) as (x' & Hx' & Hp' & Hs' & Ht' & Hc').
    exists x'. split; [exact Hx'|].
    rewrite Hp, Hs in Hp', Hs'.
    rewrite (feed_cons stripAnsi toLowerCase). unfold state_of at 1, value_of at 1.
    cbn [fst snd]. repeat split; try assumption. congruence.
Qed.

End Lifting.

Lemma replace_LINE_ENDINGS_noNewline (s : jsstring) :
  noNewline s = true -> Regexes.replace_LINE_ENDINGS s = s.
Proof.
  induction s as [|c t IH]; [reflexivity|]. intros H.
  cbn in H. apply andb_true_iff in H as [_ Ht].
  destruct t as [|d r]; [reflexivity|].
  rewrite replace_LINE_ENDINGS_cons2.
  pose proof Ht as Hd. cbn in Hd. apply andb_true_iff in Hd as [Hd _].
  apply negb_true_iff in Hd. rewrite Hd, andb_false_r. f_equal. apply IH, Ht.
Qed.

Lemma sanitizeOutput_noNewline (s : jsstring) :
  noNewline s = true -> noNewline (sanitizeOutput s) = true.
Proof.
  intros H. unfold sanitizeOutput. rewrite (replace_LINE_ENDINGS_noNewline s H).
  apply noNewline_Forall, trim_Forall, filter_Forall, filter_Forall, noNewline_Forall, H.
Qed.

Lemma recordedFor_noNewline (lines : list jsstring) :
  Forall (fun l => noNewline l = true) lines ->
  Forall (fun l => noNewline l = true) (List.concat (List.map recordedFor lines)).
Proof.
  induction lines as [|x r IH]; intros H; [constructor|].
  apply Forall_cons in H as [Hx Hr]. cbn [List.map List.concat].
  apply Forall_app. split; [|apply IH, Hr].
  unfold recordedFor. destruct (JS.truthy (sanitizeOutput x)); [|constructor].
  constructor; [apply sanitizeOutput_noNewline, Hx|constructor].
Qed.

Lemma completeLines_pieces (s : jsstring) :
  Forall (fun l => noNewline l = true) (completeLines s).
Proof.
  unfold completeLines. pose proof (split_nl_pieces s) as H.
  apply List.Forall_forall. intros l Hl.
  assert (In l (JS.split_nl s)) as Hin.
  { clear H. revert Hl. generalize (JS.split_nl s). intros X.
    induction X as [|a [|b r] IH]; cbn; [tauto|tauto|].
    intros [->|H]; [left; reflexivity|right; apply IH, H]. }
  revert l Hin Hl. intros l Hin _. revert l Hin. apply List.Forall_forall, H.
Qed.

Lemma split_nl_recordedText (rec : list jsstring) :
  Forall (fun l => noNewline l = true) rec ->
  JS.split_nl (recordedText rec) = rec ++ [[]].
Proof.
  induction rec as [|x r IH]; intros H; [reflexivity|].
  apply Forall_cons in H as [Hx Hr].
  unfold recordedText in *. cbn [List.map List.concat].
  rewrite <- app_assoc. cbn [app].
  rewrite (split_nl_line _ _ Hx), (IH Hr). reflexivity.
Qed.

Lemma sanitizeLines_app (l1 l2 : list jsstring) :
  sanitizeLines (l1 ++ l2) = sanitizeLines l1 ++ sanitizeLines l2.
Proof. unfold sanitizeLines. rewrite List.map_app, List.filter_app. reflexivity. Qed.

Lemma poll_of_record (rec : list jsstring) :
  Forall (fun l => noNewline l = true) rec ->
  sanitizeRemainingBuffer (recordedText rec) = JS.join_nl (sanitizeLines rec).
Proof.
  intros H. unfold sanitizeRemainingBuffer.
  rewrite (split_nl_recordedText rec H), sanitizeLines_app.
  change (sanitizeLines [[]]) with (@nil jsstring). rewrite app_nil_r.
  apply join_nl_trimEnd. apply (proj1 (sanitizeLines_facts rec)).
Qed.

Lemma processLines_records (toLowerCase : jsstring -> jsstring) (l : list (Z * jsstring)) :
  records (processLines toLowerCase l)
    (List.concat (List.map recordedFor (List.map snd l))) [] tt.
Proof.
  unfold processLines. induction l as [|x r IH]; [apply records_ret|].
  cbn [forEach List.map List.concat].
  eapply records_bind; [apply processOutput_records|exact IH].
Qed.

Lemma existsb_In (tid : N) (l : list N) : In tid l -> existsb (N.eqb tid) l = true.
Proof.
  intros H. apply existsb_exists. exists tid. split; [exact H|apply N.eqb_refl].
Qed.

Lemma deliver_manager (stripAnsi toLowerCase : jsstring -> jsstring) (tid : N)
  (chunks : list (Z * jsstring)) :
  forall w, manager (deliverAll stripAnsi toLowerCase tid chunks w) = manager w.
Proof.
  unfold deliverAll. induction chunks as [|ch rest IH]; intros w; [reflexivity|].
  cbn [fold_left]. rewrite IH. reflexivity.
Qed.

Lemma manager_poll (tid : N) (w : World) (i : nat) (x : Execution) :
  In tid (terminalIds (manager w)) ->
  processes (manager w) !! tid = Some i ->
  heap w !! i = Some x ->
  managerGetUnretrievedOutput tid w
  = (sanitizeRemainingBuffer
       (JS.slice_from (fullOutput (exec_process x)) (lastRetrievedIndex (exec_process x))),
     mkWorld (manager w) (registry w)
       (<[i := set_process
                 (set_lastRetrievedIndex (length (fullOutput (exec_process x)))
                    (exec_process x)) x]> (heap w))).
Proof.
  intros Hin Hp Hx. unfold managerGetUnretrievedOutput.
  rewrite (existsb_In tid _ Hin), Hp, Hx. cbn [negb].
  rewrite getUnretrievedOutput_value, getUnretrievedOutput_state. reflexivity.
Qed.

(** X9. [TerminalManager.getUnretrievedOutput] called again right after
    itself returns the empty string. A call changes neither the manager
    nor the registry, nor the promise, the subscription or the hot state
    of any execution. *)
Theorem manager_poll_returns_each_line_once (tid : N) (w : World) :
  let w1 := snd (managerGetUnretrievedOutput tid w) in
  fst (managerGetUnretrievedOutput tid w1) = []
  /\ manager w1 = manager w
  /\ registry w1 = registry w
  /\ (forall handle, promiseOf w1 handle = promiseOf w handle)
  /\ (forall handle, subscribed w1 handle = subscribed w handle)
  /\ (forall now tid', isProcessHot tid' now w1 = isProcessHot tid' now w).
Proof.
  cbv zeta.
  destruct (existsb (N.eqb tid) (terminalIds (manager w))) eqn:Hin.
  2:{ assert (E : managerGetUnretrievedOutput tid w = ([], w))
        by (unfold managerGetUnretrievedOutput; rewrite Hin; reflexivity).
      rewrite E. cbn [snd]. rewrite E. repeat split; reflexivity. }
  destruct (processes (manager w) !! tid) as [i|] eqn:Hp.
  2:{ assert (E : managerGetUnretrievedOutput tid w = ([], w))
        by (unfold managerGetUnretrievedOutput; rewrite Hin, Hp; reflexivity).
      rewrite E. cbn [snd]. rewrite E. repeat split; reflexivity. }
  destruct (heap w !! i) as [x|] eqn:Hx.
  2:{ assert (E : managerGetUnretrievedOutput tid w = ([], w))
        by (unfold managerGetUnretrievedOutput; rewrite Hin, Hp, Hx; reflexivity).
      rewrite E. cbn [snd]. rewrite E. repeat split; reflexivity. }
  assert (Hin' : In tid (terminalIds (manager w))).
  { apply existsb_exists in Hin as (t & Ht & Heq). apply N.eqb_eq in Heq. subst t. exact Ht. }
  rewrite (manager_poll tid w i x Hin' Hp Hx). cbn [snd].
  set (x1 := set_process _ x).
  assert (Hlt : (i < length (heap w))%nat) by (apply lookup_lt_Some in Hx; exact Hx).
  split; [|split; [reflexivity|split; [reflexivity|split; [|split]]]].
  - rewrite (manager_poll tid (mkWorld (manager w) (registry w) (<[i := x1]> (heap w)))
               i x1 Hin' Hp); [|apply list_lookup_insert_eq, Hlt].
    cbn [fst]. unfold x1.
    cbn [exec_process set_process fullOutput lastRetrievedIndex set_lastRetrievedIndex].
    unfold JS.slice_from. rewrite drop_all. reflexivity.
  - intros handle. unfold promiseOf. cbn [heap].
    destruct (decide (i = handle)) as [<-|Hne].
    + rewrite (list_lookup_insert_eq _ _ _ Hlt), Hx. reflexivity.
    + rewrite (list_lookup_insert_ne _ _ _ _ Hne). reflexivity.
  - intros handle. unfold subscribed. cbn [heap].
    destruct (decide (i = handle)) as [<-|Hne].
    + rewrite (list_lookup_insert_eq _ _ _ Hlt), Hx. reflexivity.
    + rewrite (list_lookup_insert_ne _ _ _ _ Hne). reflexivity.
  - intros now tid'. unfold isProcessHot. cbn [manager heap].
    destruct (processes (manager w) !! tid') as [j|]; [|reflexivity].
    destruct (decide (i = j)) as [<-|Hne].
    + rewrite (list_lookup_insert_eq _ _ _ Hlt), Hx. reflexivity.
    + rewrite (list_lookup_insert_ne _ _ _ _ Hne). reflexivity.
Qed.

Section EndToEnd.

Variable stripAnsi : jsstring -> jsstring.
Variable toLowerCase : jsstring -> jsstring.

Lemma capture_after_start (t1 t2 t0 : Z) (startChunk : jsstring)
  (body : list (Z * jsstring)) (p : TerminalProcess) :
  JS.includes (stripAnsi startChunk) (startMarker (run t1 t2)) = true ->
  forallb (markerFree stripAnsi (run t1 t2)) body = true ->
  let lines := completeLines (strippedText stripAnsi body) in
  exists timed : list (Z * jsstring),
    List.map snd timed = lines
    /\ feed stripAnsi toLowerCase (Some (run t1 t2), p) ((t0, startChunk) :: body)
       = (Some (set_outputBuffer (tailFragment (strippedText stripAnsi body))
                  (set_outputStarted true (run t1 t2))),
          state_of (processLines toLowerCase timed p),
          log_of (processLines toLowerCase timed p)).
Proof.
  intros Hs Hm. cbv zeta.
  destruct (feed_capturing stripAnsi toLowerCase body (set_outputStarted true (run t1 t2)) p
              Hm eq_refl eq_refl) as (timed & Ht & E).
  cbn [app outputBuffer set_outputStarted] in Ht, E.
  exists timed. split; [exact Ht|].
  rewrite (feed_cons_eq stripAnsi toLowerCase (Some (run t1 t2), p) (t0, startChunk) body
             (Some (set_outputStarted true (run t1 t2))) p []).
  2:{ unfold feed1, outputHandler. cbn [fst snd]. cbv zeta. rewrite Hs. reflexivity. }
  rewrite E. reflexivity.
Qed.

End EndToEnd.

(** ** disposeAll, and the promise of an execution *)

Section Dispose.

Variable stripAnsi : jsstring -> jsstring.
Variable toLowerCase : jsstring -> jsstring.

Lemma step_disposeAll (w : World) (i : input) :
  step stripAnsi toLowerCase (disposeAll w) i
  = disposeAll (step stripAnsi toLowerCase w i).
Proof.
  destruct i as [tid now data|handle now]; cbn [step].
  - reflexivity.
  - unfold fireTimeout, disposeAll. cbn [heap registry manager].
    destruct (heap w !! handle) as [x|]; [|reflexivity].
    destruct (exec_cleanupTimeout x) as [due|]; [|reflexivity].
    destruct (due <=? now)%Z; reflexivity.
Qed.

(** X10. [disposeAll] stops no command: the data handlers stay
    subscribed and the timers pending. Whatever chunks arrive and timers
    fire after it, the world is the one reached without [disposeAll],
    with the manager cleared: busy flags, promises and subscriptions
    evolve as if it had not been called. *)
Theorem disposeAll_stops_no_command (w : World) (inputs : list input) :
  fold_left (step stripAnsi toLowerCase) inputs (disposeAll w)
  = disposeAll (fold_left (step stripAnsi toLowerCase) inputs w)
  /\ (forall tid,
        busyOf (fold_left (step stripAnsi toLowerCase) inputs (disposeAll w)) tid
        = busyOf (fold_left (step stripAnsi toLowerCase) inputs w) tid)
  /\ (forall handle,
        promiseOf (fold_left (step stripAnsi toLowerCase) inputs (disposeAll w)) handle
        = promiseOf (fold_left (step stripAnsi toLowerCase) inputs w) handle
        /\ subscribed (fold_left (step stripAnsi toLowerCase) inputs (disposeAll w)) handle
           = subscribed (fold_left (step stripAnsi toLowerCase) inputs w) handle).
Proof.
  assert (E : fold_left (step stripAnsi toLowerCase) inputs (disposeAll w)
              = disposeAll (fold_left (step stripAnsi toLowerCase) inputs w)).
  { revert w. induction inputs as [|i rest IH]; intros w; [reflexivity|].
    cbn [fold_left]. rewrite step_disposeAll. apply IH. }
  split; [exact E|]. rewrite E. split; [|split]; reflexivity.
Qed.

End Dispose.

Lemma run_callback_settled (e : event) (st : Execution * gmap N TerminalInfo) (f : listener) :
  (exec_promise (fst st) <> Pending ->
   exec_promise (fst (run_callback e st f)) = exec_promise (fst st))
  /\ (timerCleared (fst st) -> timerCleared (fst (run_callback e st f)))
  /\ (exec_cleanupTimeout (fst st) = None ->
      exec_cleanupTimeout (fst (run_callback e st f)) = None).
Proof.
  destruct st as [x reg]. unfold timerCleared.
  destruct f; cbn; repeat split; try tauto;
    destruct (exec_promise x); cbn; tauto.
Qed.

Lemma run_emissions_settled (l : list emission) (st : Execution * gmap N TerminalInfo) :
  (exec_promise (fst st) <> Pending ->
   exec_promise (fst (run_emissions l st)) = exec_promise (fst st))
  /\ (timerCleared (fst st) -> timerCleared (fst (run_emissions l st)))
  /\ (exec_cleanupTimeout (fst st) = None ->
      exec_cleanupTimeout (fst (run_emissions l st)) = None).
Proof.
  assert (Hcb : forall e fs st,
    (exec_promise (fst st) <> Pending ->
     exec_promise (fst (fold_left (run_callback e) fs st)) = exec_promise (fst st))
    /\ (timerCleared (fst st) -> timerCleared (fst (fold_left (run_callback e) fs st)))
    /\ (exec_cleanupTimeout (fst st) = None ->
        exec_cleanupTimeout (fst (fold_left (run_callback e) fs st)) = None)).
  { intros e fs. induction fs as [|f fs IH]; intros st0; [tauto|].
    cbn [fold_left]. destruct (IH (run_callback e st0 f)) as (H1 & H2 & H3).
    destruct (run_callback_settled e st0 f) as (G1 & G2 & G3).
    split; [|split].
    - intros Hp. rewrite H1; [apply G1, Hp|]. rewrite (G1 Hp). exact Hp.
    - intros Hc. apply H2, G2, Hc.
    - intros Hn. apply H3, G3, Hn. }
  revert st. induction l as [|m l IH]; intros st; [tauto|].
  unfold run_emissions in *. cbn [fold_left].
  destruct (IH (run_emission st m)) as (H1 & H2 & H3).
  destruct (Hcb (emitted m) (called m) st) as (G1 & G2 & G3).
  fold (run_emission st m) in G1, G2, G3.
  split; [|split].
  - intros Hp. rewrite H1; [apply G1, Hp|]. rewrite (G1 Hp). exact Hp.
  - intros Hc. apply H2, G2, Hc.
  - intros Hn. apply H3, G3, Hn.
Qed.

Section Settled.

Variable stripAnsi : jsstring -> jsstring.
Variable toLowerCase : jsstring -> jsstring.

Lemma receive_settled (t : N) (now : Z) (data : jsstring) (x : Execution)
  (reg : gmap N TerminalInfo) :
  (exec_promise x <> Pending ->
   exec_promise (fst (receive stripAnsi toLowerCase t now data x reg)) = exec_promise x)
  /\ (timerCleared x -> timerCleared (fst (receive stripAnsi toLowerCase t now data x reg))).
Proof.
  unfold receive. destruct (exec_terminal x =? t); [|tauto].
  destruct (exec_subscription x) as [c|]; [|tauto].
  set (r := outputHandler stripAnsi toLowerCase now data c (exec_process x)).
  destruct (run_emissions_settled (log_of r)
              (set_process (state_of r) (set_subscription (value_of r) x), reg))
    as (H1 & H2 & _).
  split; [exact H1|exact H2].
Qed.

Lemma step_settled (w : World) (i : input) (handle : nat) (x : Execution) :
  heap w !! handle = Some x ->
  exists x', heap (step stripAnsi toLowerCase w i) !! handle = Some x'
    /\ (exec_promise x <> Pending -> exec_promise x' = exec_promise x)
    /\ (timerCleared x -> timerCleared x').
Proof.
  intros Hx. destruct i as [t now data|j now]; cbn [step].
  - destruct (deliver_lookup stripAnsi toLowerCase t now data w handle x Hx) as [reg' E].
    eexists. split; [exact E|]. apply receive_settled.
  - unfold fireTimeout. destruct (heap w !! j) as [y|] eqn:Hy; [|eauto].
    destruct (exec_cleanupTimeout y) as [due|] eqn:Hdue; [|eauto].
    destruct (due <=? now)%Z; [|eauto]. cbn [heap].
    destruct (decide (j = handle)) as [->|Hne].
    + rewrite Hx in Hy. injection Hy as <-.
      rewrite list_lookup_insert_eq by (eapply lookup_lt_Some; eassumption).
      eexists. split; [reflexivity|].
      set (r := emit (Error (timeoutError (exec_command x))) (exec_process x)).
      destruct (run_emissions_settled (log_of r)
                  (set_process (state_of r) (set_cleanupTimeout None x), registry w))
        as (H1 & _ & H3).
      split; [exact H1|]. intros _ _. apply H3. reflexivity.
    + rewrite list_lookup_insert_ne by exact Hne. eauto.
Qed.

Lemma steps_settled (inputs : list input) :
  forall (w : World) (handle : nat) (x : Execution),
  heap w !! handle = Some x ->
  exists x', heap (fold_left (step stripAnsi toLowerCase) inputs w) !! handle = Some x'
    /\ (exec_promise x <> Pending -> exec_promise x' = exec_promise x)
    /\ (timerCleared x -> timerCleared x').
Proof.
  induction inputs as [|i rest IH]; intros w handle x Hx; [eauto|].
  destruct (step_settled w i handle x Hx) as (x1 & Hx1 & Hp1 & Hc1).
  destruct (IH _ handle x1 Hx1) as (x2 & Hx2 & Hp2 & Hc2).
  exists x2. cbn [fold_left]. split; [exact Hx2|]. split.
  - intros Hp. rewrite Hp2; [apply Hp1, Hp|]. rewrite (Hp1 Hp). exact Hp.
  - intros Hc. apply Hc2, Hc1, Hc.
Qed.

(** X11. Once the handle returned by [runCommand] is settled (fulfilled
    or rejected), it keeps that state whatever chunks arrive and timers
    fire later, and its timer is gone: the timeout callback no longer
    has any effect. *)
Theorem settled_handle_is_final
  (w : World) (tid : N) (command : jsstring) (now t1 t2 : Z) (inputs : list input)
  (q : promise) :
  let handle := length (heap w) in
  let w' := fold_left (step stripAnsi toLowerCase) inputs (runCommand tid command now t1 t2 w) in
  promiseOf w' handle = Some q ->
  q <> Pending ->
  (forall more : list input,
     promiseOf (fold_left (step stripAnsi toLowerCase) more w') handle = Some q)
  /\ (forall now', fireTimeout handle now' w' = w').
Proof.
  cbv zeta. intros Hq Hne.
  assert (Hx0 : heap (runCommand tid command now t1 t2 w) !! length (heap w)
                = Some (submitted tid command now t1 t2)).
  { rewrite runCommand_heap. apply list_lookup_middle. reflexivity. }
  destruct (steps_settled inputs _ _ _ Hx0) as (x & Hx & _ & Hc).
  assert (Hclear : timerCleared x).
  { apply Hc. intros H. contradiction H. reflexivity. }
  unfold promiseOf in Hq. rewrite Hx in Hq. injection Hq as Hq.
  split.
  - intros more. destruct (steps_settled more _ _ _ Hx) as (x' & Hx' & Hp & _).
    unfold promiseOf. rewrite Hx'. cbn. f_equal. rewrite Hp; [exact Hq|].
    rewrite Hq. exact Hne.
  - intros now'. unfold fireTimeout. rewrite Hx.
    rewrite Hclear; [reflexivity|]. rewrite Hq. exact Hne.
Qed.

End Settled.

(** ** getTerminals and isProcessHot *)

Lemma run_callback_label (e : event) (st : Execution * gmap N TerminalInfo) (f : listener)
  (t : N) :
  label <$> snd (run_callback e st f) !! t = label <$> snd st !! t.
Proof.
  destruct f as [tid'| | |tag]; cbn [run_callback snd]; try reflexivity.
  destruct (decide (tid' = t)) as [->|Hne].
  - rewrite lookup_alter_eq. destruct (snd st !! t); reflexivity.
  - rewrite lookup_alter_ne by exact Hne. reflexivity.
Qed.

Lemma run_emissions_label (l : list emission) (st : Execution * gmap N TerminalInfo) (t : N) :
  label <$> snd (run_emissions l st) !! t = label <$> snd st !! t.
Proof.
  revert st. induction l as [|m l IH]; intros st; [reflexivity|].
  unfold run_emissions in *. cbn [fold_left]. rewrite IH.
  unfold run_emission. generalize (called m). intros fs. revert st.
  induction fs as [|f fs IHf]; intros st; [reflexivity|].
  cbn [fold_left]. rewrite IHf. apply run_callback_label.
Qed.

Section Labels.

Variable stripAnsi : jsstring -> jsstring.
Variable toLowerCase : jsstring -> jsstring.

Lemma receive_label (tid : N) (now : Z) (data : jsstring) (x : Execution)
  (reg : gmap N TerminalInfo) (t : N) :
  label <$> snd (receive stripAnsi toLowerCase tid now data x reg) !! t = label <$> reg !! t.
Proof.
  unfold receive. destruct (exec_terminal x =? tid); [|reflexivity].
  destruct (exec_subscription x) as [c|]; [|reflexivity].
  apply run_emissions_label.
Qed.

Lemma deliver_heap_label (tid : N) (now : Z) (data : jsstring) (h : list Execution) (t : N) :
  forall reg,
  label <$> snd (deliver_heap stripAnsi toLowerCase tid now data h reg) !! t
  = label <$> reg !! t.
Proof.
  induction h as [|x h IH]; intros reg; [reflexivity|].
  cbn [deliver_heap snd]. rewrite IH. apply receive_label.
Qed.

Lemma step_label (w : World) (i : input) (t : N) :
  label <$> registry (step stripAnsi toLowerCase w i) !! t = label <$> registry w !! t.
Proof.
  destruct i as [tid now data|j now]; cbn [step].
  - apply deliver_heap_label.
  - unfold fireTimeout. destruct (heap w !! j) as [y|]; [|reflexivity].
    destruct (exec_cleanupTimeout y) as [due|]; [|reflexivity].
    destruct (due <=? now)%Z; [|reflexivity]. cbn [registry].
    apply run_emissions_label.
Qed.

Lemma steps_label (inputs : list input) (t : N) :
  forall w,
  label <$> registry (fold_left (step stripAnsi toLowerCase) inputs w) !! t
  = label <$> registry w !! t.
Proof.
  induction inputs as [|i rest IH]; intros w; [reflexivity|].
  cbn [fold_left]. rewrite IH. apply step_label.
Qed.

(** X12. After [runCommand] on an owned session whose registry entry
    carries its id, and whatever chunks and timers follow,
    [getTerminals] lists the session with that command as [lastCommand]
    under its current busy flag; what it lists under the other flag are
    entries of owned sessions that have that flag. *)
Theorem session_is_listed_under_its_last_command
  (w : World) (tid : N) (info : TerminalInfo) (command : jsstring) (now t1 t2 : Z)
  (inputs : list input) :
  registry w !! tid = Some info ->
  info_id info = tid ->
  In tid (terminalIds (manager w)) ->
  let w' := fold_left (step stripAnsi toLowerCase) inputs (runCommand tid command now t1 t2 w) in
  exists b : bool,
    busyOf w' tid = Some b
    /\ In (tid, command) (getTerminals b w')
    /\ forall entry, In entry (getTerminals (negb b) w') ->
         exists tid' info', In tid' (terminalIds (manager w))
           /\ registry w' !! tid' = Some info' /\ busy info' = negb b
           /\ entry = label info'.
Proof.
  intros Hreg Hid Hin. cbv zeta.
  set (w1 := runCommand tid command now t1 t2 w).
  set (w' := fold_left (step stripAnsi toLowerCase) inputs w1).
  assert (Hl : label <$> registry w' !! tid = Some (tid, command)).
  { unfold w'. rewrite steps_label. unfold w1, runCommand. cbn [registry].
    rewrite lookup_alter_eq, Hreg. cbn. unfold label. cbn. rewrite Hid. reflexivity. }
  assert (Hm : terminalIds (manager w') = terminalIds (manager w)).
  { unfold w'. rewrite steps_manager. reflexivity. }
  destruct (registry w' !! tid) as [info'|] eqn:Hinfo'; [|discriminate Hl].
  assert (Hlab : label info' = (tid, command)) by (cbn in Hl; congruence).
  exists (busy info'). split; [unfold busyOf; rewrite Hinfo'; reflexivity|]. split.
  - unfold getTerminals. rewrite Hm. fold label. rewrite <- Hlab.
    apply in_map with (f := label). apply filter_In. split.
    + apply list_elem_of_In, list_elem_of_omap. exists tid. split; [|exact Hinfo'].
      apply list_elem_of_In, Hin.
    + destruct (busy info'); reflexivity.
  - intros entry He. unfold getTerminals in He. rewrite Hm in He.
    apply in_map_iff in He as (i' & <- & Hi'). apply filter_In in Hi' as [Hi' Hb].
    apply list_elem_of_In, list_elem_of_omap in Hi' as (tid' & Ht' & Hr').
    exists tid', i'. split; [apply list_elem_of_In, Ht'|]. split; [exact Hr'|].
    split; [|reflexivity]. apply Bool.eqb_prop in Hb. exact Hb.
Qed.

End Labels.

Section Hotness.

Variable stripAnsi : jsstring -> jsstring.
Variable toLowerCase : jsstring -> jsstring.

(** X13. [runCommand] starts from a fresh process. Right after it,
    [isProcessHot] is false at every clock reading and
    [getUnretrievedOutput] returns the empty string for the session,
    whatever the previous process of the session had recorded; the
    earlier executions stay as they were. After chunks written by the
    terminal of the session, [isProcessHot] answers with [isHot] of that
    process as its own data handler has driven it. *)
Theorem submission_starts_from_a_fresh_process
  (w : World) (tid : N) (command : jsstring) (now t1 t2 : Z) :
  let w1 := runCommand tid command now t1 t2 w in
  (forall now', isProcessHot tid now' w1 = false)
  /\ fst (managerGetUnretrievedOutput tid w1) = []
  /\ (forall handle x, heap w !! handle = Some x -> heap w1 !! handle = Some x)
  /\ (forall chunks now',
        isProcessHot tid now' (deliverAll stripAnsi toLowerCase tid chunks w1)
        = isHot now'
            (state_of
               (feed stripAnsi toLowerCase (Some (run t1 t2), submittedProcess tid) chunks))).
Proof.
  cbv zeta.
  set (w1 := runCommand tid command now t1 t2 w).
  assert (Hx : heap w1 !! length (heap w) = Some (submitted tid command now t1 t2)).
  { unfold w1. rewrite runCommand_heap. apply list_lookup_middle. reflexivity. }
  assert (Hp : processes (manager w1) !! tid = Some (length (heap w))).
  { unfold w1. cbn [runCommand manager processes]. apply lookup_insert_eq. }
  split; [|split; [|split]].
  - intros now'. unfold isProcessHot. rewrite Hp, Hx. reflexivity.
  - unfold managerGetUnretrievedOutput. rewrite Hp, Hx.
    destruct (negb _); reflexivity.
  - intros handle x H. unfold w1. rewrite runCommand_heap.
    apply lookup_app_l_Some, H.
  - intros chunks now'.
    destruct (deliverAll_feed stripAnsi toLowerCase tid chunks w1 _ _ Hx eq_refl)
      as (x' & Hx' & Hq & _).
    unfold isProcessHot. rewrite deliver_manager, Hp, Hx', Hq. reflexivity.
Qed.

End Hotness.

(** ** A command from submission to completion *)




Section HappyPath.

Variable stripAnsi : jsstring -> jsstring.
Variable toLowerCase : jsstring -> jsstring.
Variable tid : N.
Variable command : jsstring.
Variables now t1 t2 : Z.

Local Abbreviation tracked := (tracks tid command now t1 t2).

Lemma receive_open (now' : Z) (data : jsstring) (x : Execution) (c c' : Capture)
  (reg : gmap N TerminalInfo) :
  tracked x ->
  exec_subscription x = Some c ->
  value_of (outputHandler stripAnsi toLowerCase now' data c (exec_process x)) = Some c' ->
  receive stripAnsi toLowerCase tid now' data x reg
  = (set_process (state_of (outputHandler stripAnsi toLowerCase now' data c (exec_process x)))
       (set_subscription (Some c') x), reg).
Proof.
  intros Ht Hs Hv. pose proof Ht as (Hterm & _ & Hincl & _).
  unfold receive. rewrite Hterm, N.eqb_refl, Hs.
  destruct (quiet_handler_open stripAnsi toLowerCase now' data c c' (exec_process x)
              (managed_quiet tid _ Hincl) Hv) as (_ & Hq & _).
  rewrite (run_emissions_quiet _ _ Hq), Hv. reflexivity.
Qed.

Lemma deliverAll_pending (chunks : list (Z * jsstring)) :
  forall (w : World) (handle : nat) (x : Execution) (c : Capture),
  heap w !! handle = Some x ->
  tracked x ->
  exec_subscription x = Some c ->
  is_Some (value_of (feed stripAnsi toLowerCase (Some c, exec_process x) chunks)) ->
  exists x',
    heap (deliverAll stripAnsi toLowerCase tid chunks w) !! handle = Some x'
    /\ tracked x'
    /\ exec_promise x' = exec_promise x
    /\ exec_process x'
       = state_of (feed stripAnsi toLowerCase (Some c, exec_process x) chunks)
    /\ exec_subscription x'
       = value_of (feed stripAnsi toLowerCase (Some c, exec_process x) chunks).
Proof.
  induction chunks as [|[now' data] rest IH]; intros w handle x c Hx Ht Hs Hopen.
  - exists x. split; [exact Hx|]. split; [exact Ht|]. split; [reflexivity|].
    split; [reflexivity|exact Hs].
  - rewrite (feed_cons stripAnsi toLowerCase) in Hopen |- *.
    unfold feed1 in *. cbn [fst snd] in *.
    set (r := outputHandler stripAnsi toLowerCase now' data c (exec_process x)) in *.
    unfold value_of at 1, state_of at 1 in Hopen. cbn [fst snd] in Hopen.
    unfold value_of at 1, state_of at 1. cbn [fst snd].
    destruct (value_of r) as [c'|] eqn:Hv.
    2:{ rewrite feed_disposed in Hopen. cbn in Hopen. destruct Hopen as [? [=]]. }
    unfold deliverAll. cbn [fold_left fst snd].
    destruct (deliver_lookup stripAnsi toLowerCase tid now' data w handle x Hx) as (reg' & Hx1).
    rewrite (receive_open now' data x c c' reg' Ht Hs Hv) in Hx1. cbn [fst] in Hx1.
    fold r in Hx1.
    assert (Ht1 : tracked (set_process (state_of r) (set_subscription (Some c') x))).
    { pose proof (receive_tracks stripAnsi toLowerCase tid command now t1 t2 tid now' data x reg' Ht)
        as H. rewrite (receive_open now' data x c c' reg' Ht Hs Hv) in H. exact H. }
    destruct (IH _ handle _ c' Hx1 Ht1 eq_refl Hopen) as (x' & Hx' & Ht' & Hp' & Hq' & Hs').
    exists x'. split; [exact Hx'|]. split; [exact Ht'|]. split; [exact Hp'|].
    split; [exact Hq'|exact Hs'].
Qed.


Variable w : World.
Variable info : TerminalInfo.
Hypothesis registered : registry w !! tid = Some info.
Hypothesis owned : In tid (terminalIds (manager w)).

Variables (t0 : Z) (startChunk : jsstring) (body : list (Z * jsstring)).
Hypothesis start_seen : JS.includes (stripAnsi startChunk) (startMarker (run t1 t2)) = true.
Hypothesis body_plain : forallb (markerFree stripAnsi (run t1 t2)) body = true.

Local Abbreviation w1 := (runCommand tid command now t1 t2 w).
Local Abbreviation handle := (length (heap w)).
Local Abbreviation text := (strippedText stripAnsi body).
Local Abbreviation running :=
  (deliverAll stripAnsi toLowerCase tid ((t0, startChunk) :: body) w1).

Lemma running_execution :
  exists (x : Execution) (timed : list (Z * jsstring)),
    heap running !! handle = Some x
    /\ tracked x
    /\ exec_promise x = Pending
    /\ List.map snd timed = completeLines text
    /\ exec_process x = state_of (processLines toLowerCase timed (submittedProcess tid))
    /\ exec_subscription x
       = Some (set_outputBuffer (tailFragment text) (set_outputStarted true (run t1 t2))).
Proof.
  assert (Hx : heap w1 !! handle = Some (submitted tid command now t1 t2)).
  { rewrite runCommand_heap. apply list_lookup_middle. reflexivity. }
  destruct (capture_after_start stripAnsi toLowerCase t1 t2 t0 startChunk body
              (submittedProcess tid) start_seen body_plain) as (timed & Ht & E).
  destruct (deliverAll_pending ((t0, startChunk) :: body) w1 handle _ (run t1 t2) Hx
              (submitted_tracks tid command now t1 t2) eq_refl)
    as (x & Hx' & Htr & Hp & Hq & Hs).
  { cbn [exec_process submitted]. rewrite E. cbn. eauto. }
  cbn [exec_process submitted] in Hq, Hs. rewrite E in Hq, Hs.
  exists x, timed. split; [exact Hx'|]. split; [exact Htr|]. split; [exact Hp|].
  split; [exact Ht|]. split; [exact Hq|exact Hs].
Qed.

(** X14. A running command. After [runCommand] on an owned session, a
    chunk with the start marker and then chunks that show no marker, the
    handle is still pending, the data handler still subscribed, and
    [getUnretrievedOutput] returns the complete lines written so far,
    each as [processOutput] recorded it and [sanitizeLines] then cleaned
    it, joined by newlines. The partial last line is not part of it. *)
Theorem running_command_can_be_polled :
  promiseOf running handle = Some Pending
  /\ subscribed running handle = true
  /\ fst (managerGetUnretrievedOutput tid running)
     = JS.join_nl (sanitizeLines (List.concat (List.map recordedFor (completeLines text)))).
Proof.
  destruct running_execution as (x & timed & Hx & _ & Hp & Ht & Hq & Hs).
  split; [unfold promiseOf; rewrite Hx; cbn; congruence|].
  split; [unfold subscribed; rewrite Hx, Hs; reflexivity|].
  destruct (processLines_records toLowerCase timed (submittedProcess tid))
    as (_ & Hf & _ & _ & _ & Hc).
  rewrite Ht, <- Hq in Hf. rewrite <- Hq in Hc.
  assert (Hp' : processes (manager running) !! tid = Some handle).
  { rewrite deliver_manager. apply lookup_insert_eq. }
  assert (Hin' : In tid (terminalIds (manager running))).
  { rewrite deliver_manager. exact owned. }
  rewrite (manager_poll tid _ _ _ Hin' Hp' Hx). cbn [fst]. rewrite Hc, Hf.
  cbn [lastRetrievedIndex fullOutput submittedProcess set_listeners
       set_waitForShellIntegration newTerminalProcess app].
  unfold JS.slice_from. rewrite drop_0.
  apply poll_of_record, recordedFor_noNewline, completeLines_pieces.
Qed.

Variables (te : Z) (endChunk : jsstring).
Hypothesis end_seen : JS.includes (stripAnsi endChunk) (endMarker (run t1 t2)) = true.
Hypothesis end_only : JS.includes (stripAnsi endChunk) (startMarker (run t1 t2)) = false.

Local Abbreviation done := (deliver stripAnsi toLowerCase tid te endChunk running).


End HappyPath.

(** ** Sessions do not interfere *)

Lemma narrows_ret {A : Type} (a : A) : narrows (mret a).
Proof. intros p. split; [apply incl_refl|constructor]. Qed.

Lemma narrows_modify (f : TerminalProcess -> TerminalProcess) :
  (forall p, listeners (f p) = listeners p) -> narrows (modify f).
Proof. intros H p. cbn. rewrite H. split; [apply incl_refl|constructor]. Qed.

Lemma narrows_gets {A : Type} (f : TerminalProcess -> A) : narrows (gets f).
Proof. intros p. split; [apply incl_refl|constructor]. Qed.

Lemma narrows_emit (e : event) : narrows (emit e).
Proof.
  intros p. rewrite emit_eq. unfold state_of, log_of. cbn [fst snd listeners set_listeners].
  split; [apply survivors_incl|].
  constructor; [|constructor]. cbn [called].
  intros f Hf. apply in_map_iff in Hf as (r & <- & Hr). apply filter_In in Hr as [Hr _].
  apply in_map, Hr.
Qed.

Lemma narrows_bind {A B : Type} (m : Eff A) (k : A -> Eff B) :
  narrows m -> (forall a, narrows (k a)) -> narrows (m ≫= k).
Proof.
  intros Hm Hk p. destruct (Hm p) as [H1 H2].
  unfold mbind, Eff_bind, state_of, log_of in *.
  destruct (m p) as [[a p1] l1]. cbn [fst snd] in *.
  destruct (Hk a p1) as [H3 H4]. unfold state_of, log_of in *.
  destruct (k a p1) as [[b p2] l2]. cbn [fst snd] in *.
  split; [eapply incl_tran; eassumption|].
  apply Forall_app. split; [exact H2|].
  eapply List.Forall_impl; [|exact H4]. intros e He.
  eapply incl_tran; [exact He|]. apply incl_map, H1.
Qed.

Lemma narrows_when (b : bool) (m : Eff unit) : narrows m -> narrows (when b m).
Proof. intros H. unfold when. destruct b; [exact H|apply narrows_ret]. Qed.

Lemma narrows_forEach {A : Type} (l : list A) (f : A -> Eff unit) :
  (forall a, narrows (f a)) -> narrows (forEach l f).
Proof.
  intros H. induction l as [|x r IH]; [apply narrows_ret|].
  cbn [forEach]. apply narrows_bind; [apply H|intros _; exact IH].
Qed.

Section Isolation.

Variable stripAnsi : jsstring -> jsstring.
Variable toLowerCase : jsstring -> jsstring.

Lemma narrows_processOutput (now : Z) (data : jsstring) :
  narrows (processOutput toLowerCase now data).
Proof.
  unfold processOutput. destruct (negb (JS.truthy (JS.trim data))); [apply narrows_ret|].
  cbv zeta. apply narrows_bind.
  - apply narrows_when. apply narrows_bind; [apply narrows_modify; reflexivity|].
    intros _. apply narrows_bind; [apply narrows_gets|].
    intros l. apply narrows_when, narrows_emit.
  - intros _. unfold updateHotState. apply narrows_modify. reflexivity.
Qed.

Lemma narrows_outputHandler (now : Z) (data : jsstring) (c : Capture) :
  narrows (outputHandler stripAnsi toLowerCase now data c).
Proof.
  unfold outputHandler. cbv zeta.
  destruct (JS.includes (stripAnsi data) (startMarker c)); [apply narrows_ret|].
  destruct (JS.includes (stripAnsi data) (endMarker c)).
  { apply narrows_bind; [apply narrows_when, narrows_processOutput|].
    intros _. apply narrows_bind; [apply narrows_emit|].
    intros _. apply narrows_bind; [apply narrows_emit|].
    intros _. apply narrows_ret. }
  destruct (outputStarted c); [|apply narrows_ret].
  destruct (1 <? length (JS.split_nl (outputBuffer c ++ stripAnsi data)))%nat;
    [|apply narrows_ret].
  apply narrows_bind; [apply narrows_forEach; intros a; apply narrows_processOutput|].
  intros _. apply narrows_ret.
Qed.

(** What the callbacks of a managed execution do to the registry. *)
Lemma managed_callbacks_registry (e : event) (fs : list listener) (x : Execution)
  (reg : gmap N TerminalInfo) (tid : N) :
  incl fs [SetIdle tid; ResolvePromise; RejectPromise] ->
  (forall t, t <> tid -> snd (fold_left (run_callback e) fs (x, reg)) !! t = reg !! t)
  /\ (~ In (SetIdle tid) fs -> snd (fold_left (run_callback e) fs (x, reg)) = reg)
  /\ exec_process (fst (fold_left (run_callback e) fs (x, reg))) = exec_process x
  /\ exec_terminal (fst (fold_left (run_callback e) fs (x, reg))) = exec_terminal x.
Proof.
  revert x reg. induction fs as [|f fs IH]; intros x reg Hincl.
  - cbn. repeat split; reflexivity.
  - assert (Hf : In f [SetIdle tid; ResolvePromise; RejectPromise])
      by (apply Hincl; left; reflexivity).
    assert (Hfs : incl fs [SetIdle tid; ResolvePromise; RejectPromise])
      by (intros g Hg; apply Hincl; right; exact Hg).
    cbn [fold_left]. rewrite run_callback_split.
    destruct (IH (execEffect e x f) (registryEffect reg f) Hfs) as (H1 & H2 & H3 & H4).
    split; [|split; [|split]].
    + intros t Ht. rewrite (H1 t Ht).
      destruct Hf as [<-|[<-|[<-|[]]]]; cbn [registryEffect]; try reflexivity.
      apply lookup_alter_ne. congruence.
    + intros Hn. rewrite H2 by (intros H; apply Hn; right; exact H).
      destruct Hf as [<-|[<-|[<-|[]]]]; cbn [registryEffect]; try reflexivity.
      exfalso. apply Hn. left. reflexivity.
    + rewrite H3. destruct f; reflexivity.
    + rewrite H4. destruct f; reflexivity.
Qed.

Lemma managed_emissions_registry (l : list emission) (x : Execution)
  (reg : gmap N TerminalInfo) (tid : N) :
  Forall (fun e => incl (called e) [SetIdle tid; ResolvePromise; RejectPromise]) l ->
  (forall t, t <> tid -> snd (run_emissions l (x, reg)) !! t = reg !! t)
  /\ (Forall (fun e => ~ In (SetIdle tid) (called e)) l ->
      snd (run_emissions l (x, reg)) = reg)
  /\ exec_process (fst (run_emissions l (x, reg))) = exec_process x
  /\ exec_terminal (fst (run_emissions l (x, reg))) = exec_terminal x.
Proof.
  revert x reg. induction l as [|m l IH]; intros x reg Hl.
  - cbn. repeat split; reflexivity.
  - apply Forall_cons in Hl as [Hm Hl].
    unfold run_emissions in *. cbn [fold_left]. unfold run_emission at 2 4 6 8.
    destruct (managed_callbacks_registry (emitted m) (called m) x reg tid Hm)
      as (G1 & G2 & G3 & G4).
    destruct (fold_left (run_callback (emitted m)) (called m) (x, reg)) as [x1 reg1].
    cbn [fst snd] in *.
    destruct (IH x1 reg1 Hl) as (H1 & H2 & H3 & H4).
    split; [|split; [|split]].
    + intros t Ht. rewrite (H1 t Ht). apply G1, Ht.
    + intros Hn. apply Forall_cons in Hn as [Hn1 Hn2]. rewrite (H2 Hn2). apply G2, Hn1.
    + congruence.
    + congruence.
Qed.

Lemma managed_callbacks_incl (x : Execution) (l : list registration) :
  incl l (listeners (exec_process x)) ->
  managedExecution x ->
  incl (List.map reg_callback l) [SetIdle (exec_terminal x); ResolvePromise; RejectPromise].
Proof.
  intros Hl Hx f Hf. apply in_map_iff in Hf as (r & <- & Hr).
  specialize (Hx r (Hl r Hr)).
  destruct Hx as [<-|[<-|[<-|[]]]]; cbn; auto.
Qed.

Lemma receive_managed (tid' : N) (now : Z) (data : jsstring) (x : Execution)
  (reg : gmap N TerminalInfo) :
  managedExecution x ->
  managedExecution (fst (receive stripAnsi toLowerCase tid' now data x reg))
  /\ (forall t, t <> tid' ->
        snd (receive stripAnsi toLowerCase tid' now data x reg) !! t = reg !! t)
  /\ (exec_terminal x <> tid' ->
      receive stripAnsi toLowerCase tid' now data x reg = (x, reg)).
Proof.
  intros Hx. unfold receive.
  destruct (N.eqb_spec (exec_terminal x) tid') as [Heq|Hne].
  2:{ cbn [fst snd]. split; [exact Hx|]. split; reflexivity. }
  destruct (exec_subscription x) as [c|] eqn:Hs.
  2:{ cbn [fst snd]. split; [exact Hx|]. split; reflexivity. }
  destruct (narrows_outputHandler now data c (exec_process x)) as [Hn1 Hn2].
  set (r := outputHandler stripAnsi toLowerCase now data c (exec_process x)) in *.
  assert (Hcalls : Forall (fun e => incl (called e)
                     [SetIdle tid'; ResolvePromise; RejectPromise]) (log_of r)).
  { eapply List.Forall_impl; [|exact Hn2]. intros e He.
    eapply incl_tran; [exact He|]. rewrite <- Heq.
    apply managed_callbacks_incl; [apply incl_refl|exact Hx]. }
  destruct (managed_emissions_registry (log_of r)
              (set_process (state_of r) (set_subscription (value_of r) x)) reg tid' Hcalls)
    as (H1 & _ & H3 & H4).
  split; [|split].
  - unfold managedExecution. rewrite H3, H4. cbn [exec_process exec_terminal set_process
      set_subscription]. eapply incl_tran; [exact Hn1|exact Hx].
  - exact H1.
  - intros H. contradiction.
Qed.

Lemma deliver_heap_managed (tid' : N) (now : Z) (data : jsstring) (h : list Execution) :
  forall reg,
  Forall managedExecution h ->
  Forall managedExecution (fst (deliver_heap stripAnsi toLowerCase tid' now data h reg))
  /\ (forall t, t <> tid' ->
        snd (deliver_heap stripAnsi toLowerCase tid' now data h reg) !! t = reg !! t).
Proof.
  induction h as [|x h IH]; intros reg Hh.
  - cbn. split; [constructor|reflexivity].
  - apply Forall_cons in Hh as [Hx Hh]. cbn [deliver_heap fst snd].
    destruct (receive_managed tid' now data x reg Hx) as (H1 & H2 & _).
    destruct (IH (snd (receive stripAnsi toLowerCase tid' now data x reg)) Hh) as (H3 & H4).
    split; [constructor; assumption|].
    intros t Ht. rewrite (H4 t Ht). apply H2, Ht.
Qed.

Lemma deliver_heap_other (tid' : N) (now : Z) (data : jsstring) (h : list Execution) :
  forall reg (i : nat) (x : Execution),
  h !! i = Some x -> exec_terminal x <> tid' ->
  fst (deliver_heap stripAnsi toLowerCase tid' now data h reg) !! i = Some x.
Proof.
  induction h as [|y h IH]; intros reg i x Hi Hne; [discriminate Hi|].
  destruct i as [|i]; cbn in Hi |- *.
  - injection Hi as ->. unfold receive.
    destruct (N.eqb_spec (exec_terminal x) tid'); [contradiction|reflexivity].
  - apply IH; assumption.
Qed.

Lemma timeout_managed (x : Execution) (reg : gmap N TerminalInfo) :
  managedExecution x ->
  let r := emit (Error (timeoutError (exec_command x))) (exec_process x) in
  let st := run_emissions (log_of r)
              (set_process (state_of r) (set_cleanupTimeout None x), reg) in
  managedExecution (fst st) /\ snd st = reg.
Proof.
  intros Hx. cbv zeta. rewrite emit_eq. unfold state_of, log_of. cbn [fst snd name_of].
  set (l := listeners (exec_process x)) in *.
  set (x1 := set_process _ _).
  assert (Hcalls : Forall (fun e => incl (called e)
            [SetIdle (exec_terminal x); ResolvePromise; RejectPromise])
            [Emission (Error (timeoutError (exec_command x)))
               (List.map reg_callback (List.filter (hits on_error) l))]).
  { constructor; [|constructor]. cbn [called].
    apply managed_callbacks_incl; [|exact Hx].
    intros r Hr. apply filter_In in Hr as [Hr _]. exact Hr. }
  destruct (managed_emissions_registry _ x1 reg (exec_terminal x) Hcalls)
    as (_ & H2 & H3 & H4).
  split.
  - unfold managedExecution. rewrite H3, H4. unfold x1.
    cbn [exec_process exec_terminal set_process set_cleanupTimeout listeners set_listeners].
    eapply incl_tran; [apply survivors_incl|exact Hx].
  - apply H2. constructor; [|constructor]. cbn [called].
    pose proof (managed_callbacks (exec_terminal x) l on_error Hx) as Hm.
    intros Hin. rewrite List.Forall_forall in Hm. specialize (Hm _ Hin). discriminate Hm.
Qed.

Lemma Forall_insert_list {A : Type} (P : A -> Prop) (l : list A) (i : nat) (a : A) :
  Forall P l -> P a -> Forall P (<[i := a]> l).
Proof.
  intros Hl Ha. revert i. induction Hl as [|b l Hb Hl IH]; intros i; [constructor|].
  destruct i as [|i]; cbn; constructor; auto.
Qed.

(** X16. In a world all of whose executions hold only listeners that
    [runCommand] registered for their own terminal (a property that
    [runCommand], chunks, timers, [disposeAll] and polls preserve), a
    chunk written by one terminal changes neither the registry entry of
    another session nor an execution of another terminal, and a timer
    that fires changes no registry entry at all. *)
Theorem sessions_do_not_interfere (w : World) :
  managed w ->
  (forall i, managed (step stripAnsi toLowerCase w i))
  /\ (forall tid command now t1 t2, managed (runCommand tid command now t1 t2 w))
  /\ managed (disposeAll w)
  /\ (forall tid, managed (snd (managerGetUnretrievedOutput tid w)))
  /\ (forall tid now data t,
        t <> tid ->
        registry (deliver stripAnsi toLowerCase tid now data w) !! t = registry w !! t)
  /\ (forall tid now data handle x,
        heap w !! handle = Some x ->
        exec_terminal x <> tid ->
        heap (deliver stripAnsi toLowerCase tid now data w) !! handle = Some x)
  /\ (forall handle now, registry (fireTimeout handle now w) = registry w).
Proof.
  intros Hw. unfold managed in *.
  assert (Htimer : forall handle now,
            Forall managedExecution (heap (fireTimeout handle now w))
            /\ registry (fireTimeout handle now w) = registry w).
  { intros handle now. unfold fireTimeout.
    destruct (heap w !! handle) as [x|] eqn:Hx; [|split; [exact Hw|reflexivity]].
    destruct (exec_cleanupTimeout x) as [due|]; [|split; [exact Hw|reflexivity]].
    destruct (due <=? now)%Z; [|split; [exact Hw|reflexivity]].
    assert (Hmx : managedExecution x).
    { rewrite List.Forall_forall in Hw. apply Hw, list_elem_of_In.
      eapply list_elem_of_lookup_2. exact Hx. }
    destruct (timeout_managed x (registry w) Hmx) as [H1 H2]. cbv zeta in H1, H2.
    cbn [heap registry]. split; [|exact H2].
    apply Forall_insert_list; assumption. }
  split; [|split; [|split; [|split; [|split; [|split]]]]].
  - intros [tid now data|handle now]; cbn [step].
    + unfold deliver. cbn [heap]. apply deliver_heap_managed, Hw.
    + apply Htimer.
  - intros tid command now t1 t2. cbn [runCommand heap].
    apply Forall_app. split; [exact Hw|]. constructor; [|constructor].
    unfold managedExecution. cbn. apply incl_refl.
  - exact Hw.
  - intros tid. unfold managerGetUnretrievedOutput.
    destruct (negb _); [exact Hw|].
    destruct (processes (manager w) !! tid) as [i|]; [|exact Hw].
    destruct (heap w !! i) as [x|] eqn:Hx; [|exact Hw]. cbn [snd heap].
    apply Forall_insert_list; [exact Hw|].
    rewrite getUnretrievedOutput_state.
    assert (Hmx : managedExecution x).
    { rewrite List.Forall_forall in Hw. apply Hw, list_elem_of_In.
      eapply list_elem_of_lookup_2. exact Hx. }
    exact Hmx.
  - intros tid now data t Ht. unfold deliver. cbn [registry].
    apply deliver_heap_managed; assumption.
  - intros tid now data handle x Hx Hne. unfold deliver. cbn [heap].
    apply deliver_heap_other; assumption.
  - intros handle now. apply Htimer.
Qed.

End Isolation.

(** ** The busy flag of a session *)

Section BusyFlag.

Variable stripAnsi : jsstring -> jsstring.
Variable toLowerCase : jsstring -> jsstring.
Variable tid : N.
Variable command : jsstring.
Variables now t1 t2 : Z.

Local Abbreviation tracked := (tracks tid command now t1 t2).
Local Abbreviation busyWhileSubscribed_ := (busyWhileSubscribed tid command now t1 t2).

(** An execution on another terminal, or one whose handler is gone, lets
    the chunk pass. *)
Lemma receive_inert (t : N) (now' : Z) (data : jsstring) (x : Execution)
  (reg : gmap N TerminalInfo) :
  (exec_terminal x = t -> exec_subscription x = None) ->
  receive stripAnsi toLowerCase t now' data x reg = (x, reg).
Proof.
  intros H. unfold receive. destruct (N.eqb_spec (exec_terminal x) t) as [E|E]; [|reflexivity].
  rewrite (H E). reflexivity.
Qed.

(** When every other execution lets the chunk pass, the chunk is
    received by execution [handle] alone. *)
Lemma deliver_heap_single (t : N) (now' : Z) (data : jsstring) (h : list Execution) :
  forall (reg : gmap N TerminalInfo) (handle : nat) (x : Execution),
  h !! handle = Some x ->
  aloneOn t handle h ->
  deliver_heap stripAnsi toLowerCase t now' data h reg
  = (<[handle := fst (receive stripAnsi toLowerCase t now' data x reg)]> h,
     snd (receive stripAnsi toLowerCase t now' data x reg)).
Proof.
  assert (Hinert : forall (h : list Execution) reg,
            (forall i y, h !! i = Some y -> exec_terminal y = t -> exec_subscription y = None) ->
            deliver_heap stripAnsi toLowerCase t now' data h reg = (h, reg)).
  { intros h0. induction h0 as [|y h0 IH]; intros reg H; [reflexivity|].
    cbn [deliver_heap]. rewrite (receive_inert t now' data y reg (H 0%nat y eq_refl)).
    cbn [fst snd]. rewrite IH; [reflexivity|].
    intros i z Hz. apply (H (S i) z Hz). }
  induction h as [|y h IH]; intros reg handle x Hx Halone; [discriminate Hx|].
  destruct handle as [|handle]; cbn in Hx.
  - injection Hx as ->. cbn [deliver_heap].
    rewrite Hinert; [reflexivity|].
    intros i z Hz. apply (Halone (S i) z Hz). discriminate.
  - cbn [deliver_heap].
    rewrite (receive_inert t now' data y reg (Halone 0%nat y eq_refl ltac:(discriminate))).
    cbn [fst snd]. rewrite (IH reg handle x Hx); [reflexivity|].
    intros i z Hz Hne. apply (Halone (S i) z Hz). congruence.
Qed.

Lemma deliver_heap_length (t : N) (now' : Z) (data : jsstring) (h : list Execution) :
  forall reg, length (fst (deliver_heap stripAnsi toLowerCase t now' data h reg)) = length h.
Proof.
  induction h as [|y h IH]; intros reg; [reflexivity|].
  cbn [deliver_heap fst length]. rewrite IH. reflexivity.
Qed.

Lemma fireTimeout_length (j : nat) (now' : Z) (w : World) :
  length (heap (fireTimeout j now' w)) = length (heap w).
Proof.
  unfold fireTimeout. destruct (heap w !! j) as [y|]; [|reflexivity].
  destruct (exec_cleanupTimeout y) as [due|]; [|reflexivity].
  destruct (due <=? now')%Z; [|reflexivity]. cbn [heap]. apply length_insert.
Qed.

(** What a chunk of any terminal and a timer leave of an execution's
    terminal, and a timer of its subscription. *)
Lemma receive_terminal (t : N) (now' : Z) (data : jsstring) (x : Execution)
  (reg : gmap N TerminalInfo) :
  exec_terminal (fst (receive stripAnsi toLowerCase t now' data x reg)) = exec_terminal x.
Proof.
  unfold receive. destruct (exec_terminal x =? t); [|reflexivity].
  destruct (exec_subscription x) as [c|]; [|reflexivity].
  destruct (run_emissions_process
              (log_of (outputHandler stripAnsi toLowerCase now' data c (exec_process x)))
              (set_process
                 (state_of (outputHandler stripAnsi toLowerCase now' data c (exec_process x)))
                 (set_subscription
                    (value_of (outputHandler stripAnsi toLowerCase now' data c (exec_process x)))
                    x), reg)) as (_ & _ & H & _).
  exact H.
Qed.

Lemma fireTimeout_lookup (w : World) (j : nat) (now' : Z) (i : nat) (x : Execution) :
  heap w !! i = Some x ->
  exists x',
    heap (fireTimeout j now' w) !! i = Some x'
    /\ exec_subscription x' = exec_subscription x
    /\ exec_terminal x' = exec_terminal x
    /\ (tracked x -> tracked x').
Proof.
  intros Hx. unfold fireTimeout.
  destruct (heap w !! j) as [y|] eqn:Hy; [|eauto].
  destruct (exec_cleanupTimeout y) as [due|]; [|eauto].
  destruct (due <=? now')%Z; [|eauto]. cbn [heap].
  destruct (decide (j = i)) as [->|Hne].
  - rewrite Hx in Hy. injection Hy as <-.
    rewrite list_lookup_insert_eq by (eapply lookup_lt_Some; eassumption).
    eexists. split; [reflexivity|].
    destruct (run_emissions_process
                (log_of (emit (Error (timeoutError (exec_command x))) (exec_process x)))
                (set_process
                   (state_of (emit (Error (timeoutError (exec_command x))) (exec_process x)))
                   (set_cleanupTimeout None x), registry w)) as (_ & H2 & H3 & _).
    split; [exact H2|]. split; [exact H3|].
    intros Ht. apply (timeout_tracked tid command now t1 t2 now' x (registry w) Ht).
  - rewrite list_lookup_insert_ne by exact Hne. eauto.
Qed.

Lemma step_busyWhileSubscribed (handle : nat) (w : World) (i : input) :
  busyWhileSubscribed_ handle w ->
  busyWhileSubscribed_ handle (step stripAnsi toLowerCase w i).
Proof.
  intros (Hm & Halone & (x & Hx & Ht) & Hbusy).
  pose proof Ht as (Hterm & _).
  destruct i as [t now' data|j now']; cbn [step].
  - (* a chunk *)
    destruct (deliver_heap_managed stripAnsi toLowerCase t now' data (heap w) (registry w) Hm)
      as [Hm' Hreg'].
    destruct (N.eq_dec t tid) as [->|Hne].
    + (* of this terminal *)
      pose proof (deliver_heap_single tid now' data (heap w) (registry w) handle x Hx Halone)
        as Hd.
      assert (Hlt : (handle < length (heap w))%nat) by (eapply lookup_lt_Some; eassumption).
      split; [exact Hm'|]. unfold busyOf, subscribed, deliver. rewrite Hd.
      cbn [heap registry fst snd].
      rewrite list_lookup_insert_eq by exact Hlt.
      split; [|split].
      * intros i y Hy Hi. rewrite list_lookup_insert_ne in Hy by congruence.
        apply (Halone i y Hy Hi).
      * eexists. split; [reflexivity|].
        apply (receive_tracks stripAnsi toLowerCase tid command now t1 t2), Ht.
      * unfold busyOf, subscribed in Hbusy. rewrite Hx in Hbusy.
        destruct (exec_subscription x) as [c|] eqn:Hsub.
        2:{ rewrite (receive_inert tid now' data x (registry w)) by (intros _; exact Hsub).
            cbn [fst snd]. rewrite Hsub. exact Hbusy. }
        destruct (value_of (outputHandler stripAnsi toLowerCase now' data c (exec_process x)))
          as [c'|] eqn:Hv.
        -- rewrite (receive_open stripAnsi toLowerCase tid command now t1 t2 now' data x c c'
                      (registry w) Ht Hsub Hv).
           cbn [fst snd exec_subscription set_process set_subscription]. exact Hbusy.
        -- destruct (receive_feed1 stripAnsi toLowerCase tid now' data x (registry w) Hterm)
             as (_ & Hs & _). cbv zeta in Hs. rewrite Hs.
           unfold feed1. rewrite Hsub. cbn [fst snd].
           unfold value_of in Hv |- *. cbn [fst]. rewrite Hv.
           apply (receive_sets_idle stripAnsi toLowerCase).
           ++ pose proof Ht as (_ & _ & _ & _ & Hmark).
              destruct (Hmark c Hsub) as (_ & _ & Hin).
              destruct (handler_disposed stripAnsi toLowerCase now' data c (exec_process x) Hv)
                as [H1 H2].
              split; [exact Hterm|]. exists c. auto.
           ++ unfold present. destruct (registry w !! tid); [eauto|discriminate Hbusy].
    + (* of another terminal *)
      assert (Hkeep : heap (deliver stripAnsi toLowerCase t now' data w) !! handle = Some x).
      { unfold deliver. cbn [heap]. apply deliver_heap_other; [exact Hx|congruence]. }
      split; [exact Hm'|]. split; [|split].
      * intros i y Hy Hi Hty. unfold deliver in Hy. cbn [heap] in Hy.
        destruct (lookup_lt_is_Some_2 (heap w) i) as [y0 Hy0].
        { apply lookup_lt_Some in Hy.
          rewrite <- (deliver_heap_length t now' data (heap w) (registry w)).
          exact Hy. }
        rewrite (deliver_heap_other stripAnsi toLowerCase t now' data (heap w) (registry w)
                   i y0 Hy0) in Hy.
        -- injection Hy as <-. apply (Halone i y0 Hy0 Hi Hty).
        -- destruct (deliver_heap_lookup stripAnsi toLowerCase t now' data (heap w)
                       (registry w) i y0 Hy0) as [reg' Hy'].
           rewrite Hy in Hy'. injection Hy' as ->.
           rewrite receive_terminal in Hty. congruence.
      * exists x. split; [exact Hkeep|exact Ht].
      * unfold busyOf, subscribed. rewrite Hkeep.
        unfold deliver. cbn [registry]. rewrite (Hreg' tid) by congruence.
        unfold busyOf, subscribed in Hbusy. rewrite Hx in Hbusy. exact Hbusy.
  - (* a timer *)
    assert (Hreg : managed (fireTimeout j now' w)
                   /\ registry (fireTimeout j now' w) = registry w).
    { unfold managed, fireTimeout.
      destruct (heap w !! j) as [y|] eqn:Hy; [|split; [exact Hm|reflexivity]].
      destruct (exec_cleanupTimeout y) as [due|]; [|split; [exact Hm|reflexivity]].
      destruct (due <=? now')%Z; [|split; [exact Hm|reflexivity]].
      assert (Hmy : managedExecution y).
      { unfold managed in Hm. rewrite List.Forall_forall in Hm. apply Hm, list_elem_of_In.
        eapply list_elem_of_lookup_2. exact Hy. }
      destruct (timeout_managed y (registry w) Hmy) as [H1 H2]. cbv zeta in H1, H2.
      cbn [heap registry]. split; [|exact H2].
      apply Forall_insert_list; assumption. }
    destruct Hreg as [Hm' Hreg].
    destruct (fireTimeout_lookup w j now' handle x Hx) as (x' & Hx' & Hs' & _ & Ht').
    split; [exact Hm'|]. split; [|split].
    + intros i y Hy Hi Hty.
      destruct (lookup_lt_is_Some_2 (heap w) i) as [y0 Hy0].
      { apply lookup_lt_Some in Hy. rewrite <- (fireTimeout_length j now' w). exact Hy. }
      destruct (fireTimeout_lookup w j now' i y0 Hy0) as (y' & Hy' & Hsy & Hty' & _).
      rewrite Hy in Hy'. injection Hy' as <-.
      rewrite Hsy. apply (Halone i y0 Hy0 Hi). congruence.
    + exists x'. split; [exact Hx'|apply Ht', Ht].
    + unfold busyOf, subscribed. rewrite Hreg, Hx', Hs'.
      unfold busyOf, subscribed in Hbusy. rewrite Hx in Hbusy. exact Hbusy.
Qed.

Lemma steps_busyWhileSubscribed (handle : nat) (inputs : list input) :
  forall w, busyWhileSubscribed_ handle w ->
  busyWhileSubscribed_ handle (fold_left (step stripAnsi toLowerCase) inputs w).
Proof.
  induction inputs as [|i inputs IH]; intros w H; [exact H|].
  cbn [fold_left]. apply IH, step_busyWhileSubscribed, H.
Qed.

Lemma runCommand_busyWhileSubscribed (w : World) (info : TerminalInfo) :
  registry w !! tid = Some info ->
  managed w ->
  unsubscribedOn tid (heap w) ->
  busyWhileSubscribed_ (length (heap w)) (runCommand tid command now t1 t2 w).
Proof.
  intros Hinfo Hm Hu.
  assert (Hlook : heap (runCommand tid command now t1 t2 w) !! length (heap w)
                  = Some (submitted tid command now t1 t2)).
  { rewrite runCommand_heap. now apply list_lookup_middle. }
  split; [|split; [|split]].
  - unfold managed. rewrite runCommand_heap. apply Forall_app. split; [exact Hm|].
    constructor; [|constructor]. unfold managedExecution. cbn. apply incl_refl.
  - intros i y Hy Hi. rewrite runCommand_heap in Hy.
    assert (Hlt : (i < length (heap w))%nat).
    { apply lookup_lt_Some in Hy. rewrite length_app in Hy. cbn in Hy. lia. }
    rewrite lookup_app_l in Hy by exact Hlt.
    unfold unsubscribedOn in Hu. rewrite List.Forall_forall in Hu.
    apply Hu, list_elem_of_In. eapply list_elem_of_lookup_2. exact Hy.
  - eexists. split; [exact Hlook|apply submitted_tracks].
  - rewrite (runCommand_busy tid command now t1 t2 w info Hinfo).
    unfold subscribed. rewrite Hlook. reflexivity.
Qed.

(** The data handler of a tracked execution unsubscribes on a chunk of
    its terminal with the end marker and without the start marker only. *)
Lemma step_unsubscribes (w : World) (i : input) (handle : nat) (x : Execution) :
  heap w !! handle = Some x -> tracked x ->
  subscribed w handle = true ->
  subscribed (step stripAnsi toLowerCase w i) handle = false ->
  exists now' data,
    i = Data tid now' data
    /\ JS.includes (stripAnsi data) (startMarker (run t1 t2)) = false
    /\ JS.includes (stripAnsi data) (endMarker (run t1 t2)) = true.
Proof.
  intros Hx Ht Hs Hs'. pose proof Ht as (Hterm & _ & _ & _ & Hmark).
  unfold subscribed in Hs. rewrite Hx in Hs.
  destruct (exec_subscription x) as [c|] eqn:Hsub; [clear Hs|discriminate Hs].
  destruct (Hmark c eq_refl) as (Hm1 & Hm2 & _).
  destruct i as [t now' data|j now']; cbn [step] in Hs'.
  - destruct (N.eq_dec t tid) as [->|Hne].
    + destruct (deliver_lookup stripAnsi toLowerCase tid now' data w handle x Hx)
        as [reg' Hx'].
      unfold subscribed in Hs'. rewrite Hx' in Hs'.
      destruct (value_of (outputHandler stripAnsi toLowerCase now' data c (exec_process x)))
        as [c'|] eqn:Hv.
      * rewrite (receive_open stripAnsi toLowerCase tid command now t1 t2 now' data x c c'
                   reg' Ht Hsub Hv) in Hs'.
        cbn in Hs'. discriminate Hs'.
      * destruct (handler_disposed stripAnsi toLowerCase now' data c (exec_process x) Hv)
          as [H1 H2].
        exists now', data. rewrite <- Hm1, <- Hm2. auto.
    + exfalso. unfold subscribed, deliver in Hs'. cbn [heap] in Hs'.
      rewrite (deliver_heap_other stripAnsi toLowerCase t now' data (heap w) (registry w)
                 handle x Hx) in Hs' by congruence.
      rewrite Hsub in Hs'. discriminate Hs'.
  - exfalso. destruct (fireTimeout_lookup w j now' handle x Hx) as (x' & Hx' & Hsx & _).
    unfold subscribed in Hs'. rewrite Hx', Hsx, Hsub in Hs'. discriminate Hs'.
Qed.

(** C1 (amended). [runCommand] marks the session busy. From then on,
    whatever chunks have arrived and timers have fired in between:
    [busy=false] is restored when the execution's [completed] signal
    fires, that is when a chunk with the end marker (and not the start
    marker) reaches its data handler while it is still subscribed; if the
    handle is still pending it is fulfilled then. When the 30 000 ms timer
    fires while the handle is pending, the handle is rejected with the
    timeout error naming the command, and no [busy] flag changes: the
    registry is left as it was and the data handler stays subscribed. The
    data handler unsubscribes on such an end-marker chunk of its terminal
    and on nothing else. And when the executions hold only the listeners
    of [runCommand] and no earlier execution on the terminal is still
    subscribed at submission, the session is busy exactly as long as the
    data handler of this execution is subscribed: it stays busy through
    every timeout and becomes idle when the end-marker chunk arrives, not
    before. *)
Theorem busy_is_cleared_by_completed_only
  (w : World) (info : TerminalInfo) (inputs : list input) :
  registry w !! tid = Some info ->
  let w1 := runCommand tid command now t1 t2 w in
  let handle := length (heap w) in
  let w' := fold_left (step stripAnsi toLowerCase) inputs w1 in
  busyOf w1 tid = Some true
  /\ (forall now' data,
        subscribed w' handle = true ->
        JS.includes (stripAnsi data) (startMarker (run t1 t2)) = false ->
        JS.includes (stripAnsi data) (endMarker (run t1 t2)) = true ->
        busyOf (deliver stripAnsi toLowerCase tid now' data w') tid = Some false
        /\ (promiseOf w' handle = Some Pending ->
            promiseOf (deliver stripAnsi toLowerCase tid now' data w') handle
            = Some Fulfilled))
  /\ (forall now',
        promiseOf w' handle = Some Pending ->
        (now + 30000 <= now')%Z ->
        promiseOf (fireTimeout handle now' w') handle
        = Some (Rejected (timeoutError command))
        /\ registry (fireTimeout handle now' w') = registry w'
        /\ subscribed (fireTimeout handle now' w') handle = subscribed w' handle)
  /\ (forall i,
        subscribed w' handle = true ->
        subscribed (step stripAnsi toLowerCase w' i) handle = false ->
        exists now' data,
          i = Data tid now' data
          /\ JS.includes (stripAnsi data) (startMarker (run t1 t2)) = false
          /\ JS.includes (stripAnsi data) (endMarker (run t1 t2)) = true)
  /\ (managed w -> unsubscribedOn tid (heap w) ->
      busyOf w' tid = Some (subscribed w' handle)).
Proof.
  intros Hinfo w1 handle w'.
  assert (Hbusy : busyOf w1 tid = Some true) by (eapply runCommand_busy; eassumption).
  assert (Hpresent : present tid (registry w')).
  { apply steps_present. unfold busyOf in Hbusy. unfold present.
    destruct (registry w1 !! tid); [eauto|discriminate]. }
  assert (Hx : exists x, heap w' !! handle = Some x /\ tracked x).
  { apply (steps_tracks stripAnsi toLowerCase tid command now t1 t2
             inputs w1 handle (submitted tid command now t1 t2)).
    - unfold w1, handle. rewrite runCommand_heap. now apply list_lookup_middle.
    - apply submitted_tracks. }
  destruct Hx as (x & Hx & Hxt).
  split; [exact Hbusy|]. split; [|split; [|split]].
  - intros now' data Hsub H1 H2.
    unfold subscribed in Hsub. rewrite Hx in Hsub.
    destruct (exec_subscription x) as [c|] eqn:Hc; [clear Hsub|discriminate].
    pose proof Hxt as (Ht & _ & _ & _ & Hs).
    destruct (Hs c Hc) as (Hm1 & Hm2 & Hin).
    split.
    + unfold busyOf, deliver. cbn [registry].
      apply deliver_heap_sets_idle; [|exact Hpresent].
      apply List.Exists_exists. exists x. split.
      * apply list_elem_of_In. eapply list_elem_of_lookup_2. exact Hx.
      * split; [exact Ht|]. exists c. rewrite Hm1, Hm2. auto.
    + unfold promiseOf. rewrite Hx. intros [= Hpend].
      unfold deliver. cbn [heap].
      destruct (deliver_heap_lookup stripAnsi toLowerCase tid now' data (heap w') (registry w')
                  handle x Hx) as [reg' ->].
      cbn. f_equal.
      apply (receive_fulfils stripAnsi toLowerCase tid command now t1 t2
               now' data x c reg' Hxt Hc); [congruence|congruence|exact Hpend].
  - intros now' Hpend Hdue.
    unfold promiseOf in Hpend. rewrite Hx in Hpend. injection Hpend as Hpend.
    pose proof Hxt as (_ & _ & _ & Hp & _). destruct (Hp Hpend) as (Htimer & _ & _).
    destruct (timeout_tracked tid command now t1 t2 now' x (registry w') Hxt)
      as (_ & Hsub & Hreg & Hrej).
    unfold promiseOf, subscribed, fireTimeout. rewrite Hx, Htimer.
    apply Z.leb_le in Hdue. rewrite Hdue. cbn [heap registry].
    rewrite list_lookup_insert_eq by (eapply lookup_lt_Some; eassumption).
    cbn [fmap option_fmap option_map]. rewrite Hsub, Hreg, (Hrej Hpend). auto.
  - intros i. apply (step_unsubscribes w' i handle x Hx Hxt).
  - intros Hm Hu.
    apply (steps_busyWhileSubscribed handle inputs w1).
    apply (runCommand_busyWhileSubscribed w info Hinfo Hm Hu).
Qed.

End BusyFlag.

Lemma busy_is_cleared_by_completed_only_witness :
  registry sampleWorld !! 1 = Some sampleInfo
  /\ busyOf (deliver plainStripAnsi asciiToLowerCase 1 1500 sampleEndChunk sampleSubmitted) 1
     = Some false
  /\ promiseOf (fireTimeout 0 31000 sampleSubmitted) 0
     = Some (Rejected (timeoutError sampleCommand))
  /\ busyOf (fireTimeout 0 31000 sampleSubmitted) 1 = Some true
  /\ busyOf
       (deliver plainStripAnsi asciiToLowerCase 1 40000 sampleEndChunk
          (fireTimeout 0 31000 sampleSubmitted)) 1
     = Some false
  /\ managed sampleWorld
  /\ unsubscribedOn 1 (heap sampleWorld)
  /\ busyOf
       (fold_left (step plainStripAnsi asciiToLowerCase)
          [Timer 0 31000; Data 1 32000 sampleHello; Data 2 33000 sampleEndChunk]
          sampleSubmitted) 1
     = Some true.
Proof.
  pose proof (busy_is_cleared_by_completed_only plainStripAnsi asciiToLowerCase
                1 sampleCommand 1000 1000 1000 sampleWorld sampleInfo [] eq_refl) as H0.
  pose proof (busy_is_cleared_by_completed_only plainStripAnsi asciiToLowerCase
                1 sampleCommand 1000 1000 1000 sampleWorld sampleInfo
                [Timer 0 31000] eq_refl) as H1.
  pose proof (busy_is_cleared_by_completed_only plainStripAnsi asciiToLowerCase
                1 sampleCommand 1000 1000 1000 sampleWorld sampleInfo
                [Timer 0 31000; Data 1 32000 sampleHello; Data 2 33000 sampleEndChunk]
                eq_refl) as H2.
  cbv zeta in H0, H1, H2.
  destruct H0 as (_ & Hdone & Hlate & _). destruct H1 as (_ & Hdone' & _).
  destruct H2 as (_ & _ & _ & _ & Hbusy).
  destruct (Hlate 31000%Z eq_refl ltac:(discriminate)) as (Hrej & Hreg & _).
  assert (Hm : managed sampleWorld) by constructor.
  assert (Hu : unsubscribedOn 1 (heap sampleWorld)) by constructor.
  split; [reflexivity|]. split; [|split; [|split; [|split; [|split; [|split]]]]].
  - exact (proj1 (Hdone 1500%Z sampleEndChunk eq_refl eq_refl eq_refl)).
  - exact Hrej.
  - unfold busyOf.
    exact (eq_trans (f_equal (fun reg : gmap N TerminalInfo => busy <$> reg !! 1) Hreg)
             eq_refl).
  - exact (proj1 (Hdone' 40000%Z sampleEndChunk eq_refl eq_refl eq_refl)).
  - exact Hm.
  - exact Hu.
  - exact (eq_trans (Hbusy Hm Hu) eq_refl).
Defined.

(** ** The wrapped command and its markers *)

Lemma startsWith_app (p r : jsstring) : JS.startsWith (p ++ r) p = true.
Proof.
  induction p as [|a p IH]; [destruct r; reflexivity|].
  cbn. rewrite N.eqb_refl, IH. reflexivity.
Qed.

Lemma startsWith_prefix (s p : jsstring) :
  JS.startsWith s p = true -> exists r, s = p ++ r.
Proof.
  revert s. induction p as [|a p IH]; intros s H; [exists s; reflexivity|].
  destruct s as [|b s]; [discriminate H|]. cbn in H.
  apply andb_true_iff in H as [Hab H]. apply N.eqb_eq in Hab. subst b.
  destruct (IH s H) as [r ->]. exists r. reflexivity.
Qed.

Lemma includes_cons (c : N) (s p : jsstring) :
  JS.includes (c :: s) p = JS.startsWith (c :: s) p || JS.includes s p.
Proof. reflexivity. Qed.

Lemma includes_startsWith (s p : jsstring) :
  JS.startsWith s p = true -> JS.includes s p = true.
Proof. intros H. destruct s; cbn [JS.includes]; rewrite H; reflexivity. Qed.

Lemma includes_app (a p b : jsstring) : JS.includes (a ++ p ++ b) p = true.
Proof.
  induction a as [|c a IH].
  - cbn [app]. apply includes_startsWith, startsWith_app.
  - cbn [app]. rewrite includes_cons, IH. apply orb_true_r.
Qed.

Lemma includes_occurrence (s p : jsstring) :
  JS.includes s p = true -> exists a b, s = a ++ p ++ b.
Proof.
  induction s as [|c s IH]; intros H.
  - destruct p as [|a p]; [|discriminate H]. exists [], []. reflexivity.
  - rewrite includes_cons in H. apply orb_true_iff in H as [H|H].
    + destruct (startsWith_prefix _ _ H) as [r E]. exists [], r. exact E.
    + destruct (IH H) as (a & b & ->). exists (c :: a), b. reflexivity.
Qed.

Lemma includes_trans (s m p : jsstring) :
  JS.includes s m = true -> JS.includes m p = true -> JS.includes s p = true.
Proof.
  intros H1 H2.
  destruct (includes_occurrence _ _ H1) as (a & b & ->).
  destruct (includes_occurrence _ _ H2) as (a' & b' & ->).
  replace (a ++ (a' ++ p ++ b') ++ b) with ((a ++ a') ++ p ++ (b' ++ b))
    by (rewrite <- !app_assoc; reflexivity).
  apply includes_app.
Qed.

Lemma includes_prefix (p b : jsstring) : JS.includes (p ++ b) p = true.
Proof. apply (includes_app [] p b). Qed.

Lemma includes_skip (a s p : jsstring) :
  JS.includes s p = true -> JS.includes (a ++ s) p = true.
Proof.
  intros H. destruct (includes_occurrence _ _ H) as (x & y & ->).
  rewrite app_assoc. apply includes_app.
Qed.

Lemma includes_head (s p : jsstring) (c : N) :
  JS.includes s (c :: p) = true -> In c s.
Proof.
  intros H. destruct (includes_occurrence _ _ H) as (a & b & ->).
  apply in_or_app. right. left. reflexivity.
Qed.

Lemma trimEnd_app_nonempty (x y : jsstring) :
  JS.trimEnd y <> [] -> JS.trimEnd (x ++ y) <> [].
Proof.
  intros H. rewrite (trimEnd_app_keep x y H). intros E.
  apply app_eq_nil in E as [_ E]. contradiction.
Qed.

Lemma trimEnd_chain (xs : list jsstring) (y : jsstring) :
  JS.trimEnd y <> [] ->
  JS.trimEnd (fold_right (@app N) y xs) = fold_right (@app N) (JS.trimEnd y) xs
  /\ JS.trimEnd (fold_right (@app N) y xs) <> [].
Proof.
  intros H. induction xs as [|x xs [IH1 IH2]]; [split; [reflexivity|exact H]|].
  cbn [fold_right]. split.
  - rewrite (trimEnd_app_keep _ _ IH2), IH1. reflexivity.
  - apply trimEnd_app_nonempty, IH2.
Qed.

Lemma wrappedCommand_eq (c : Capture) (command : jsstring) :
  wrappedCommand c command
  = JS.lit "echo " ++ [34] ++ startMarker c ++ wrappedTail c command.
Proof.
  assert (Hend : JS.trimEnd (JS.lit "exit $EXIT_CODE" ++ [10]) = JS.lit "exit $EXIT_CODE")
    by reflexivity.
  assert (Hne : JS.trimEnd (JS.lit "exit $EXIT_CODE" ++ [10]) <> [])
    by (rewrite Hend; discriminate).
  unfold wrappedCommand, JS.trim, wrappedTail.
  change (JS.trimStart ([10] ++ JS.lit "echo " ++ ?x)) with (JS.lit "echo " ++ x).
  match goal with
  | |- JS.trimEnd ?t = _ =>
      change t with
        (fold_right (@app N) (JS.lit "exit $EXIT_CODE" ++ [10])
           [JS.lit "echo "; [34]; startMarker c; [34]; JS.lit ";"; [10]; JS.lit "{ ";
            command; JS.lit "; } 2>&1;"; [10]; JS.lit "EXIT_CODE=$?;"; [10];
            JS.lit "echo "; [34]; endMarker c; [34]; JS.lit ";"; [10]])
  end.
  rewrite (proj1 (trimEnd_chain _ _ Hne)), Hend. reflexivity.
Qed.

(** X17. The text [run] sends to the terminal contains the start marker
    and the end marker, whatever the command. So a chunk that echoes it
    is handled as a start-marker chunk: capture is switched on, the chunk
    is discarded, and nothing is processed or signalled for the end
    marker it holds. *)
Theorem echoed_command_line_counts_as_start_marker
  (stripAnsi toLowerCase : jsstring -> jsstring) (c : Capture) (command : jsstring) :
  JS.includes (wrappedCommand c command) (startMarker c) = true
  /\ JS.includes (wrappedCommand c command) (endMarker c) = true
  /\ forall (now : Z) (data : jsstring) (p : TerminalProcess),
       JS.includes (stripAnsi data) (wrappedCommand c command) = true ->
       outputHandler stripAnsi toLowerCase now data c p
       = (Some (set_outputStarted true c), p, []).
Proof.
  assert (H1 : JS.includes (wrappedCommand c command) (startMarker c) = true).
  { rewrite wrappedCommand_eq.
    rewrite (app_assoc (JS.lit "echo ") [34]). apply includes_app. }
  split; [exact H1|]. split.
  - rewrite wrappedCommand_eq. unfold wrappedTail.
    do 2 apply includes_skip. apply (includes_skip (startMarker c)).
    do 11 apply includes_skip. apply includes_prefix.
  - intros now data p H. unfold outputHandler. cbv zeta.
    rewrite (includes_trans _ _ _ H H1). reflexivity.
Qed.

Lemma string_of_uint_chars (d : Decimal.uint) :
  Forall (fun c => decimalChar c = true) (JS.lit (NilEmpty.string_of_uint d)).
Proof.
  induction d; cbn; constructor; try reflexivity; assumption.
Qed.

Lemma of_Z_chars (z : Z) : Forall (fun c => decimalChar c = true) (JS.of_Z z).
Proof.
  unfold JS.of_Z. destruct (Z.to_int z) as [d|d]; cbn [NilEmpty.string_of_int].
  - apply string_of_uint_chars.
  - change (JS.lit (String "-" (NilEmpty.string_of_uint d)))
      with (45 :: JS.lit (NilEmpty.string_of_uint d)).
    constructor; [reflexivity|apply string_of_uint_chars].
Qed.

Lemma not_in_marker (c : N) (prefix : jsstring) (z : Z) :
  decimalChar c = false -> ~ In c prefix -> ~ In c (prefix ++ JS.of_Z z).
Proof.
  intros Hd Hp H. apply in_app_or in H as [H|H]; [contradiction|].
  pose proof (of_Z_chars z) as Hz. rewrite List.Forall_forall in Hz.
  specialize (Hz c H). congruence.
Qed.

(** X18. The markers [run] builds from its two clock readings hold no
    newline, and neither contains the other: text made of the end marker
    and of code units other than [S] (83) does not contain the start
    marker, so the echo of the end marker line is never taken for a
    start-marker chunk; likewise for the start marker and [E] (69). *)
Theorem end_marker_is_never_taken_for_the_start_marker (t1 t2 : Z) (pre post : jsstring) :
  let c := run t1 t2 in
  (~ In 83 pre -> ~ In 83 post ->
   JS.includes (pre ++ endMarker c ++ post) (startMarker c) = false)
  /\ (~ In 69 pre -> ~ In 69 post ->
      JS.includes (pre ++ startMarker c ++ post) (endMarker c) = false)
  /\ JS.includes (pre ++ endMarker c ++ post) (endMarker c) = true
  /\ JS.includes (pre ++ startMarker c ++ post) (startMarker c) = true
  /\ noNewline (startMarker c) = true
  /\ noNewline (endMarker c) = true.
Proof.
  cbv zeta. cbn [run startMarker endMarker].
  assert (Hnl : forall prefix z, noNewline prefix = true ->
            noNewline (prefix ++ JS.of_Z z) = true).
  { intros prefix z H. rewrite noNewline_app, H. apply noNewline_Forall.
    eapply List.Forall_impl; [|apply of_Z_chars]. intros c Hc ->. discriminate Hc. }
  split; [|split; [|split; [|split; [|split]]]].
  - intros H1 H2. destruct (JS.includes _ _) eqn:E; [|reflexivity]. exfalso.
    change (JS.lit "START_CMD_" ++ JS.of_Z t1)
      with (83 :: (JS.lit "TART_CMD_" ++ JS.of_Z t1)) in E.
    apply includes_head in E. apply in_app_or in E as [E|E]; [contradiction|].
    apply in_app_or in E as [E|E]; [|contradiction].
    revert E. apply not_in_marker; [reflexivity|].
    cbn. intros H. repeat (destruct H as [H|H]; [discriminate H|]). exact H.
  - intros H1 H2. destruct (JS.includes _ _) eqn:E; [|reflexivity]. exfalso.
    change (JS.lit "END_CMD_" ++ JS.of_Z t2)
      with (69 :: (JS.lit "ND_CMD_" ++ JS.of_Z t2)) in E.
    apply includes_head in E. apply in_app_or in E as [E|E]; [contradiction|].
    apply in_app_or in E as [E|E]; [|contradiction].
    revert E. apply not_in_marker; [reflexivity|].
    cbn. intros H. repeat (destruct H as [H|H]; [discriminate H|]). exact H.
  - apply includes_app.
  - apply includes_app.
  - apply Hnl. reflexivity.
  - apply Hnl. reflexivity.
Qed.

(** ** extractVsCodeCommandOutput *)

Lemma startsWith_commandStart_overlap (x rest : jsstring) :
  x <> [] ->
  JS.startsWith x commandStart = false ->
  JS.startsWith (x ++ commandStart ++ rest) commandStart = false.
Proof.
  change commandStart with [93; 54; 51; 51; 59; 67]. intros Hne H.
  destruct x as [|a [|b [|c [|d [|e [|f r]]]]]]; [congruence|..];
    cbn [JS.startsWith app] in H |- *;
    repeat match goal with
           | |- context [N.eqb ?u ?v] =>
               destruct (N.eqb u v) eqn:?; cbn [andb JS.startsWith] in H |- *
           end;
    try reflexivity; try discriminate; try assumption;
    destruct r; discriminate H.
Qed.

Lemma startsWith_commandEnd_overlap (x rest : jsstring) :
  x <> [] ->
  JS.startsWith x commandEnd = false ->
  JS.startsWith (x ++ commandEnd ++ rest) commandEnd = false.
Proof.
  change commandEnd with [93; 54; 51; 51; 59; 68]. intros Hne H.
  destruct x as [|a [|b [|c [|d [|e [|f r]]]]]]; [congruence|..];
    cbn [JS.startsWith app] in H |- *;
    repeat match goal with
           | |- context [N.eqb ?u ?v] =>
               destruct (N.eqb u v) eqn:?; cbn [andb JS.startsWith] in H |- *
           end;
    try reflexivity; try discriminate; try assumption;
    destruct r; discriminate H.
Qed.

Lemma includes_false_cons (c : N) (s p : jsstring) :
  JS.includes (c :: s) p = false ->
  JS.startsWith (c :: s) p = false /\ JS.includes s p = false.
Proof. rewrite includes_cons. apply orb_false_iff. Qed.

Lemma lazyUntil_here (stop s : jsstring) :
  JS.startsWith s stop = true -> lazyUntil stop s = Some [].
Proof. intros H. destruct s; cbn [lazyUntil]; rewrite H; reflexivity. Qed.

Lemma lazyUntil_found (body post : jsstring) :
  JS.includes body commandEnd = false ->
  lazyUntil commandEnd (body ++ commandEnd ++ post) = Some body.
Proof.
  induction body as [|c body IH]; intros H.
  - cbn [app]. apply lazyUntil_here, startsWith_app.
  - apply includes_false_cons in H as [Hs Hi].
    cbn [app lazyUntil].
    change (c :: body ++ commandEnd ++ post) with ((c :: body) ++ commandEnd ++ post).
    rewrite (startsWith_commandEnd_overlap (c :: body) post); [|discriminate|exact Hs].
    rewrite (IH Hi). reflexivity.
Qed.

Lemma match_here (rest : jsstring) (group : jsstring) :
  lazyUntil commandEnd rest = Some group ->
  match_COMMAND_START_SEQUENCE (commandStart ++ rest) = Some group.
Proof.
  intros H.
  change (commandStart ++ rest) with (93 :: ([54; 51; 51; 59; 67] ++ rest)).
  cbn [match_COMMAND_START_SEQUENCE].
  change (93 :: ([54; 51; 51; 59; 67] ++ rest)) with (commandStart ++ rest).
  rewrite startsWith_app.
  change (drop (length commandStart) (commandStart ++ rest)) with rest.
  rewrite H. reflexivity.
Qed.

Lemma match_found (pre rest group : jsstring) :
  JS.includes pre commandStart = false ->
  lazyUntil commandEnd rest = Some group ->
  match_COMMAND_START_SEQUENCE (pre ++ commandStart ++ rest) = Some group.
Proof.
  intros Hp Hr. induction pre as [|c pre IH]; [apply match_here, Hr|].
  apply includes_false_cons in Hp as [Hs Hi].
  cbn [app match_COMMAND_START_SEQUENCE].
  change (c :: pre ++ commandStart ++ rest) with ((c :: pre) ++ commandStart ++ rest).
  rewrite (startsWith_commandStart_overlap (c :: pre) rest); [|discriminate|exact Hs].
  apply IH, Hi.
Qed.

Lemma match_none (s : jsstring) :
  JS.includes s commandStart = false -> match_COMMAND_START_SEQUENCE s = None.
Proof.
  induction s as [|c s IH]; intros H.
  - reflexivity.
  - apply includes_false_cons in H as [Hs Hi].
    cbn [match_COMMAND_START_SEQUENCE]. rewrite Hs. apply IH, Hi.
Qed.

(** X19. [extractVsCodeCommandOutput] returns the sanitized text between
    the first [\]633;C] of the data and the first [\]633;D] after it
    (its final [trim] has nothing left to remove), and the empty string
    for data without [\]633;C]. *)
Theorem extractVsCodeCommandOutput_takes_the_first_command (pre body post : jsstring) :
  JS.includes pre commandStart = false ->
  JS.includes body commandEnd = false ->
  extractVsCodeCommandOutput (pre ++ commandStart ++ body ++ commandEnd ++ post)
  = sanitizeOutput body
  /\ extractVsCodeCommandOutput pre = [].
Proof.
  intros Hp Hb. unfold extractVsCodeCommandOutput. cbv zeta. split.
  - rewrite (match_found pre _ body Hp (lazyUntil_found body post Hb)).
    destruct body as [|c body]; cbn [JS.truthy];
      unfold sanitizeOutput; apply trim_idempotent.
  - rewrite (match_none pre Hp). reflexivity.
Qed.

(** ** getOrCreateTerminal *)

Section Acquire.

Variable getAllTerminals :
  gmap N TerminalInfo -> list TerminalInfo * gmap N TerminalInfo.
Variable createTerminal :
  jsstring -> gmap N TerminalInfo -> TerminalInfo * gmap N TerminalInfo.
Variable shellIntegrationCwd : TerminalInfo -> option jsstring.
Variable fsPath : jsstring -> jsstring.
Variable arePathsEqual : jsstring -> jsstring -> bool.

Local Abbreviation available_ :=
  (available shellIntegrationCwd fsPath arePathsEqual).
Local Abbreviation getOrCreateTerminal_ :=
  (getOrCreateTerminal getAllTerminals createTerminal shellIntegrationCwd fsPath
     arePathsEqual).

Lemma existsb_eqb_In (tid : N) (l : list N) :
  existsb (N.eqb tid) l = true <-> In tid l.
Proof.
  rewrite existsb_exists. split.
  - intros (x & Hx & E). apply N.eqb_eq in E. subst x. exact Hx.
  - intros H. exists tid. split; [exact H|apply N.eqb_refl].
Qed.

Lemma addTerminalId_facts (tid : N) (w : World) :
  let w' := addTerminalId tid w in
  In tid (terminalIds (manager w'))
  /\ incl (terminalIds (manager w)) (terminalIds (manager w'))
  /\ (forall t, In t (terminalIds (manager w')) -> t = tid \/ In t (terminalIds (manager w)))
  /\ (List.NoDup (terminalIds (manager w)) -> List.NoDup (terminalIds (manager w')))
  /\ processes (manager w') = processes (manager w)
  /\ registry w' = registry w /\ heap w' = heap w.
Proof.
  cbv zeta. unfold addTerminalId. cbn [manager terminalIds processes registry heap].
  destruct (existsb (N.eqb tid) (terminalIds (manager w))) eqn:E.
  - apply existsb_eqb_In in E.
    split; [exact E|]. split; [intros t Ht; exact Ht|].
    split; [intros t Ht; right; exact Ht|]. split; [intros H; exact H|].
    repeat split; reflexivity.
  - assert (Hn : ~ In tid (terminalIds (manager w))).
    { intros H. apply existsb_eqb_In in H. congruence. }
    split; [apply in_or_app; right; left; reflexivity|].
    split; [intros t Ht; apply in_or_app; left; exact Ht|].
    split.
    { intros t Ht. apply in_app_or in Ht as [Ht|[<-|[]]];
        [right; exact Ht|left; reflexivity]. }
    split; [|repeat split; reflexivity].
    intros Hnd. apply NoDup_ListNoDup. apply NoDup_ListNoDup in Hnd.
    apply NoDup_app. split; [exact Hnd|]. split.
    + intros x Hx Hx'. apply list_elem_of_In in Hx. apply list_elem_of_In in Hx'.
      destruct Hx' as [<-|[]]. exact (Hn Hx).
    + apply NoDup_singleton.
Qed.

(** X20. [getOrCreateTerminal]: the id of the terminal it returns is in
    [terminalIds] afterwards, the ids already there stay, none is
    duplicated, and [processes] and the executions are untouched. It
    returns the first terminal of the registry's list that is not busy
    and reports a working directory equal to the requested one, leaving
    the registry as [getAllTerminals] left it; it calls [createTerminal]
    only when the list holds no such terminal, and returns what that
    call created. *)
Theorem getOrCreateTerminal_reuses_idle_terminals_only (cwd : jsstring) (w : World) :
  let pool := fst (getAllTerminals (registry w)) in
  let r := getOrCreateTerminal_ cwd w in
  In (info_id (fst r)) (terminalIds (manager (snd r)))
  /\ incl (terminalIds (manager w)) (terminalIds (manager (snd r)))
  /\ (List.NoDup (terminalIds (manager w)) -> List.NoDup (terminalIds (manager (snd r))))
  /\ processes (manager (snd r)) = processes (manager w)
  /\ heap (snd r) = heap w
  /\ ((exists before after,
         pool = before ++ fst r :: after
         /\ available_ cwd (fst r) = true
         /\ busy (fst r) = false
         /\ Forall (fun t => available_ cwd t = false) before
         /\ registry (snd r) = snd (getAllTerminals (registry w)))
      \/ (Forall (fun t => available_ cwd t = false) pool
          /\ (fst r, registry (snd r))
             = createTerminal cwd (snd (getAllTerminals (registry w))))).
Proof.
  cbv zeta. unfold getOrCreateTerminal. cbv zeta.
  destruct (getAllTerminals (registry w)) as [pool reg1] eqn:Hall. cbn [fst snd].
  destruct (List.find (available_ cwd) pool) as [t|] eqn:Hfind; cbn [fst snd].
  - destruct (addTerminalId_facts (info_id t) (mkWorld (manager w) reg1 (heap w)))
      as (H1 & H2 & _ & H4 & H5 & H6 & H7). cbv zeta in *.
    cbn [manager registry heap] in H2, H4, H5, H6, H7.
    split; [exact H1|]. split; [exact H2|]. split; [exact H4|]. split; [exact H5|].
    split; [exact H7|]. left.
    assert (Hsplit : exists before after,
              pool = before ++ t :: after
              /\ Forall (fun t => available_ cwd t = false) before).
    { clear -Hfind. induction pool as [|a pool IH]; [discriminate Hfind|].
      cbn in Hfind. destruct (available_ cwd a) eqn:Ea.
      - injection Hfind as ->. exists [], pool. split; [reflexivity|constructor].
      - destruct (IH Hfind) as (before & after & -> & Hb).
        exists (a :: before), after. split; [reflexivity|]. constructor; assumption. }
    destruct Hsplit as (before & after & Hp & Hb).
    apply List.find_some in Hfind as [_ Hav].
    exists before, after. split; [exact Hp|]. split; [exact Hav|]. split.
    + unfold available in Hav. destruct (busy t); [discriminate Hav|reflexivity].
    + split; [exact Hb|exact H6].
  - destruct (createTerminal cwd reg1) as [t reg2] eqn:Hcreate. cbn [fst snd].
    destruct (addTerminalId_facts (info_id t) (mkWorld (manager w) reg2 (heap w)))
      as (H1 & H2 & _ & H4 & H5 & H6 & H7). cbv zeta in *.
    cbn [manager registry heap] in H2, H4, H5, H6, H7.
    split; [exact H1|]. split; [exact H2|]. split; [exact H4|]. split; [exact H5|].
    split; [exact H7|]. right. split.
    + apply List.Forall_forall. intros a Ha.
      apply (List.find_none _ _ Hfind a Ha).
    + rewrite H6. reflexivity.
Qed.

End Acquire.

(** ** utils/sanitize.ts *)

Lemma trim_padded (a m b : jsstring) :
  forallb JS.isSpace a = true -> forallb JS.isSpace b = true ->
  JS.trim (a ++ m ++ b) = JS.trim m.
Proof.
  intros Ha Hb. unfold JS.trim.
  assert (Hs : forall x y, forallb JS.isSpace x = true ->
            JS.trimStart (x ++ y) = JS.trimStart y).
  { intros x y Hx. induction x as [|c x IH]; [reflexivity|].
    cbn in Hx. apply andb_true_iff in Hx as [Hc Hx]. cbn. rewrite Hc. apply IH, Hx. }
  assert (He : forall x y, forallb JS.isSpace y = true ->
            JS.trimEnd (x ++ y) = JS.trimEnd x).
  { intros x y Hy. induction x as [|c x IH].
    - cbn [app]. apply trimEnd_nil_iff, Hy.
    - cbn. rewrite IH. reflexivity. }
  rewrite (Hs a _ Ha).
  destruct (trimStart_spec m) as (pre & Em & Hpre).
  destruct (JS.trimStart m) as [|c r] eqn:E.
  - (* m is all white space *)
    assert (Hm : forallb JS.isSpace m = true).
    { rewrite Em, app_nil_r. exact Hpre. }
    rewrite (trimStart_all_space (m ++ b)); [reflexivity|].
    rewrite forallb_app, Hm, Hb. reflexivity.
  - assert (Hc : JS.isSpace c = false) by (eapply trimStart_head; exact E).
    assert (Hmb : JS.trimStart (m ++ b) = (c :: r) ++ b).
    { rewrite Em at 1. rewrite <- app_assoc, (Hs pre _ Hpre). cbn. rewrite Hc. reflexivity. }
    rewrite Hmb. apply He, Hb.
Qed.

Lemma trim_filter_trim (k : N -> bool) (y : jsstring) :
  JS.trim (List.filter k (JS.trim y)) = JS.trim (List.filter k y).
Proof.
  destruct (trim_spec y) as ((pre & post & E & Hpre & Hpost) & _).
  rewrite E at 2. rewrite !List.filter_app. symmetry.
  apply trim_padded; apply forallb_filter_keep; assumption.
Qed.

Lemma filter_CR_free (k : N -> bool) (s : jsstring) :
  k 13 = false ->
  List.filter k (Regexes.replace_LINE_ENDINGS s) = List.filter k s.
Proof.
  intros Hk.
  assert (E : forall x, List.filter k x = List.filter k (List.filter notCR x)).
  { intros x. rewrite filter_filter_bool. apply filter_ext_Forall with (P := fun _ => True).
    - intros c _. unfold notCR. destruct (N.eqb_spec c 13) as [->|_]; [|rewrite andb_true_l; reflexivity].
      rewrite Hk. reflexivity.
    - apply List.Forall_forall. intros ? _. exact I. }
  rewrite (E (Regexes.replace_LINE_ENDINGS s)), (E s).
  pose proof (carriage_returns_dropped (length s) s (le_n _)) as H.
  unfold Regexes.remove_STANDALONE_CR in H. fold notCR in H. rewrite H. reflexivity.
Qed.

Lemma sanitizeOutput_filter (s : jsstring) :
  sanitizeOutput s = JS.trim (List.filter (fun c => negb (Regexes.NON_ASCII_CONTROL c)) s).
Proof.
  unfold sanitizeOutput, Regexes.remove_NON_ASCII_CONTROL.
  rewrite (carriage_returns_dropped (length s) s (le_n _)).
  rewrite filter_filter_bool. f_equal.
  apply filter_ext_Forall with (P := fun _ => True).
  - intros c _. destruct (N.eqb_spec c 13) as [->|_]; reflexivity.
  - apply List.Forall_forall. intros ? _. exact I.
Qed.

(** X21. [sanitizeUserInput] is idempotent; its value holds no control
    character of [\x00-\x09\x0B-\x1F] and has no white space at either
    end; and [sanitizeOutput] gives on it what it gives on the raw
    text. *)
Theorem sanitizeUserInput_then_sanitizeOutput (text : jsstring) :
  Sanitize.sanitizeUserInput (Sanitize.sanitizeUserInput text)
  = Sanitize.sanitizeUserInput text
  /\ Forall (fun c => Sanitize.controlChar c = false) (Sanitize.sanitizeUserInput text)
  /\ JS.trim (Sanitize.sanitizeUserInput text) = Sanitize.sanitizeUserInput text
  /\ sanitizeOutput (Sanitize.sanitizeUserInput text) = sanitizeOutput text.
Proof.
  assert (Hclean : Forall (fun c => Sanitize.controlChar c = false)
                     (Sanitize.sanitizeUserInput text)).
  { unfold Sanitize.sanitizeUserInput. apply trim_Forall.
    apply List.Forall_forall. intros c Hc. apply filter_In in Hc as [_ Hc].
    apply negb_true_iff in Hc. exact Hc. }
  assert (Htrim : JS.trim (Sanitize.sanitizeUserInput text) = Sanitize.sanitizeUserInput text).
  { unfold Sanitize.sanitizeUserInput. apply trim_idempotent. }
  split; [|split; [exact Hclean|split; [exact Htrim|]]].
  - unfold Sanitize.sanitizeUserInput at 1.
    rewrite replace_LINE_ENDINGS_no_CR.
    2:{ eapply List.Forall_impl; [|exact Hclean]. intros c H ->. discriminate H. }
    rewrite filter_all_true; [exact Htrim|].
    eapply List.Forall_impl; [|exact Hclean]. intros c H. cbv beta. rewrite H. reflexivity.
  - rewrite !sanitizeOutput_filter. unfold Sanitize.sanitizeUserInput.
    rewrite trim_filter_trim, filter_filter_bool. f_equal.
    rewrite <- (filter_CR_free (fun c => negb (Regexes.NON_ASCII_CONTROL c)) text eq_refl).
    apply filter_ext_Forall with (P := fun _ => True).
    + intros c _. unfold Sanitize.controlChar, Regexes.NON_ASCII_CONTROL.
      destruct (c <=? 9), ((11 <=? c) && (c <=? 31)); reflexivity.
    + apply List.Forall_forall. intros ? _. exact I.
Qed.

Lemma matchCsi_plain (c : N) (r : jsstring) : c <> 27 -> Sanitize.matchCsi (c :: r) = None.
Proof.
  intros H. unfold Sanitize.matchCsi.
  destruct c as [|p]; [reflexivity|].
  do 5 (destruct p as [p|p|]; try reflexivity). contradiction H. reflexivity.
Qed.

Lemma matchEscape_plain (c : N) (r : jsstring) :
  c <> 27 -> Sanitize.matchEscape (c :: r) = None.
Proof.
  intros H. unfold Sanitize.matchEscape.
  destruct c as [|p]; [reflexivity|].
  do 5 (destruct p as [p|p|]; try reflexivity). contradiction H. reflexivity.
Qed.

Lemma removeMatches_plain (m : jsstring -> option jsstring) (s : jsstring) :
  (forall c r, c <> 27 -> m (c :: r) = None) ->
  ~ In 27 s ->
  forall n, Sanitize.removeMatches m n s = s.
Proof.
  intros Hm. induction s as [|c s IH]; intros Hs n.
  - destruct n; reflexivity.
  - destruct n as [|n]; [reflexivity|]. cbn [Sanitize.removeMatches].
    rewrite Hm by (intros ->; apply Hs; left; reflexivity).
    rewrite IH; [reflexivity|]. intros H. apply Hs. right. exact H.
Qed.

Lemma removeMatches_prefix (m : jsstring -> option jsstring) (a s : jsstring) (k : nat) :
  (forall c r, c <> 27 -> m (c :: r) = None) ->
  ~ In 27 a ->
  Sanitize.removeMatches m (length a + k) (a ++ s) = a ++ Sanitize.removeMatches m k s.
Proof.
  intros Hm. induction a as [|c a IH]; intros Ha; [reflexivity|].
  cbn [length Nat.add app Sanitize.removeMatches].
  rewrite Hm by (intros ->; apply Ha; left; reflexivity).
  rewrite IH; [reflexivity|]. intros H. apply Ha. right. exact H.
Qed.

Lemma afterParameters_found (params : jsstring) (l : N) (b : jsstring) :
  forallb Sanitize.parameterChar params = true ->
  Sanitize.letter l = true ->
  Sanitize.afterParameters (params ++ l :: b) = Some b.
Proof.
  intros Hp Hl. induction params as [|c params IH].
  - cbn. rewrite Hl.
    destruct (Sanitize.parameterChar l) eqn:E; [|reflexivity].
    exfalso. revert E Hl. unfold Sanitize.parameterChar, Sanitize.letter. N_cases.
  - cbn in Hp. apply andb_true_iff in Hp as [Hc Hp]. cbn. rewrite Hc. apply IH, Hp.
Qed.

Lemma afterParameters_suffix (s rest : jsstring) :
  Sanitize.afterParameters s = Some rest -> exists pre, s = pre ++ rest /\ pre <> [].
Proof.
  revert rest. induction s as [|c s IH]; intros rest H; [discriminate H|].
  cbn in H. destruct (Sanitize.parameterChar c).
  - destruct (IH rest H) as (pre & -> & _). exists (c :: pre). split; [reflexivity|discriminate].
  - destruct (Sanitize.letter c); [|discriminate H]. injection H as <-.
    exists [c]. split; [reflexivity|discriminate].
Qed.

Lemma afterLazyDots_suffix (s rest : jsstring) :
  Sanitize.afterLazyDots s = Some rest -> exists pre, s = pre ++ rest /\ pre <> [].
Proof.
  revert rest. induction s as [|c s IH]; intros rest H; [discriminate H|].
  cbn in H. destruct (Sanitize.finalChar c).
  - injection H as <-. exists [c]. split; [reflexivity|discriminate].
  - destruct (Sanitize.lineTerminator c); [discriminate H|].
    destruct (IH rest H) as (pre & -> & _). exists (c :: pre). split; [reflexivity|discriminate].
Qed.

Lemma matchCsi_consuming : consuming Sanitize.matchCsi.
Proof.
  intros s rest H.
  destruct s as [|c s]; [discriminate H|].
  destruct (N.eq_dec c 27) as [->|Hc]; [|rewrite (matchCsi_plain c s Hc) in H; discriminate H].
  unfold Sanitize.matchCsi in H.
  destruct s as [|d s]; [discriminate H|].
  destruct (N.eq_dec d 91) as [->|Hd].
  - destruct (afterParameters_suffix _ _ H) as (pre & -> & _).
    exists (27 :: 91 :: pre). split; [reflexivity|discriminate].
  - exfalso. destruct d as [|p]; [discriminate H|].
    do 7 (destruct p as [p|p|]; try discriminate H). apply Hd. reflexivity.
Qed.

Lemma matchEscape_consuming : consuming Sanitize.matchEscape.
Proof.
  intros s rest H.
  destruct s as [|c s]; [discriminate H|].
  destruct (N.eq_dec c 27) as [->|Hc]; [|rewrite (matchEscape_plain c s Hc) in H; discriminate H].
  unfold Sanitize.matchEscape in H.
  destruct s as [|d s]; [discriminate H|].
  destruct (N.eq_dec d 91) as [->|Hd].
  - destruct (afterLazyDots_suffix _ _ H) as (pre & -> & _).
    exists (27 :: 91 :: pre). split; [reflexivity|discriminate].
  - exfalso. destruct d as [|p]; [discriminate H|].
    do 7 (destruct p as [p|p|]; try discriminate H). apply Hd. reflexivity.
Qed.

Lemma removeMatches_Forall (P : N -> Prop) (m : jsstring -> option jsstring) :
  consuming m ->
  forall n s, Forall P s -> Forall P (Sanitize.removeMatches m n s).
Proof.
  intros Hm. induction n as [|n IH]; intros s Hs; [exact Hs|].
  destruct s as [|c r]; [constructor|]. cbn [Sanitize.removeMatches].
  destruct (m (c :: r)) as [rest|] eqn:E.
  - destruct (Hm _ _ E) as (pre & Epre & _). apply IH.
    rewrite Epre in Hs. apply Forall_app in Hs as [_ Hs]. exact Hs.
  - apply Forall_cons in Hs as [Hc Hr]. constructor; [exact Hc|apply IH, Hr].
Qed.

(** More rounds than code units change nothing. *)
Lemma removeMatches_rounds (m : jsstring -> option jsstring) :
  consuming m ->
  forall n s, (length s <= n)%nat ->
  Sanitize.removeMatches m n s = Sanitize.removeAll m s.
Proof.
  intros Hm. unfold Sanitize.removeAll.
  assert (H : forall n k s, (length s <= n)%nat -> (length s <= k)%nat ->
            Sanitize.removeMatches m n s = Sanitize.removeMatches m k s).
  { induction n as [|n IH]; intros k s Hn Hk.
    - destruct s; [destruct k; reflexivity|cbn in Hn; lia].
    - destruct s as [|c r]; [destruct k; reflexivity|].
      destruct k as [|k]; [cbn in Hk; lia|]. cbn [Sanitize.removeMatches].
      cbn [length] in Hn, Hk.
      destruct (m (c :: r)) as [rest|] eqn:E.
      + destruct (Hm _ _ E) as (pre & Epre & Hne).
        assert (length rest < length (c :: r))%nat.
        { rewrite Epre, length_app. destruct pre; [congruence|cbn; lia]. }
        cbn [length] in *. apply IH; lia.
      + f_equal. apply IH; lia. }
  intros n s Hn. apply H; [exact Hn|reflexivity].
Qed.

Lemma replace_LINE_ENDINGS_Forall (P : N -> Prop) (n : nat) (s : jsstring) :
  (length s <= n)%nat -> Forall P s -> Forall P (Regexes.replace_LINE_ENDINGS s).
Proof.
  revert s. induction n as [|n IH]; intros s Hn Hs.
  { destruct s; [constructor|cbn in Hn; lia]. }
  destruct s as [|c [|d r]]; [constructor|exact Hs|].
  rewrite replace_LINE_ENDINGS_cons2.
  apply Forall_cons in Hs as [Hc Hs]. pose proof Hs as Hs'.
  apply Forall_cons in Hs' as [Hd Hr]. cbn [length] in Hn.
  destruct ((c =? 13) && (d =? 10)) eqn:E.
  - apply andb_true_iff in E as [_ E]. apply N.eqb_eq in E. subst d.
    constructor; [exact Hd|]. apply IH; [lia|exact Hr].
  - constructor; [exact Hc|]. apply IH; [cbn [length]; lia|exact Hs].
Qed.

Lemma replace_CR_Forall (s : jsstring) :
  Forall (fun c => c <> 13) (Sanitize.replace_CR s).
Proof.
  unfold Sanitize.replace_CR. apply List.Forall_forall. intros c Hc.
  apply in_map_iff in Hc as (x & <- & _).
  destruct (N.eqb_spec x 13); [discriminate|assumption].
Qed.

Lemma replace_CR_plain (s : jsstring) :
  ~ In 27 s -> ~ In 27 (Sanitize.replace_CR s).
Proof.
  intros H Hin. unfold Sanitize.replace_CR in Hin.
  apply in_map_iff in Hin as (x & E & Hx).
  destruct (N.eqb_spec x 13); [discriminate E|]. subst x. exact (H Hx).
Qed.

Lemma removeAll_plain (m : jsstring -> option jsstring) (s : jsstring) :
  (forall c r, c <> 27 -> m (c :: r) = None) -> ~ In 27 s -> Sanitize.removeAll m s = s.
Proof. intros Hm Hs. apply removeMatches_plain; assumption. Qed.

Lemma removeMatches_match (m : jsstring -> option jsstring) (n : nat) (c : N)
  (r rest : jsstring) :
  m (c :: r) = Some rest ->
  Sanitize.removeMatches m (S n) (c :: r) = Sanitize.removeMatches m n rest.
Proof. intros H. cbn [Sanitize.removeMatches]. rewrite H. reflexivity. Qed.

Lemma removeAll_sequence (a params b : jsstring) (l : N) :
  ~ In 27 a ->
  forallb Sanitize.parameterChar params = true ->
  Sanitize.letter l = true ->
  Sanitize.removeAll Sanitize.matchCsi (a ++ 27 :: 91 :: params ++ l :: b)
  = Sanitize.removeAll Sanitize.matchCsi (a ++ b).
Proof.
  intros Ha Hp Hl.
  assert (Hab : Sanitize.removeAll Sanitize.matchCsi (a ++ b)
                = a ++ Sanitize.removeAll Sanitize.matchCsi b).
  { unfold Sanitize.removeAll. rewrite length_app.
    apply removeMatches_prefix; [apply matchCsi_plain|exact Ha]. }
  rewrite Hab. unfold Sanitize.removeAll at 1. rewrite length_app.
  rewrite removeMatches_prefix; [|apply matchCsi_plain|exact Ha]. f_equal.
  cbn [length].
  rewrite (removeMatches_match _ _ _ _ b)
    by (cbn [Sanitize.matchCsi]; apply afterParameters_found; assumption).
  apply removeMatches_rounds; [apply matchCsi_consuming|].
  rewrite length_app. cbn [length]. lia.
Qed.

(** X22. [sanitizeTerminalOutput] never returns a carriage return, nor
    white space at either end. On text without ESC it only normalizes the
    line endings ([\r\n] and [\r] to [\n]) and trims. An escape sequence
    made of ESC, [[], digits and semicolons and one letter, not preceded
    by another ESC, is removed and nothing else with it: the value is
    that of the text without the sequence. *)
Theorem sanitizeTerminalOutput_removes_colour_sequences (text : jsstring) :
  Forall (fun c => c <> 13) (Sanitize.sanitizeTerminalOutput text)
  /\ JS.trim (Sanitize.sanitizeTerminalOutput text) = Sanitize.sanitizeTerminalOutput text
  /\ (~ In 27 text ->
      Sanitize.sanitizeTerminalOutput text
      = JS.trim (Sanitize.replace_CR (Regexes.replace_LINE_ENDINGS text)))
  /\ (forall a params l b,
        text = a ++ 27 :: 91 :: params ++ l :: b ->
        ~ In 27 a ->
        forallb Sanitize.parameterChar params = true ->
        Sanitize.letter l = true ->
        Sanitize.sanitizeTerminalOutput text = Sanitize.sanitizeTerminalOutput (a ++ b)).
Proof.
  split; [|split; [|split]].
  - unfold Sanitize.sanitizeTerminalOutput. apply trim_Forall.
    apply removeMatches_Forall; [apply matchEscape_consuming|apply replace_CR_Forall].
  - unfold Sanitize.sanitizeTerminalOutput. apply trim_idempotent.
  - intros H. unfold Sanitize.sanitizeTerminalOutput.
    rewrite (removeAll_plain Sanitize.matchCsi text matchCsi_plain H).
    rewrite removeAll_plain; [reflexivity|apply matchEscape_plain|].
    apply replace_CR_plain. intros Hin.
    assert (Hf : Forall (fun c => c <> 27) (Regexes.replace_LINE_ENDINGS text)).
    { apply (replace_LINE_ENDINGS_Forall _ (length text)); [reflexivity|].
      apply List.Forall_forall. intros c Hc ->. exact (H Hc). }
    rewrite List.Forall_forall in Hf. exact (Hf 27 Hin eq_refl).
  - intros a params l b -> Ha Hp Hl. unfold Sanitize.sanitizeTerminalOutput.
    rewrite (removeAll_sequence a params b l Ha Hp Hl). reflexivity.
Qed.

(** * The further properties on the sample runs *)

Lemma continue_never_flushes_the_partial_line_witness :
  buffer newTerminalProcess = []
  /\ outputBuffer <$> value_of sampleMidLine = Some (JS.lit "par")
  /\ List.map emitted (log_of (continue_ (state_of sampleMidLine))) = [Continue].
Proof.
  split; [reflexivity|]. split; [reflexivity|].
  exact (proj1 (proj2 (continue_never_flushes_the_partial_line plainStripAnsi
                         asciiToLowerCase (Some sampleCapture) newTerminalProcess
                         [(1001%Z, sampleStartChunk); (1002%Z, JS.lit "par")] eq_refl))).
Defined.

Lemma partial_line_is_only_buffered_witness :
  outputStarted sampleCapturing = true
  /\ forallb (markerFree plainStripAnsi sampleCapturing) samplePrompt = true
  /\ noNewline (outputBuffer sampleCapturing ++ strippedText plainStripAnsi samplePrompt)
     = true
  /\ feed plainStripAnsi asciiToLowerCase (Some sampleCapturing, newTerminalProcess)
       samplePrompt
     = (Some (set_outputBuffer (JS.lit "Password: ") sampleCapturing),
        newTerminalProcess, []).
Proof.
  split; [reflexivity|]. split; [reflexivity|]. split; [reflexivity|].
  exact (partial_line_is_only_buffered plainStripAnsi asciiToLowerCase sampleCapturing
           newTerminalProcess samplePrompt eq_refl eq_refl eq_refl).
Defined.

Lemma isHot_window_witness :
  JS.trim (JS.lit "Compiling main.c") <> []
  /\ 1000%Z <> 0%Z
  /\ isHot 15999
       (state_of
          (processOutput asciiToLowerCase 1000 (JS.lit "Compiling main.c")
             newTerminalProcess))
     = true
  /\ isHot 16000
       (state_of
          (processOutput asciiToLowerCase 1000 (JS.lit "Compiling main.c")
             newTerminalProcess))
     = false.
Proof.
  assert (H1 : JS.trim (JS.lit "Compiling main.c") <> []) by (vm_compute; discriminate).
  assert (H2 : 1000%Z <> 0%Z) by discriminate.
  split; [exact H1|]. split; [exact H2|].
  pose proof (proj1 (isHot_window asciiToLowerCase 1000 (JS.lit "Compiling main.c")
                       newTerminalProcess H1 H2)) as H.
  split; [exact (H 15999%Z)|exact (H 16000%Z)].
Defined.

Lemma settled_handle_is_final_witness :
  promiseOf
    (fold_left (step plainStripAnsi asciiToLowerCase) [Data 1 1500 sampleEndChunk]
       sampleSubmitted) 0
  = Some Fulfilled
  /\ Fulfilled <> Pending
  /\ fireTimeout 0 31000
       (fold_left (step plainStripAnsi asciiToLowerCase) [Data 1 1500 sampleEndChunk]
          sampleSubmitted)
     = fold_left (step plainStripAnsi asciiToLowerCase) [Data 1 1500 sampleEndChunk]
         sampleSubmitted.
Proof.
  assert (H2 : Fulfilled <> Pending) by discriminate.
  split; [reflexivity|]. split; [exact H2|].
  exact (proj2 (settled_handle_is_final plainStripAnsi asciiToLowerCase sampleWorld 1
                  sampleCommand 1000 1000 1000 [Data 1 1500 sampleEndChunk] Fulfilled
                  eq_refl H2) 31000%Z).
Defined.

Lemma session_is_listed_under_its_last_command_witness :
  registry sampleWorld !! 1 = Some sampleInfo
  /\ info_id sampleInfo = 1
  /\ In 1 (terminalIds (manager sampleWorld))
  /\ exists b : bool,
       busyOf sampleSubmitted 1 = Some b
       /\ In (1, sampleCommand) (getTerminals b sampleSubmitted).
Proof.
  assert (H3 : In 1 (terminalIds (manager sampleWorld))) by (left; reflexivity).
  split; [reflexivity|]. split; [reflexivity|]. split; [exact H3|].
  destruct (session_is_listed_under_its_last_command plainStripAnsi asciiToLowerCase
              sampleWorld 1 sampleInfo sampleCommand 1000 1000 1000 [] eq_refl eq_refl H3)
    as (b & Hb & Hin & _).
  exists b. split; [exact Hb|exact Hin].
Defined.

Lemma running_command_can_be_polled_witness :
  In 1 (terminalIds (manager sampleWorld))
  /\ JS.includes (plainStripAnsi sampleStartChunk) (startMarker (run 1000 1000)) = true
  /\ forallb (markerFree plainStripAnsi (run 1000 1000)) sampleUnterminated = true
  /\ promiseOf sampleRunning 0 = Some Pending
  /\ fst (managerGetUnretrievedOutput 1 sampleRunning) = JS.lit "hello".
Proof.
  assert (H1 : In 1 (terminalIds (manager sampleWorld))) by (left; reflexivity).
  split; [exact H1|]. split; [reflexivity|]. split; [reflexivity|].
  pose proof (running_command_can_be_polled plainStripAnsi asciiToLowerCase 1
                sampleCommand 1000 1000 1000 sampleWorld H1 1001 sampleStartChunk
                sampleUnterminated eq_refl eq_refl) as (Hp & _ & Hout).
  split; [exact Hp|exact Hout].
Defined.


Lemma sessions_do_not_interfere_witness :
  managed sampleSubmitted
  /\ registry (deliver plainStripAnsi asciiToLowerCase 2 1500 sampleEndChunk sampleSubmitted)
     !! 1
     = registry sampleSubmitted !! 1.
Proof.
  assert (H1 : managed sampleSubmitted).
  { constructor; [|constructor]. intros r Hr. exact Hr. }
  assert (H2 : (1 : N) <> 2) by discriminate.
  split; [exact H1|].
  exact (proj1 (proj2 (proj2 (proj2 (proj2
           (sessions_do_not_interfere plainStripAnsi asciiToLowerCase sampleSubmitted H1)))))
           2 1500%Z sampleEndChunk 1 H2).
Defined.

Lemma extractVsCodeCommandOutput_takes_the_first_command_witness :
  JS.includes (JS.lit "prompt") commandStart = false
  /\ JS.includes (JS.lit " ls" ++ [13; 10] ++ JS.lit "a.txt ") commandEnd = false
  /\ extractVsCodeCommandOutput
       (JS.lit "prompt" ++ commandStart ++ (JS.lit " ls" ++ [13; 10] ++ JS.lit "a.txt ")
        ++ commandEnd ++ JS.lit "rest")
     = JS.lit "ls" ++ [10] ++ JS.lit "a.txt".
Proof.
  split; [reflexivity|]. split; [reflexivity|].
  exact (proj1 (extractVsCodeCommandOutput_takes_the_first_command (JS.lit "prompt")
                  (JS.lit " ls" ++ [13; 10] ++ JS.lit "a.txt ") (JS.lit "rest")
                  eq_refl eq_refl)).
Defined.

Lemma hot_state_follows_the_last_complete_line_witness :
  outputStarted sampleCapturing = true
  /\ markerFree plainStripAnsi sampleCapturing (1000%Z, sampleBuild) = true
  /\ completeLines (outputBuffer sampleCapturing ++ plainStripAnsi sampleBuild)
     = [JS.lit "Compiling main.c"] ++ JS.lit "ok" :: [JS.lit "  "]
  /\ JS.trim (JS.lit "ok") <> []
  /\ Forall blank [JS.lit "  "]
  /\ 1000%Z <> 0%Z
  /\ isHot 2999
       (state_of
          (outputHandler plainStripAnsi asciiToLowerCase 1000 sampleBuild sampleCapturing
             newTerminalProcess))
     = true
  /\ isHot 3000
       (state_of
          (outputHandler plainStripAnsi asciiToLowerCase 1000 sampleBuild sampleCapturing
             newTerminalProcess))
     = false.
Proof.
  assert (H4 : JS.trim (JS.lit "ok") <> []) by (vm_compute; discriminate).
  assert (H5 : Forall blank [JS.lit "  "]) by (constructor; [reflexivity|constructor]).
  assert (H6 : 1000%Z <> 0%Z) by discriminate.
  split; [reflexivity|]. split; [reflexivity|]. split; [reflexivity|].
  split; [exact H4|]. split; [exact H5|]. split; [exact H6|].
  pose proof (hot_state_follows_the_last_complete_line plainStripAnsi asciiToLowerCase
                1000 sampleBuild sampleCapturing newTerminalProcess
                [JS.lit "Compiling main.c"] (JS.lit "ok") [JS.lit "  "]
                eq_refl eq_refl eq_refl H4 H5 H6) as H.
  split; [exact (H 2999%Z)|exact (H 3000%Z)].
Defined.

Lemma poll_drops_a_final_prompt_character_witness :
  Regexes.promptChar 37 = true
  /\ sanitizeOutput (JS.lit "done 100%") = JS.lit "done 100" ++ [37]
  /\ noNewline (JS.lit "done 100") = true
  /\ List.map emitted
       (log_of
          (processOutput asciiToLowerCase 1001 (JS.lit "done 100%")
             (state_of (getUnretrievedOutput newTerminalProcess))))
     = [Line (JS.lit "done 100%")]
  /\ value_of
       (getUnretrievedOutput
          (state_of
             (processOutput asciiToLowerCase 1001 (JS.lit "done 100%")
                (state_of (getUnretrievedOutput newTerminalProcess)))))
     = JS.lit "done 100".
Proof.
  split; [reflexivity|]. split; [reflexivity|]. split; [reflexivity|].
  pose proof (poll_drops_a_final_prompt_character asciiToLowerCase 1001
                (JS.lit "done 100%") (JS.lit "done 100") 37 newTerminalProcess
                eq_refl eq_refl eq_refl) as (_ & Hev & Hpoll).
  split; [exact Hev|exact Hpoll].
Defined.

Lemma output_outside_the_markers_is_ignored_witness :
  forallb (markerFree plainStripAnsi (run 1000 1000)) sampleInThree = true
  /\ feed plainStripAnsi asciiToLowerCase (Some (run 1000 1000), newTerminalProcess)
       sampleInThree
     = (Some (run 1000 1000), newTerminalProcess, []).
Proof.
  split; [reflexivity|].
  exact (proj1 (output_outside_the_markers_is_ignored plainStripAnsi asciiToLowerCase
                  1000 1000 newTerminalProcess sampleInThree eq_refl)).
Defined.
